(** * A shallow embedding of the accounting ledger core

    Sources embedded here:
    - [accounting/core/filter.py]     the composable filter class,
    - [accounting/core/value.py]      the decimal expression evaluator,
    - [accounting/core/dateutils.py]  calendar ranges and interval steps,
    - [accounting/core/core.py]       items, transactions, accounts, database,
    - [accounting/report.py]          groupings, datasets and reports.

    Python objects live in a store indexed by references; a method that
    mutates its receiver takes the store and returns the new one.  A call
    that may raise returns a [result]. *)

From Stdlib Require Import ZArith Lia Bool List Ascii String Sorting.Sorted Sorting.Permutation.
From stdpp Require Import gmap strings.
Import ListNotations.
Local Open Scope string_scope.
Local Open Scope Z_scope.

(** ** Exceptions and results *)

Inductive exn : Type :=
| AttributeError (name : string)
| KeyError (key : string)
| TypeError
| ValueError
| InvalidOperation
| OverflowError
| OutOfFuel.

Inductive result (A : Type) : Type :=
| Ok (a : A)
| Raise (e : exn).
Arguments Ok {A} a.
Arguments Raise {A} e.

Definition bind {A B : Type} (r : result A) (k : A -> result B) : result B :=
  match r with
  | Ok a => k a
  | Raise e => Raise e
  end.

Definition rmap {A B : Type} (f : A -> B) (r : result A) : result B :=
  bind r (fun a => Ok (f a)).

(** The answer of a test that returned one. *)
Definition answer (r : result bool) : bool :=
  match r with
  | Ok b => b
  | Raise _ => false
  end.

Declare Scope result_scope.
Delimit Scope result_scope with result.
Notation "'let!' x ':=' r 'in' k" := (bind r (fun x => k))
  (at level 10, x pattern, r at level 100, k at level 200) : result_scope.
Local Open Scope result_scope.

(** ** [filter.py]: the filter class

    [W] is the object store the predicates read, [O] the type of the objects
    a filter is applied to. *)

Module FilterCore.
Section Filters.
Context {W O : Type}.

(** [Filter.Operator] *)
Inductive Operator : Type := AND | OR.

(** An instance of (a subclass of) [Filter]: the fields [_op] and
    [_combined] set by [__init__], and the subclass's [_accepted]. *)
Inductive Filter : Type :=
| mkFilter (_op : option Operator) (_combined : list Filter)
           (_accepted : W -> O -> result bool).

Definition is_AND (o : Operator) : bool := match o with AND => true | OR => false end.
Definition is_OR (o : Operator) : bool := match o with OR => true | AND => false end.

(** The [for f in self._combined[1:]] loop of [Filter.accepted], given the
    method to call on each sub-filter and the value of [accepted] so far. *)
Fixpoint accepted_loop (o : Operator) (call : Filter -> result bool)
         (fs : list Filter) (acc : bool) : result bool :=
  match fs with
  | [] => Ok acc
  | f :: fs' =>
      if is_AND o && negb acc then Ok false
      else if is_OR o && acc then Ok true
      else let! a := call f in accepted_loop o call fs' a
  end.

(** The loop of [Filter.rejected]. *)
Fixpoint rejected_loop (o : Operator) (call : Filter -> result bool)
         (fs : list Filter) (rej : bool) : result bool :=
  match fs with
  | [] => Ok rej
  | f :: fs' =>
      if is_AND o && rej then Ok true
      else if is_OR o && negb rej then Ok false
      else let! r := call f in rejected_loop o call fs' r
  end.

(** [Filter.accepted] *)
Fixpoint accepted (f : Filter) (w : W) (obj : O) {struct f} : result bool :=
  match f with
  | mkFilter (Some o) (f0 :: rest) _ =>
      let! a := accepted f0 w obj in
      (fix loop (fs : list Filter) (acc : bool) {struct fs} : result bool :=
         match fs with
         | [] => Ok acc
         | f' :: fs' =>
             if is_AND o && negb acc then Ok false
             else if is_OR o && acc then Ok true
             else let! a' := accepted f' w obj in loop fs' a'
         end) rest a
  | mkFilter _ _ _accepted => _accepted w obj
  end.

(** [Filter.rejected] *)
Fixpoint rejected (f : Filter) (w : W) (obj : O) {struct f} : result bool :=
  match f with
  | mkFilter (Some o) (f0 :: rest) _ =>
      let! r := rejected f0 w obj in
      (fix loop (fs : list Filter) (rej : bool) {struct fs} : result bool :=
         match fs with
         | [] => Ok rej
         | f' :: fs' =>
             if is_AND o && rej then Ok true
             else if is_OR o && negb rej then Ok false
             else let! r' := rejected f' w obj in loop fs' r'
         end) rest r
  | mkFilter _ _ _accepted => rmap negb (_accepted w obj)
  end.

(** [CombinedFilter]: its [_accepted] returns [True]. *)
Definition CombinedFilter (o : Operator) (fs : list Filter) : Filter :=
  mkFilter (Some o) fs (fun _ _ => Ok true).

(** A leaf filter: a subclass whose [__init__] calls [super().__init__()]. *)
Definition Leaf (p : W -> O -> result bool) : Filter := mkFilter None [] p.

(** [Filter.__and__] and [Filter.__or__] *)
Definition filter_and (f1 f2 : Filter) : Filter := CombinedFilter AND [f1; f2].
Definition filter_or (f1 f2 : Filter) : Filter := CombinedFilter OR [f1; f2].

End Filters.
Arguments Filter : clear implicits.
End FilterCore.

(** ** [value.py]: decimal values and the expression evaluator

    Texts are ASCII strings.  A [Decimal] is a finite value of Python's
    [decimal.Decimal]: sign, coefficient and exponent (the special values
    NaN and Infinity are not represented).  Arithmetic follows the default
    context: 28 significant digits, rounding half to even. *)

Module Value.

(** *** Text helpers *)

Fixpoint string_rev_append (s acc : string) : string :=
  match s with
  | EmptyString => acc
  | String c s' => string_rev_append s' (String c acc)
  end.
Definition string_rev (s : string) : string := string_rev_append s EmptyString.

Definition nlen (s : string) : nat := String.length s.

(** [s\[:n\]] and [s\[n:\]] *)
Fixpoint take (n : nat) (s : string) : string :=
  match n, s with
  | S n', String c s' => String c (take n' s')
  | _, _ => EmptyString
  end.
Fixpoint drop (n : nat) (s : string) : string :=
  match n, s with
  | S n', String c s' => drop n' s'
  | _, _ => s
  end.

Definition is_space (c : ascii) : bool :=
  let n := nat_of_ascii c in
  ((9 <=? n) && (n <=? 13) || (n =? 32) || ((28 <=? n) && (n <=? 31)))%nat.

Fixpoint lstrip (s : string) : string :=
  match s with
  | String c s' => if is_space c then lstrip s' else s
  | EmptyString => EmptyString
  end.

(** [str.strip()] *)
Definition strip (s : string) : string :=
  string_rev (lstrip (string_rev (lstrip s))).

(** [s.replace(a, b)] for single characters [a]; [b] is any text. *)
Fixpoint replace_char (a : ascii) (b : string) (s : string) : string :=
  match s with
  | EmptyString => EmptyString
  | String c s' =>
      if Ascii.eqb c a then b ++ replace_char a b s'
      else String c (replace_char a b s')
  end.

Definition startswith_char (c : ascii) (s : string) : bool :=
  match s with
  | String c' _ => Ascii.eqb c c'
  | EmptyString => false
  end.

Definition is_digit (c : ascii) : bool :=
  let n := nat_of_ascii c in ((48 <=? n) && (n <=? 57))%nat.

(** *** Regular expressions ([re]), by backtracking

    The constructs the module's five patterns use.  [rmatch r s] lists, in
    the order the backtracking matcher tries them, the ways [r] matches at
    the start of [s]: the named groups captured and the text left over. *)

Inductive regex : Type :=
| Lit (c : ascii)
| Digit
| AnyChar
| CharSet (cs : list ascii)
| Seq (r1 r2 : regex)
| Opt (r : regex)
| Star (r : regex)
| Plus (r : regex)
| Group (name : string) (r : regex).

Definition captures : Type := list (string * string).

Definition match_char (p : ascii -> bool) (s : string) : list (captures * string) :=
  match s with
  | String c s' => if p c then [([], s')] else []
  | EmptyString => []
  end.

Definition newline : ascii := ascii_of_nat 10.

Fixpoint rmatch (r : regex) (s : string) {struct r} : list (captures * string) :=
  match r with
  | Lit c => match_char (Ascii.eqb c) s
  | Digit => match_char is_digit s
  | AnyChar => match_char (fun c => negb (Ascii.eqb c newline)) s
  | CharSet cs => match_char (fun c => existsb (Ascii.eqb c) cs) s
  | Seq r1 r2 =>
      flat_map (fun '(g1, s1) =>
                  List.map (fun '(g2, s2) => ((g1 ++ g2)%list, s2)) (rmatch r2 s1))
               (rmatch r1 s)
  | Opt r' => (rmatch r' s ++ [([], s)])%list
  | Star r' =>
      (fix star (n : nat) (s : string) {struct n} : list (captures * string) :=
         match n with
         | O => [([], s)]
         | S n' =>
             (flat_map (fun '(g1, s1) =>
                          if (nlen s1 <? nlen s)%nat
                          then List.map (fun '(g2, s2) => ((g1 ++ g2)%list, s2)) (star n' s1)
                          else [])
                       (rmatch r' s)
                ++ [([], s)])%list
         end) (nlen s) s
  | Plus r' =>
      flat_map (fun '(g1, s1) =>
        List.map (fun '(g2, s2) => ((g1 ++ g2)%list, s2))
          ((fix star (n : nat) (s : string) {struct n} : list (captures * string) :=
             match n with
             | O => [([], s)]
             | S n' =>
                 (flat_map (fun '(g1, s1) =>
                              if (nlen s1 <? nlen s)%nat
                              then List.map (fun '(g2, s2) => ((g1 ++ g2)%list, s2)) (star n' s1)
                              else [])
                           (rmatch r' s)
                    ++ [([], s)])%list
             end) (nlen s1) s1))
        (rmatch r' s)
  | Group name r' =>
      List.map (fun '(g, s') => (((name, take (nlen s - nlen s') s) :: g), s')) (rmatch r' s)
  end.

(** A match object: [txt\[:m.start()\]], the groups, [txt\[m.end():\]]. *)
Record Match : Type := mkMatch {
  m_before : string;
  m_groups : captures;
  m_after : string }.

(** [m.start()] *)
Definition m_start (m : Match) : nat := nlen (m_before m).

(** [m.group(name)] *)
Fixpoint group_lookup (name : string) (g : captures) : string :=
  match g with
  | [] => EmptyString
  | (n, v) :: g' => if String.eqb n name then v else group_lookup name g'
  end.
Definition group (m : Match) (name : string) : string := group_lookup name (m_groups m).

(** [pattern.search(txt)]: the first position where the pattern matches,
    and there the matcher's first way to match. *)
Fixpoint search_from (r : regex) (before_rev : string) (s : string) : option Match :=
  match rmatch r s with
  | (g, rest) :: _ => Some (mkMatch (string_rev before_rev) g rest)
  | [] =>
      match s with
      | EmptyString => None
      | String c s' => search_from r (String c before_rev) s'
      end
  end.
Definition search (r : regex) (txt : string) : option Match := search_from r EmptyString txt.

Definition ch (s : string) : ascii :=
  match s with String c _ => c | EmptyString => zero end.

(** The pattern of an operand, in a group of the given name: an optional
    minus sign, one or more digits and, optionally, a dot or comma followed
    by any number of digits. *)
Definition ARG (name : string) : regex :=
  Group name (Seq (Opt (Lit (ch "-")))
             (Seq (Plus Digit)
                  (Opt (Seq (CharSet [ch "."; ch ","]) (Star Digit))))).
Definition ARG1 : regex := ARG "arg1".
Definition ARG2 : regex := ARG "arg2".
Definition ADD_RE : regex := Seq ARG1 (Seq (Lit (ch "+")) ARG2).
Definition SUB_RE : regex := Seq ARG1 (Seq (Lit (ch "-")) ARG2).
Definition MUL_RE : regex := Seq ARG1 (Seq (Lit (ch "*")) ARG2).
Definition DIV_RE : regex := Seq ARG1 (Seq (Lit (ch "/")) ARG2).
Definition PAR_RE : regex := Seq (Lit (ch "(")) (Seq (Group "arg" (Plus AnyChar)) (Lit (ch ")"))).

(** *** [decimal.Decimal] *)

Record Decimal : Type := mkDecimal {
  d_neg : bool;   (* the sign: [true] for negative *)
  d_int : N;      (* the coefficient *)
  d_exp : Z }.    (* the exponent *)

(** The context precision. *)
Definition prec28 : nat := 28.

Definition digit_char (n : N) : ascii := ascii_of_N (48 + n).

Fixpoint N_digits (fuel : nat) (n : N) (acc : string) : string :=
  match fuel with
  | O => acc
  | S fuel' =>
      let acc' := String (digit_char (n mod 10)) acc in
      if (n <? 10)%N then acc' else N_digits fuel' (n / 10)%N acc'
  end.

(** [str(n)] for a natural number *)
Definition N_to_string (n : N) : string := N_digits (S (N.to_nat (N.log2 n))) n EmptyString.

Definition ndigits (n : N) : nat := nlen (N_to_string n).

(** ["%+d" % z] *)
Definition Z_to_signed_string (z : Z) : string :=
  (if z <? 0 then "-" else "+") ++ N_to_string (Z.to_N (Z.abs z)).

Fixpoint zeros (n : nat) : string :=
  match n with O => EmptyString | S n' => String (ch "0") (zeros n') end.

(** The digits at the start of a text, as a number, their count, and the rest. *)
Fixpoint span_digits (s : string) (acc : N) (count : nat) : N * nat * string :=
  match s with
  | String c s' =>
      if is_digit c then span_digits s' (acc * 10 + (N_of_ascii c - 48))%N (S count)
      else (acc, count, s)
  | EmptyString => (acc, count, s)
  end.

Definition read_sign (s : string) : bool * string :=
  match s with
  | String c s' =>
      if Ascii.eqb c (ch "-") then (true, s')
      else if Ascii.eqb c (ch "+") then (false, s')
      else (false, s)
  | EmptyString => (false, s)
  end.

(** [Decimal(text)] for the numeric syntax: sign, digits with an optional
    fraction, optional exponent.  Any other text raises
    [InvalidOperation] (the spellings of the special values excepted, which
    are outside what [Decimal] here represents). *)
Definition Decimal_of_string (text : string) : result Decimal :=
  let s := replace_char (ch "_") EmptyString (strip text) in
  let '(neg, s0) := read_sign s in
  let '(ipart, icount, s1) := span_digits s0 0%N O in
  let '(coeff, fcount, s2, ok) :=
    match s1 with
    | String c s1' =>
        if Ascii.eqb c (ch ".")
        then let '(c2, n2, r2) := span_digits s1' ipart icount in
             (c2, (n2 - icount)%nat, r2, negb (n2 =? 0)%nat)
        else (ipart, O, s1, negb (icount =? 0)%nat)
    | EmptyString => (ipart, O, s1, negb (icount =? 0)%nat)
    end in
  let '(e, s3, ok2) :=
    match s2 with
    | String c s2' =>
        if Ascii.eqb c (ch "E") || Ascii.eqb c (ch "e")
        then let '(eneg, s2'') := read_sign s2' in
             let '(ev, ecount, r) := span_digits s2'' 0%N O in
             ((if eneg then - Z.of_N ev else Z.of_N ev), r, negb (ecount =? 0)%nat)
        else (0, s2, true)
    | EmptyString => (0, s2, true)
    end in
  match s3 with
  | EmptyString =>
      if ok && ok2 then Ok (mkDecimal neg coeff (e - Z.of_nat fcount))
      else Raise InvalidOperation
  | String _ _ => Raise InvalidOperation
  end.

Definition pow10 (k : Z) : N := (10 ^ Z.to_N k)%N.

(** [_rescale(exp, ROUND_HALF_EVEN)] *)
Definition rescale (d : Decimal) (e : Z) : Decimal :=
  if e <=? d_exp d
  then mkDecimal (d_neg d) (d_int d * pow10 (d_exp d - e))%N e
  else
    let p := pow10 (e - d_exp d) in
    let q := (d_int d / p)%N in
    let r := (d_int d mod p)%N in
    let up := ((p <? 2 * r) || ((2 * r =? p) && N.odd q))%N in
    mkDecimal (d_neg d) (if up then q + 1 else q)%N e.

(** [_fix(context)]: round the coefficient to the context precision. *)
Definition fix_ (d : Decimal) : Decimal :=
  let n := ndigits (d_int d) in
  if (n <=? prec28)%nat then d
  else
    let d1 := rescale d (d_exp d + Z.of_nat (n - prec28)) in
    if (prec28 <? ndigits (d_int d1))%nat
    then mkDecimal (d_neg d1) (d_int d1 / 10)%N (d_exp d1 + 1)
    else d1.

Definition signed_coeff (d : Decimal) : Z :=
  if d_neg d then - Z.of_N (d_int d) else Z.of_N (d_int d).

(** [Decimal.__add__] *)
Definition dec_add (a b : Decimal) : Decimal :=
  let e := Z.min (d_exp a) (d_exp b) in
  let s := signed_coeff a * Z.of_N (pow10 (d_exp a - e))
           + signed_coeff b * Z.of_N (pow10 (d_exp b - e)) in
  fix_ (if s =? 0 then mkDecimal (d_neg a && d_neg b) 0%N e
        else mkDecimal (s <? 0) (Z.to_N (Z.abs s)) e).

(** [copy_negate] *)
Definition dec_neg (a : Decimal) : Decimal := mkDecimal (negb (d_neg a)) (d_int a) (d_exp a).

(** [Decimal.__sub__] *)
Definition dec_sub (a b : Decimal) : Decimal := dec_add a (dec_neg b).

(** [Decimal.__mul__] *)
Definition dec_mul (a b : Decimal) : Decimal :=
  fix_ (mkDecimal (xorb (d_neg a) (d_neg b)) (d_int a * d_int b)%N (d_exp a + d_exp b)).

(** [v > 0] *)
Definition dec_pos (v : Decimal) : bool := negb (d_neg v) && negb (d_int v =? 0)%N.

(** [d.quantize(q)]: rescale to the exponent of [q]; too many digits raise. *)
Definition quantize (d q : Decimal) : result Decimal :=
  let r := rescale d (d_exp q) in
  if (prec28 <? ndigits (d_int r))%nat then Raise InvalidOperation else Ok r.

(** [str(d)] *)
Definition Decimal_str (d : Decimal) : string :=
  let digits := N_to_string (d_int d) in
  let len := Z.of_nat (nlen digits) in
  let leftdigits := d_exp d + len in
  let dotplace := if (d_exp d <=? 0) && (-6 <? leftdigits) then leftdigits else 1 in
  let intpart :=
    if dotplace <=? 0 then "0"
    else if len <=? dotplace then digits ++ zeros (Z.to_nat (dotplace - len))
    else take (Z.to_nat dotplace) digits in
  let fracpart :=
    if dotplace <=? 0 then "." ++ zeros (Z.to_nat (- dotplace)) ++ digits
    else if len <=? dotplace then ""
    else "." ++ drop (Z.to_nat dotplace) digits in
  let e := if leftdigits =? dotplace then ""
           else "E" ++ Z_to_signed_string (leftdigits - dotplace) in
  (if d_neg d then "-" else "") ++ intpart ++ fracpart ++ e.

(** [Decimal(0)] and [Decimal(10) ** -k] *)
Definition Decimal_0 : Decimal := mkDecimal false 0%N 0.
Definition PRECISION_SAMPLES : list Decimal :=
  [mkDecimal false 1%N 0; mkDecimal false 1%N (-1); mkDecimal false 1%N (-2);
   mkDecimal false 1%N (-3); mkDecimal false 1%N (-4)].

(** *** The [operator] module

    The attributes the evaluator asks for.  Python 3's [operator] has
    [add], [sub] and [mul]; it has no [div]. *)
Definition operator_getattr (name : string) : result (Decimal -> Decimal -> Decimal) :=
  if String.eqb name "add" then Ok dec_add
  else if String.eqb name "sub" then Ok dec_sub
  else if String.eqb name "mul" then Ok dec_mul
  else Raise (AttributeError name).

(** *** [eval_decimal] *)

Definition norm (n : string) : string := replace_char (ch ",") "." n.

Definition evalpair (a b : string) (op : Decimal -> Decimal -> Decimal) : result string :=
  let a := norm a in
  let b := norm b in
  let! da := Decimal_of_string a in
  let! db := Decimal_of_string b in
  let v := op da db in
  let sign := if startswith_char (ch "-") a && dec_pos v then "+" else "" in
  Ok (sign ++ Decimal_str v).

(** [m1 and not m2, or m1 and m2 and m1.start() < m2.start()]: the chosen
    match of the first pattern. *)
Definition earlier (m1 m2 : option Match) : option Match :=
  match m1, m2 with
  | Some a, None => Some a
  | Some a, Some b => if (m_start a <? m_start b)%nat then Some a else None
  | None, _ => None
  end.

(** Replace the match by the evaluated pair. *)
Definition reduce (m : Match) (opname : string) : result string :=
  let! op := operator_getattr opname in
  let! v := evalpair (group m "arg1") (group m "arg2") op in
  Ok (m_before m ++ v ++ m_after m).

(** [eval_decimal(txt, prec)].  Each turn of the [while] loop and each
    recursive call for a parenthesis uses one unit of [fuel]. *)
Fixpoint eval_decimal (fuel : nat) (txt : string) (prec : Z) : result Decimal :=
  match fuel with
  | O => Raise OutOfFuel
  | S fuel' =>
      let txt := replace_char (ch " ") "" (strip txt) in
      if (nlen txt =? 0)%nat then Ok Decimal_0
      else
        match search PAR_RE txt with
        | Some m =>
            let! v := eval_decimal fuel' (group m "arg") (-1) in
            eval_decimal fuel' (m_before m ++ Decimal_str v ++ m_after m) prec
        | None =>
            let mulMatch := search MUL_RE txt in
            let divMatch := search DIV_RE txt in
            match earlier mulMatch divMatch, earlier divMatch mulMatch with
            | Some m, _ => let! t := reduce m "mul" in eval_decimal fuel' t prec
            | None, Some m => let! t := reduce m "div" in eval_decimal fuel' t prec
            | None, None =>
                let addMatch := search ADD_RE txt in
                let subMatch := search SUB_RE txt in
                match earlier addMatch subMatch, earlier subMatch addMatch with
                | Some m, _ => let! t := reduce m "add" in eval_decimal fuel' t prec
                | None, Some m => let! t := reduce m "sub" in eval_decimal fuel' t prec
                | None, None =>
                    let! d := Decimal_of_string (norm txt) in
                    match (if 0 <=? prec then nth_error PRECISION_SAMPLES (Z.to_nat prec)
                           else None) with
                    | Some q => quantize d q
                    | None => Ok d
                    end
                end
            end
        end
  end.

End Value.


(** ** [dateutils.py]: calendar dates, ranges and interval steps

    A [date] is a [datetime.date] of the proleptic Gregorian calendar.  The
    model has no largest year. *)

Module Dateutils.

Record date : Type := mkDate { year : Z; month : Z; day : Z }.

Definition is_leap (y : Z) : bool :=
  (y mod 4 =? 0) && (negb (y mod 100 =? 0) || (y mod 400 =? 0)).

(** [calendar._monthlen] *)
Definition days_in_month (y m : Z) : Z :=
  if m =? 2 then (if is_leap y then 29 else 28)
  else if (m =? 4) || (m =? 6) || (m =? 9) || (m =? 11) then 30
  else 31.

(** A day of the calendar, and one in a year that [datetime] has. *)
Definition calendar_day (d : date) : Prop :=
  1 <= month d <= 12 /\ 1 <= day d <= days_in_month (year d) (month d).
Definition valid_date (d : date) : Prop := 1 <= year d /\ calendar_day d.

(** [datetime.MINYEAR] and [datetime.MAXYEAR]: a [datetime.date] has a
    year from the one to the other. *)
Definition MINYEAR : Z := 1.
Definition MAXYEAR : Z := 9999.
Definition year_in_range (y : Z) : bool := (MINYEAR <=? y) && (y <=? MAXYEAR).

(** [datetime.date(y, m, d)] for a day [d] of the month [m]: a year that is
    out of range raises [ValueError]. *)
Definition date_new (y m d : Z) : result date :=
  if year_in_range y then Ok (mkDate y m d) else Raise ValueError.

(** A date of a month before December of [MAXYEAR], the one month whose
    last week has days in a year that is out of range. *)
Definition before_last_month (d : date) : Prop := year d < MAXYEAR \/ month d < 12.

(** Comparison of dates is that of [(year, month, day)]. *)
Definition date_compare (a b : date) : comparison :=
  match year a ?= year b with
  | Eq => match month a ?= month b with
          | Eq => day a ?= day b
          | c => c
          end
  | c => c
  end.
Definition date_ltb (a b : date) : bool :=
  match date_compare a b with Lt => true | _ => false end.
Definition date_leb (a b : date) : bool :=
  match date_compare a b with Gt => false | _ => true end.
Definition date_eqb (a b : date) : bool :=
  match date_compare a b with Eq => true | _ => false end.

(** The day after and the day before a day of the calendar: they are
    [d + timedelta(days=1)] and [d - timedelta(days=1)] where these are
    dates, which is up to the last day of [MAXYEAR] and down to the first
    day of [MINYEAR]. *)
Definition next_day (d : date) : date :=
  if day d <? days_in_month (year d) (month d) then mkDate (year d) (month d) (day d + 1)
  else if month d <? 12 then mkDate (year d) (month d + 1) 1
  else mkDate (year d + 1) 1 1.
Definition prev_day (d : date) : date :=
  if 1 <? day d then mkDate (year d) (month d) (day d - 1)
  else if 1 <? month d
       then mkDate (year d) (month d - 1) (days_in_month (year d) (month d - 1))
  else mkDate (year d - 1) 12 31.

(** The day [n] days after and the day [n] days before *)
Definition add_days (n : nat) (d : date) : date := Nat.iter n next_day d.
Definition sub_days (n : nat) (d : date) : date := Nat.iter n prev_day d.

(** [d + timedelta(days=n)]: a sum after the last day of [MAXYEAR] raises
    [OverflowError]. *)
Definition plus_days (n : nat) (d : date) : result date :=
  if year (add_days n d) <=? MAXYEAR then Ok (add_days n d) else Raise OverflowError.

(** [d.replace(day=1)] and [d.replace(month=1, day=1)] *)
Definition replace_day (d : date) (dd : Z) : date := mkDate (year d) (month d) dd.
Definition replace_month_day (d : date) (m dd : Z) : date := mkDate (year d) m dd.

(** [date.toordinal], [date.weekday] (Monday is 0) *)
Definition days_before_year (y : Z) : Z :=
  (y - 1) * 365 + (y - 1) / 4 - (y - 1) / 100 + (y - 1) / 400.
Definition days_before_month (y m : Z) : Z :=
  fold_right Z.add 0 (List.map (fun i => days_in_month y (1 + Z.of_nat i)) (seq 0 (Z.to_nat (m - 1)))).
Definition toordinal (d : date) : Z :=
  days_before_year (year d) + days_before_month (year d) (month d) + day d.
Definition weekday (d : date) : Z := (toordinal d + 6) mod 7.

(** [date.isocalendar()\[1\]], the ISO week number *)
Definition isoweek1monday (y : Z) : Z :=
  let firstday := toordinal (mkDate y 1 1) in
  let firstweekday := (firstday + 6) mod 7 in
  let week1monday := firstday - firstweekday in
  if 3 <? firstweekday then week1monday + 7 else week1monday.
Definition isoweek (d : date) : Z :=
  let today := toordinal d in
  let week := (today - isoweek1monday (year d)) / 7 in
  if week <? 0 then (today - isoweek1monday (year d - 1)) / 7 + 1
  else if (52 <=? week) && (isoweek1monday (year d + 1) <=? today) then 1
  else week + 1.

(** [range(a, a + n)] *)
Definition zrange (a : Z) (n : nat) : list Z :=
  List.map (fun i => a + Z.of_nat i) (seq 0 n).

(** [Calendar().itermonthdates(year, month)]: the days of the month,
    preceded and followed by the days that complete its first and last
    week (weeks start on Monday).  The iterator makes a date of each day
    when it comes to it, which raises [ValueError] for a day in a year that
    is out of range: the days after 31 December of [MAXYEAR]. *)
Definition itermonthdates (y m : Z) : list (result date) :=
  let day1 := weekday (mkDate y m 1) in
  let ndays := days_in_month y m in
  let days_before := day1 mod 7 in
  let days_after := (0 - day1 - ndays) mod 7 in
  let py := if m =? 1 then y - 1 else y in
  let pm := if m =? 1 then 12 else m - 1 in
  let ny := if m =? 12 then y + 1 else y in
  let nm := if m =? 12 then 1 else m + 1 in
  let pend := days_in_month py pm + 1 in
  (List.map (date_new py pm) (zrange (pend - days_before) (Z.to_nat days_before))
   ++ List.map (date_new y m) (zrange 1 (Z.to_nat ndays))
   ++ List.map (date_new ny nm) (zrange 1 (Z.to_nat days_after)))%list.

(** [for d in l: if p(d): break] followed by [return d]: the first element
    satisfying [p], or else the last element.  The iteration stops at the
    [break], before the days that follow are made. *)
Fixpoint loop_break (p : date -> bool) (l : list (result date)) (d : option date)
  : result (option date) :=
  match l with
  | [] => Ok d
  | Raise e :: _ => Raise e
  | Ok x :: l' => if p x then Ok (Some x) else loop_break p l' (Some x)
  end.

(** [for d in l: if p(d): md = d] followed by [return md]: the iteration
    goes to the end. *)
Fixpoint loop_last (p : date -> bool) (l : list (result date)) (md : option date)
  : result (option date) :=
  match l with
  | [] => Ok md
  | Raise e :: _ => Raise e
  | Ok x :: l' => loop_last p l' (if p x then Some x else md)
  end.

(** In the four functions below a result [None] is Python's [None] (for
    [startofweek] and [startofmonth]: an unbound [d]). *)
Definition startofweek (dt : date) : result (option date) :=
  loop_break (fun d => isoweek d =? isoweek dt) (itermonthdates (year dt) (month dt)) None.
Definition endofweek (dt : date) : result (option date) :=
  loop_last (fun d => isoweek d =? isoweek dt) (itermonthdates (year dt) (month dt)) None.
Definition startofmonth (dt : date) : result (option date) :=
  loop_break (fun d => month d =? month dt) (itermonthdates (year dt) (month dt)) None.
Definition endofmonth (dt : date) : result (option date) :=
  loop_last (fun d => month d =? month dt) (itermonthdates (year dt) (month dt)) None.
Definition startofyear (dt : date) : date := mkDate (year dt) 1 1.
Definition endofyear (dt : date) : date := mkDate (year dt) 12 31.

Inductive Interval : Type :=
| INTERVAL_DAILY | INTERVAL_WEEKLY | INTERVAL_MONTHLY | INTERVAL_ANUALY.

(** [rangeDateFromTillByInterval] *)
Definition rangeDateFromTillByInterval (fromDate tillDate : date) (interval : Interval)
  : result (option date * option date) :=
  match interval with
  | INTERVAL_DAILY => Ok (Some fromDate, Some tillDate)
  | INTERVAL_WEEKLY =>
      let! f := startofweek fromDate in
      let! t := endofweek tillDate in
      Ok (f, t)
  | INTERVAL_MONTHLY =>
      let! f := startofmonth fromDate in
      let! t := endofmonth tillDate in
      Ok (f, t)
  | INTERVAL_ANUALY => Ok (Some (startofyear fromDate), Some (endofyear tillDate))
  end.

(** The [inc] chosen by [getIntervalSteps].  The loop calls it on a day
    [d] before the date [tillDate]: the day after [d] is a date then, and
    the daily [inc] is written without the test of [plus_days]. *)
Definition inc (interval : Interval) (d : date) : result date :=
  match interval with
  | INTERVAL_DAILY => Ok (add_days 1 d)
  | INTERVAL_WEEKLY => plus_days 7 d
  | INTERVAL_MONTHLY => rmap (fun d' => replace_day d' 1) (plus_days 32 d)
  | INTERVAL_ANUALY => rmap (fun d' => replace_month_day d' 1 1) (plus_days 366 d)
  end.

(** The [while d < tillDate: yield d; d = inc(d)] loop, collected. *)
Fixpoint steps_loop (fuel : nat) (interval : Interval) (d tillDate : date) : result (list date) :=
  if date_ltb d tillDate then
    match fuel with
    | O => Raise OutOfFuel
    | S fuel' =>
        let! d' := inc interval d in
        rmap (cons d) (steps_loop fuel' interval d' tillDate)
    end
  else Ok [].

(** [getIntervalSteps], as the list of the dates it yields.  Comparing
    with [None] raises [TypeError]. *)
Definition getIntervalSteps (fuel : nat) (fromDate tillDate : date) (interval : Interval)
  : result (list date) :=
  let! range := rangeDateFromTillByInterval fromDate tillDate interval in
  match range with
  | (Some f, Some t) => steps_loop fuel interval f t
  | _ => Raise TypeError
  end.

(** The first and the last day of the month of a date; two dates in the
    same month; a date in the month that follows the month of another. *)
Definition first_of_month (d : date) : date := mkDate (year d) (month d) 1.
Definition last_of_month (d : date) : date :=
  mkDate (year d) (month d) (days_in_month (year d) (month d)).
Definition same_month (a b : date) : bool := (year a =? year b) && (month a =? month b).
Definition next_month (a b : date) : Prop :=
  (month a < 12 /\ year b = year a /\ month b = month a + 1) \/
  (month a = 12 /\ year b = year a + 1 /\ month b = 1).

(** The first day of the month after that of a date. *)
Definition first_of_next (d : date) : date :=
  if month d <? 12 then mkDate (year d) (month d + 1) 1 else mkDate (year d + 1) 1 1.

End Dateutils.


(** ** [core.py]: items, transactions, accounts and the database

    Objects are identified by references.  The store gives the current
    fields of every object; equality of objects ([==], [in], [remove] on
    lists of them) is identity, that is equality of references.

    The value of an item is a [Decimal] with two fractional digits
    ([setValue] passes it through [to_decimal]); it is represented by its
    number of hundredths, and so are the sums of item values.  The values
    are numbers: [to_decimal] lets the text ["NaN"] through, and an item
    with that value is not among the items here. *)

Module Ledger.
Import Dateutils.

Definition ref : Type := nat.

Inductive AccountType : Type :=
| TYPE_UNKNOWN | TYPE_PROFIT | TYPE_EXPENSE | TYPE_ASSET | TYPE_LIABILITY.

Definition AccountType_eqb (a b : AccountType) : bool :=
  match a, b with
  | TYPE_UNKNOWN, TYPE_UNKNOWN | TYPE_PROFIT, TYPE_PROFIT | TYPE_EXPENSE, TYPE_EXPENSE
  | TYPE_ASSET, TYPE_ASSET | TYPE_LIABILITY, TYPE_LIABILITY => true
  | _, _ => false
  end.

(** [Account.ALL_TYPES] *)
Definition ALL_TYPES (t : AccountType) : string :=
  match t with
  | TYPE_UNKNOWN => "Unknown"
  | TYPE_PROFIT => "Profit"
  | TYPE_EXPENSE => "Expense"
  | TYPE_ASSET => "Asset"
  | TYPE_LIABILITY => "Liability"
  end.

Record Item : Type := mkItem {
  i_descr : string;
  i_value : Z;
  i_confirmed : bool;
  i_account : option ref;
  i_transaction : option ref }.

Record Transaction : Type := mkTransaction {
  t_db : option ref;
  t_date : option date;
  t_descr : option string;
  t_items : list ref }.

Record Account : Type := mkAccount {
  a_name : string;
  a_type : AccountType;
  a_db : option ref;
  a_parentAccount : option ref;
  a_childAccounts : list ref }.

Record Database : Type := mkDatabase {
  db_childAccounts : list ref;
  db_transactions : list ref;
  db_parsing : bool }.

Record Store : Type := mkStore {
  items : ref -> Item;
  transactions : ref -> Transaction;
  accounts : ref -> Account;
  databases : ref -> Database }.

Definition upd {A : Type} (f : ref -> A) (r : ref) (v : A) : ref -> A :=
  fun r' => if Nat.eqb r' r then v else f r'.

Definition oref_eqb (a b : option ref) : bool :=
  match a, b with
  | Some x, Some y => Nat.eqb x y
  | None, None => true
  | _, _ => false
  end.

(** [x in l] and [l.remove(x)] on lists of objects *)
Definition mem (x : ref) (l : list ref) : bool := existsb (Nat.eqb x) l.
Fixpoint remove (x : ref) (l : list ref) : list ref :=
  match l with
  | [] => []
  | y :: l' => if Nat.eqb x y then l' else y :: remove x l'
  end.

(** Field assignments *)
Definition set_i_account (st : Store) (i : ref) (a : option ref) : Store :=
  let it := items st i in
  mkStore (upd (items st) i (mkItem (i_descr it) (i_value it) (i_confirmed it) a (i_transaction it)))
          (transactions st) (accounts st) (databases st).
Definition set_i_transaction (st : Store) (i : ref) (t : option ref) : Store :=
  let it := items st i in
  mkStore (upd (items st) i (mkItem (i_descr it) (i_value it) (i_confirmed it) (i_account it) t))
          (transactions st) (accounts st) (databases st).
Definition set_t_items (st : Store) (t : ref) (l : list ref) : Store :=
  let tr := transactions st t in
  mkStore (items st) (upd (transactions st) t (mkTransaction (t_db tr) (t_date tr) (t_descr tr) l))
          (accounts st) (databases st).
Definition set_t_db (st : Store) (t : ref) (d : option ref) : Store :=
  let tr := transactions st t in
  mkStore (items st) (upd (transactions st) t (mkTransaction d (t_date tr) (t_descr tr) (t_items tr)))
          (accounts st) (databases st).
Definition set_t_date (st : Store) (t : ref) (d : option date) : Store :=
  let tr := transactions st t in
  mkStore (items st) (upd (transactions st) t (mkTransaction (t_db tr) d (t_descr tr) (t_items tr)))
          (accounts st) (databases st).
Definition set_a_name (st : Store) (a : ref) (n : string) : Store :=
  let ac := accounts st a in
  mkStore (items st) (transactions st)
          (upd (accounts st) a (mkAccount n (a_type ac) (a_db ac) (a_parentAccount ac) (a_childAccounts ac)))
          (databases st).
Definition set_db_transactions (st : Store) (d : ref) (l : list ref) : Store :=
  let db := databases st d in
  mkStore (items st) (transactions st) (accounts st)
          (upd (databases st) d (mkDatabase (db_childAccounts db) l (db_parsing db))).
Definition set_db_parsing (st : Store) (d : ref) (b : bool) : Store :=
  let db := databases st d in
  mkStore (items st) (transactions st) (accounts st)
          (upd (databases st) d (mkDatabase (db_childAccounts db) (db_transactions db) b)).

(** *** Item and its owners

    [x += y] calls [x.__iadd__(y)] and stores the result, which is [x]
    itself, back into [x]; where [x] is a field ([self._account -= self])
    the field is assigned again after the call.  Every call uses one unit
    of [fuel]. *)

(** Truth value of a transaction: it has [__len__], so it is false when it
    has no items. *)
Definition Transaction_bool (st : Store) (t : ref) : bool :=
  match t_items (transactions st t) with [] => false | _ => true end.

Fixpoint Item_isub_Account (fuel : nat) (st : Store) (self other : ref) : result Store :=
  match fuel with
  | O => Raise OutOfFuel
  | S n =>
      if oref_eqb (Some other) (i_account (items st self)) then
        Account_isub_Item n (set_i_account st self None) other self
      else Ok st
  end
with Account_isub_Item (fuel : nat) (st : Store) (self other : ref) : result Store :=
  match fuel with
  | O => Raise OutOfFuel
  | S n => Item_isub_Account n st other self
  end.

Fixpoint Item_iadd_Account (fuel : nat) (st : Store) (self other : ref) : result Store :=
  match fuel with
  | O => Raise OutOfFuel
  | S n =>
      if negb (oref_eqb (Some other) (i_account (items st self))) then
        let! st1 :=
          match i_account (items st self) with
          | Some old =>
              let! st' := Account_isub_Item n st old self in
              Ok (set_i_account st' self (Some old))
          | None => Ok st
          end in
        let st2 := set_i_account st1 self (Some other) in
        let! st3 := Account_iadd_Item n st2 other self in
        Ok (set_i_account st3 self (Some other))
      else Ok st
  end
with Account_iadd_Item (fuel : nat) (st : Store) (self other : ref) : result Store :=
  match fuel with
  | O => Raise OutOfFuel
  | S n => Item_iadd_Account n st other self
  end.

Fixpoint Item_isub_Transaction (fuel : nat) (st : Store) (self other : ref) : result Store :=
  match fuel with
  | O => Raise OutOfFuel
  | S n =>
      if oref_eqb (Some other) (i_transaction (items st self)) then
        Transaction_isub_Item n (set_i_transaction st self None) other self
      else Ok st
  end
with Transaction_isub_Item (fuel : nat) (st : Store) (self other : ref) : result Store :=
  match fuel with
  | O => Raise OutOfFuel
  | S n =>
      if mem other (t_items (transactions st self)) then
        Item_isub_Transaction n
          (set_t_items st self (remove other (t_items (transactions st self)))) other self
      else Ok st
  end.

Fixpoint Item_iadd_Transaction (fuel : nat) (st : Store) (self other : ref) : result Store :=
  match fuel with
  | O => Raise OutOfFuel
  | S n =>
      if negb (oref_eqb (Some other) (i_transaction (items st self))) then
        let! st1 :=
          match i_transaction (items st self) with
          | Some old =>
              if Transaction_bool st old then
                let! st' := Transaction_isub_Item n st old self in
                Ok (set_i_transaction st' self (Some old))
              else Ok st
          | None => Ok st
          end in
        let st2 := set_i_transaction st1 self (Some other) in
        let! st3 := Transaction_iadd_Item n st2 other self in
        Ok (set_i_transaction st3 self (Some other))
      else Ok st
  end
with Transaction_iadd_Item (fuel : nat) (st : Store) (self other : ref) : result Store :=
  match fuel with
  | O => Raise OutOfFuel
  | S n =>
      if negb (mem other (t_items (transactions st self))) then
        Item_iadd_Transaction n
          (set_t_items st self (t_items (transactions st self) ++ [other])) other self
      else Ok st
  end.

(** *** Transactions and the database *)

Definition date_key_ltb (a b : option date) : bool :=
  match a, b with
  | Some x, Some y => date_ltb x y
  | _, _ => false
  end.

(** [list.sort(key=lambda t: t.date)]: a stable sort, by insertion. *)
Fixpoint insert_by_date (st : Store) (t : ref) (l : list ref) : list ref :=
  match l with
  | [] => [t]
  | y :: l' =>
      if date_key_ltb (t_date (transactions st y)) (t_date (transactions st t))
      then y :: insert_by_date st t l'
      else t :: l
  end.
Definition sort_by_date (st : Store) (l : list ref) : list ref :=
  fold_right (insert_by_date st) [] l.

Definition has_no_date (st : Store) (t : ref) : bool :=
  match t_date (transactions st t) with None => true | Some _ => false end.

(** [Database.sortTransactions].  Sorting two or more keys compares every
    one of them, and comparing [None] raises [TypeError]. *)
Definition sortTransactions (st : Store) (self : ref) : result Store :=
  let l := db_transactions (databases st self) in
  if (2 <=? List.length l)%nat && existsb (has_no_date st) l then Raise TypeError
  else Ok (set_db_transactions st self (sort_by_date st l)).

Fixpoint Transaction_isub_Database (fuel : nat) (st : Store) (self other : ref) : result Store :=
  match fuel with
  | O => Raise OutOfFuel
  | S n =>
      if oref_eqb (Some other) (t_db (transactions st self)) then
        Database_isub_Transaction n (set_t_db st self None) other self
      else Ok st
  end
with Database_isub_Transaction (fuel : nat) (st : Store) (self other : ref) : result Store :=
  match fuel with
  | O => Raise OutOfFuel
  | S n =>
      if mem other (db_transactions (databases st self)) then
        Transaction_isub_Database n
          (set_db_transactions st self (remove other (db_transactions (databases st self))))
          other self
      else Ok st
  end.

Fixpoint Transaction_iadd_Database (fuel : nat) (st : Store) (self other : ref) : result Store :=
  match fuel with
  | O => Raise OutOfFuel
  | S n =>
      if negb (oref_eqb (Some other) (t_db (transactions st self))) then
        let! st1 :=
          match t_db (transactions st self) with
          | Some old =>
              let! st' := Database_isub_Transaction n st old self in
              Ok (set_t_db st' self (Some old))
          | None => Ok st
          end in
        let st2 := set_t_db st1 self (Some other) in
        let! st3 := Database_iadd_Transaction n st2 other self in
        Ok (set_t_db st3 self (Some other))
      else Ok st
  end
with Database_iadd_Transaction (fuel : nat) (st : Store) (self other : ref) : result Store :=
  match fuel with
  | O => Raise OutOfFuel
  | S n =>
      if negb (mem other (db_transactions (databases st self))) then
        let st1 := set_db_transactions st self (db_transactions (databases st self) ++ [other]) in
        let! st2 := Transaction_iadd_Database n st1 other self in
        if negb (db_parsing (databases st2 self)) then sortTransactions st2 self
        else Ok st2
      else Ok st
  end.

(** [Transaction.setDate] (the result [True] is left out) *)
Definition setDate (st : Store) (self : ref) (d : option date) : result Store :=
  let st1 := set_t_date st self d in
  match t_db (transactions st1 self) with
  | Some db => sortTransactions st1 db
  | None => Ok st1
  end.

(** The transaction loop of [Transaction.parseFromXml] inside
    [Database.parseFromXml]: [_parsing] is set, every parsed transaction
    is added to the database, [_parsing] is cleared. *)
Fixpoint add_all (fuel : nat) (st : Store) (db : ref) (ts : list ref) : result Store :=
  match ts with
  | [] => Ok st
  | t :: ts' => let! st' := Database_iadd_Transaction fuel st db t in add_all fuel st' db ts'
  end.
Definition parse_transactions (fuel : nat) (st : Store) (db : ref) (ts : list ref) : result Store :=
  let! st' := add_all fuel (set_db_parsing st db true) db ts in
  Ok (set_db_parsing st' db false).

(** The order of the transactions of a database: every transaction has a
    date, and the dates ascend. *)
Definition trn_le (st : Store) (a b : ref) : Prop :=
  match t_date (transactions st a), t_date (transactions st b) with
  | Some x, Some y => date_leb x y = true
  | _, _ => False
  end.
Definition dated (st : Store) (t : ref) : Prop := t_date (transactions st t) <> None.
Definition sorted_by_date (st : Store) (db : ref) : Prop :=
  StronglySorted (trn_le st) (db_transactions (databases st db)).

(** Two stores in which every transaction has the same date. *)
Definition same_dates (st st' : Store) : Prop :=
  forall x, t_date (transactions st' x) = t_date (transactions st x).

(** Two stores that differ, among the transactions, at most in the [_db]
    field of [t]. *)
Definition only_db_of (t : ref) (st st' : Store) : Prop :=
  same_dates st st' /\
  (forall x, t_items (transactions st' x) = t_items (transactions st x)) /\
  (forall x, x <> t -> transactions st' x = transactions st x).

(** The two sides of the link between items and transactions agree: an
    item is in the list of a transaction exactly if that transaction is the
    one it refers to, and no list has an item twice. *)
Definition links_consistent (st : Store) : Prop :=
  (forall i t, In i (t_items (transactions st t)) <-> i_transaction (items st i) = Some t) /\
  (forall t, List.NoDup (t_items (transactions st t))).

(** The items of an account.  An account keeps no list of them: they are
    the items that refer to it. *)
Definition Account_has_item (st : Store) (a i : ref) : Prop :=
  i_account (items st i) = Some a.

(** The accounts below an account form a tree of at most the given depth
    (so no account is below itself). *)
Inductive depth_within (st : Store) : nat -> ref -> Prop :=
| depth_within_S (n : nat) (a : ref) :
    (forall c, In c (a_childAccounts (accounts st a)) -> depth_within st n c) ->
    depth_within st (S n) a.

(** The chain of parents above an account ends within the given number of
    steps. *)
Inductive parents_within (st : Store) : nat -> ref -> Prop :=
| parents_within_top (n : nat) (a : ref) :
    a_parentAccount (accounts st a) = None -> parents_within st (S n) a
| parents_within_S (n : nat) (a p : ref) :
    a_parentAccount (accounts st a) = Some p -> parents_within st n p ->
    parents_within st (S n) a.

(** [descends st a x]: the account [x] is [a] or an account below it. *)
Inductive descends (st : Store) : ref -> ref -> Prop :=
| descends_self (a : ref) : descends st a a
| descends_below (a c x : ref) :
    In c (a_childAccounts (accounts st a)) -> descends st c x -> descends st a x.

(** An item belongs to an account or to one below it. *)
Definition belongs (st : Store) (acc i : ref) : Prop :=
  exists a, i_account (items st i) = Some a /\ descends st acc a.

(** *** Accounts: lookup by path and renaming *)

Definition SEPARATOR : ascii := Value.ch "/".

(** [key.split(SEPARATOR)] and [SEPARATOR.join(parts)] *)
Fixpoint split (sep : ascii) (s : string) : list string :=
  match s with
  | EmptyString => [EmptyString]
  | String c s' =>
      if Ascii.eqb c sep then EmptyString :: split sep s'
      else match split sep s' with
           | p :: ps => String c p :: ps
           | [] => [String c EmptyString]
           end
  end.
Fixpoint join (sep : ascii) (parts : list string) : string :=
  match parts with
  | [] => EmptyString
  | [p] => p
  | p :: ps => p ++ String sep (join sep ps)
  end.

(** [SEPARATOR in name] *)
Fixpoint has_char (c : ascii) (s : string) : bool :=
  match s with
  | EmptyString => false
  | String c' s' => Ascii.eqb c c' || has_char c s'
  end.

(** [Account.__contains__] and [Database.__contains__] for a text key: the
    same loop, over the children of the receiver. *)
Fixpoint children_contain (fuel : nat) (st : Store) (children : list ref) (key : string)
  : result bool :=
  match fuel with
  | O => Raise OutOfFuel
  | S n =>
      match split SEPARATOR key with
      | [] => Ok false
      | p0 :: rest =>
          (fix loop (cs : list ref) : result bool :=
             match cs with
             | [] => Ok false
             | acc :: cs' =>
                 if String.eqb p0 (a_name (accounts st acc)) then
                   match rest with
                   | [] => Ok true
                   | _ :: _ =>
                       children_contain n st (a_childAccounts (accounts st acc))
                                        (join SEPARATOR rest)
                   end
                 else loop cs'
             end) children
      end
  end.
Definition Account_contains (st : Store) (self : ref) (key : string) : result bool :=
  children_contain (S (String.length key)) st (a_childAccounts (accounts st self)) key.
Definition Database_contains (st : Store) (self : ref) (key : string) : result bool :=
  children_contain (S (String.length key)) st (db_childAccounts (databases st self)) key.

(** [Account.setName]: the boolean result and the store afterwards. *)
Definition setName (st : Store) (self : ref) (newName : string) : result (bool * Store) :=
  if has_char SEPARATOR newName then Ok (false, st)
  else
    let! collides :=
      match a_parentAccount (accounts st self) with
      | Some parent => Account_contains st parent newName
      | None =>
          match a_db (accounts st self) with
          | Some db => Database_contains st db newName
          | None => Ok false
          end
      end in
    if collides then Ok (false, st)
    else if negb (String.eqb (a_name (accounts st self)) newName)
         then Ok (true, set_a_name st self newName)
         else Ok (true, st).

(** The accounts whose names [setName] compares with: the children of the
    parent, or of the database for an account attached to one directly. *)
Definition name_family (st : Store) (self : ref) : list ref :=
  match a_parentAccount (accounts st self) with
  | Some parent => a_childAccounts (accounts st parent)
  | None =>
      match a_db (accounts st self) with
      | Some db => db_childAccounts (databases st db)
      | None => []
      end
  end.

(** *** The account tree *)

(** [AccountTreeItem.hasChildAccount]; [child] may be [None]. *)
Fixpoint hasChildAccount (fuel : nat) (st : Store) (self : ref) (child : option ref)
  : result bool :=
  match fuel with
  | O => Raise OutOfFuel
  | S n =>
      if existsb (fun c => oref_eqb child (Some c)) (a_childAccounts (accounts st self))
      then Ok true
      else
        (fix loop (cs : list ref) : result bool :=
           match cs with
           | [] => Ok false
           | c :: cs' =>
               let! b := hasChildAccount n st c child in
               if b then Ok true else loop cs'
           end) (a_childAccounts (accounts st self))
  end.

(** [AccountTreeItem.isSelfOrHasChildAccount] *)
Definition isSelfOrHasChildAccount (fuel : nat) (st : Store) (self : ref) (child : option ref)
  : result bool :=
  if oref_eqb (Some self) child then Ok true else hasChildAccount fuel st self child.

(** [Account.fullname] *)
Fixpoint fullname (fuel : nat) (st : Store) (self : ref) : result string :=
  match fuel with
  | O => Raise OutOfFuel
  | S n =>
      match a_parentAccount (accounts st self) with
      | Some parent =>
          let! p := fullname n st parent in
          Ok (p ++ String SEPARATOR (a_name (accounts st self)))
      | None => Ok (a_name (accounts st self))
      end
  end.

(** [Account.typeDerived] *)
Fixpoint typeDerived (fuel : nat) (st : Store) (self : ref) : result AccountType :=
  match fuel with
  | O => Raise OutOfFuel
  | S n =>
      match a_type (accounts st self), a_parentAccount (accounts st self) with
      | TYPE_UNKNOWN, Some parent => typeDerived n st parent
      | t, _ => Ok t
      end
  end.

(** [Item.date] *)
Definition Item_date (st : Store) (self : ref) : option date :=
  match i_transaction (items st self) with
  | Some t => if Transaction_bool st t then t_date (transactions st t) else None
  | None => None
  end.

(** [Item.valueDerived] *)
Definition valueDerived (fuel : nat) (st : Store) (self : ref) : result Z :=
  match i_account (items st self) with
  | Some a =>
      let! t := typeDerived fuel st a in
      Ok (if AccountType_eqb t TYPE_EXPENSE || AccountType_eqb t TYPE_PROFIT
          then i_value (items st self) * -1 else i_value (items st self) * 1)
  | None => Ok (i_value (items st self) * 1)
  end.

(** *** Filters over items and transactions *)

Inductive Entity : Type :=
| EItem (i : ref)
| ETransaction (t : ref).

Abbreviation Filter := (FilterCore.Filter Store Entity).

(** [itertools.filterfalse(pred, l)], forced. *)
Fixpoint filterfalse {A : Type} (pred : A -> result bool) (l : list A) : result (list A) :=
  match l with
  | [] => Ok []
  | x :: l' =>
      let! r := pred x in
      let! rest := filterfalse pred l' in
      Ok (if r then rest else x :: rest)
  end.

(** [Transaction.filterItems] *)
Definition Transaction_filterItems (st : Store) (filter_ : option Filter) (self : ref)
  : result (list ref) :=
  match filter_ with
  | None => Ok (t_items (transactions st self))
  | Some f => filterfalse (fun i => FilterCore.rejected f st (EItem i))
                          (t_items (transactions st self))
  end.

(** [Transaction.hasItems]: the iteration stops at the first item that is
    not rejected.  [rej] is [filter_.rejected]. *)
Fixpoint hasItems_loop (rej : ref -> result bool) (l : list ref) : result bool :=
  match l with
  | [] => Ok false
  | i :: l' => let! r := rej i in if r then hasItems_loop rej l' else Ok true
  end.
Definition hasItems (st : Store) (rej : ref -> result bool) (self : ref) : result bool :=
  hasItems_loop rej (t_items (transactions st self)).

(** [obj.transaction.date] of an item, compared to a date afterwards: no
    transaction raises [AttributeError], no date [TypeError]. *)
Definition transaction_date (st : Store) (i : ref) : result date :=
  match i_transaction (items st i) with
  | None => Raise (AttributeError "date")
  | Some t =>
      match t_date (transactions st t) with
      | Some d => Ok d
      | None => Raise TypeError
      end
  end.
Definition own_date (st : Store) (t : ref) : result date :=
  match t_date (transactions st t) with
  | Some d => Ok d
  | None => Raise TypeError
  end.
Definition entity_date (st : Store) (obj : Entity) : result date :=
  match obj with
  | EItem i => transaction_date st i
  | ETransaction t => own_date st t
  end.

(** [FilterGreaterOrEqualDate] and [FilterLessOrEqualDate] *)
Definition FilterGreaterOrEqualDate (fromDate : date) : Filter :=
  FilterCore.Leaf (fun st obj => let! d := entity_date st obj in Ok (date_leb fromDate d)).
Definition FilterLessOrEqualDate (tillDate : date) : Filter :=
  FilterCore.Leaf (fun st obj => let! d := entity_date st obj in Ok (date_leb d tillDate)).

(** A leaf filter whose transaction case is [obj.hasItems(self)], negated
    or not: [self.rejected] on an item is the negation of the item case. *)
Definition item_filter (negate : bool) (on_item : Store -> ref -> result bool) : Filter :=
  FilterCore.Leaf (fun st obj =>
    match obj with
    | EItem i => on_item st i
    | ETransaction t =>
        let! b := hasItems st (fun i => rmap negb (on_item st i)) t in
        Ok (if negate then negb b else b)
    end).

(** [FilterAccountTypes] *)
Definition FilterAccountTypes (fuel : nat) (types : list AccountType) : Filter :=
  item_filter false (fun st i =>
    match i_account (items st i) with
    | None => Raise (AttributeError "typeDerived")
    | Some a =>
        let! t := typeDerived fuel st a in
        Ok (existsb (AccountType_eqb t) types)
    end).

(** The [for acc in self._accounts] loop of the two filters below. *)
Fixpoint any_isSelfOrHasChildAccount (fuel : nat) (st : Store) (accs : list ref)
         (child : option ref) : result bool :=
  match accs with
  | [] => Ok false
  | acc :: accs' =>
      let! b := isSelfOrHasChildAccount fuel st acc child in
      if b then Ok true else any_isSelfOrHasChildAccount fuel st accs' child
  end.

(** [FilterAccountsAndChildren] and [FilterNotAccountsAndChildren] *)
Definition FilterAccountsAndChildren (fuel : nat) (accs : list ref) : Filter :=
  item_filter false (fun st i =>
    any_isSelfOrHasChildAccount fuel st accs (i_account (items st i))).
Definition FilterNotAccountsAndChildren (fuel : nat) (accs : list ref) : Filter :=
  item_filter true (fun st i =>
    rmap negb (any_isSelfOrHasChildAccount fuel st accs (i_account (items st i)))).

(** A compiled regular expression, as far as the filter uses it: whether
    [search] finds a match in a text. *)
Definition regexp : Type := string -> bool.

(** The compiled pattern of a text without special characters: [search]
    finds it where it occurs as a substring. *)
Fixpoint starts_with (pat s : string) : bool :=
  match pat, s with
  | EmptyString, _ => true
  | String a pat', String b s' => Ascii.eqb a b && starts_with pat' s'
  | String _ _, EmptyString => false
  end.
Fixpoint occurs_in (pat s : string) : bool :=
  starts_with pat s ||
  match s with
  | EmptyString => false
  | String _ s' => occurs_in pat s'
  end.
Definition literal (pat : string) : regexp := occurs_in pat.

(** The one-character strings of a text: what [txts += text] appends. *)
Fixpoint chars (s : string) : list string :=
  match s with
  | EmptyString => []
  | String c s' => String c EmptyString :: chars s'
  end.

(** [for t in txts: if self._re.search(t): return True]; searching [None]
    raises [TypeError]. *)
Fixpoint search_any (re : regexp) (txts : list (option string)) : result bool :=
  match txts with
  | [] => Ok false
  | Some t :: txts' => if re t then Ok true else search_any re txts'
  | None :: _ => Raise TypeError
  end.

(** [FilterRegexpDescr] *)
Definition FilterRegexpDescr (re : regexp) : Filter :=
  FilterCore.Leaf (fun st obj =>
    match obj with
    | EItem i =>
        match i_transaction (items st i) with
        | None => Raise (AttributeError "descr")
        | Some t =>
            search_any re
              (List.map Some (chars (i_descr (items st i)))
               ++ [t_descr (transactions st t)]
               ++ List.map (fun j => Some (i_descr (items st j)))
                    (List.filter (fun j => negb (Nat.eqb j i)) (t_items (transactions st t))))
        end
    | ETransaction t =>
        search_any re
          ([t_descr (transactions st t)]
           ++ List.map (fun j => Some (i_descr (items st j))) (t_items (transactions st t)))
    end).

(** [Database.filterItems] with a filter: for every transaction that is
    not rejected, its items that are not rejected, in order. *)
Fixpoint filterItems_loop (st : Store) (f : Filter) (ts : list ref) : result (list ref) :=
  match ts with
  | [] => Ok []
  | t :: ts' =>
      let! r := FilterCore.rejected f st (ETransaction t) in
      let! its := if r then Ok [] else Transaction_filterItems st (Some f) t in
      let! rest := filterItems_loop st f ts' in
      Ok (its ++ rest)%list
  end.
Definition Database_filterItems (st : Store) (f : Filter) (self : ref) : result (list ref) :=
  filterItems_loop st f (db_transactions (databases st self)).

(** *** More of the account tree *)

Definition set_a_childAccounts (st : Store) (a : ref) (l : list ref) : Store :=
  let ac := accounts st a in
  mkStore (items st) (transactions st)
          (upd (accounts st) a (mkAccount (a_name ac) (a_type ac) (a_db ac) (a_parentAccount ac) l))
          (databases st).
Definition set_a_parentAccount (st : Store) (a : ref) (p : option ref) : Store :=
  let ac := accounts st a in
  mkStore (items st) (transactions st)
          (upd (accounts st) a (mkAccount (a_name ac) (a_type ac) (a_db ac) p (a_childAccounts ac)))
          (databases st).
Definition set_a_db (st : Store) (a : ref) (d : option ref) : Store :=
  let ac := accounts st a in
  mkStore (items st) (transactions st)
          (upd (accounts st) a
               (mkAccount (a_name ac) (a_type ac) d (a_parentAccount ac) (a_childAccounts ac)))
          (databases st).
Definition set_db_childAccounts (st : Store) (d : ref) (l : list ref) : Store :=
  let db := databases st d in
  mkStore (items st) (transactions st) (accounts st)
          (upd (databases st) d (mkDatabase l (db_transactions db) (db_parsing db))).

(** [AccountTreeItem.getChildAccounts(True)], for the receiver's list of
    children: every child, followed by the accounts below it. *)
Fixpoint getChildAccounts_below (fuel : nat) (st : Store) (children : list ref)
  : result (list ref) :=
  match fuel with
  | O => Raise OutOfFuel
  | S n =>
      (fix loop (cs : list ref) : result (list ref) :=
         match cs with
         | [] => Ok []
         | child :: cs' =>
             let! sub := getChildAccounts_below n st (a_childAccounts (accounts st child)) in
             let! rest := loop cs' in
             Ok (child :: sub ++ rest)%list
         end) children
  end.

(** [AccountTreeItem.getChildAccounts] of an account *)
Definition getChildAccounts (fuel : nat) (st : Store) (self : ref) (recurse : bool)
  : result (list ref) :=
  if recurse then getChildAccounts_below fuel st (a_childAccounts (accounts st self))
  else Ok (a_childAccounts (accounts st self)).

(** [Database.nofAccounts] *)
Definition nofAccounts (fuel : nat) (st : Store) (self : ref) : result nat :=
  rmap (@List.length ref)
       (getChildAccounts_below fuel st (db_childAccounts (databases st self))).

(** [AccountTreeItem.isChildAccount]; [parent] may be [None]. *)
Fixpoint isChildAccount (fuel : nat) (st : Store) (self : ref) (parent : option ref)
  : result bool :=
  match fuel with
  | O => Raise OutOfFuel
  | S n =>
      if oref_eqb (a_parentAccount (accounts st self)) parent then Ok true
      else
        match a_parentAccount (accounts st self) with
        | Some p => isChildAccount n st p parent
        | None => Ok false
        end
  end.

(** [Account.__getitem__] and [Database.__getitem__] for a text key: the
    same loop, over the children of the receiver. *)
Fixpoint children_get (fuel : nat) (st : Store) (children : list ref) (key : string)
  : result ref :=
  match fuel with
  | O => Raise OutOfFuel
  | S n =>
      match split SEPARATOR key with
      | [] => Raise (KeyError "")
      | p0 :: rest =>
          (fix loop (cs : list ref) : result ref :=
             match cs with
             | [] => Raise (KeyError "")
             | acc :: cs' =>
                 if String.eqb p0 (a_name (accounts st acc)) then
                   match rest with
                   | [] => Ok acc
                   | _ :: _ =>
                       children_get n st (a_childAccounts (accounts st acc))
                                    (join SEPARATOR rest)
                   end
                 else loop cs'
             end) children
      end
  end.
Definition Account_getitem (st : Store) (self : ref) (key : string) : result ref :=
  children_get (S (String.length key)) st (a_childAccounts (accounts st self)) key.
Definition Database_getitem (st : Store) (self : ref) (key : string) : result ref :=
  children_get (S (String.length key)) st (db_childAccounts (databases st self)) key.

(** [Account.__iadd__] and [Account.__isub__] for an account *)
Definition Account_iadd_Account (st : Store) (self other : ref) : Store :=
  if negb (mem other (a_childAccounts (accounts st self))) then
    let st1 := set_a_childAccounts st self (a_childAccounts (accounts st self) ++ [other]) in
    set_a_parentAccount st1 other (Some self)
  else st.
Definition Account_isub_Account (st : Store) (self other : ref) : Store :=
  if mem other (a_childAccounts (accounts st self)) then
    let st1 := set_a_childAccounts st self (remove other (a_childAccounts (accounts st self))) in
    set_a_parentAccount st1 other None
  else st.

(** [Account.__iadd__] for a database and [Database.__iadd__] for an
    account *)
Fixpoint Account_iadd_Database (fuel : nat) (st : Store) (self other : ref) : result Store :=
  match fuel with
  | O => Raise OutOfFuel
  | S n =>
      if negb (oref_eqb (Some other) (a_db (accounts st self))) then
        Database_iadd_Account n (set_a_db st self (Some other)) other self
      else Ok st
  end
with Database_iadd_Account (fuel : nat) (st : Store) (self other : ref) : result Store :=
  match fuel with
  | O => Raise OutOfFuel
  | S n =>
      if negb (mem other (db_childAccounts (databases st self))) then
        Account_iadd_Database n
          (set_db_childAccounts st self (db_childAccounts (databases st self) ++ [other]))
          other self
      else Ok st
  end.

(** [Account.__isub__] for a database and [Database.__isub__] for an
    account *)
Fixpoint Account_isub_Database (fuel : nat) (st : Store) (self other : ref) : result Store :=
  match fuel with
  | O => Raise OutOfFuel
  | S n =>
      if oref_eqb (a_db (accounts st self)) (Some other) then
        Database_isub_Account n (set_a_db st self None) other self
      else Ok st
  end
with Database_isub_Account (fuel : nat) (st : Store) (self other : ref) : result Store :=
  match fuel with
  | O => Raise OutOfFuel
  | S n =>
      if mem other (db_childAccounts (databases st self)) then
        Account_isub_Database n
          (set_db_childAccounts st self (remove other (db_childAccounts (databases st self))))
          other self
      else Ok st
  end.

(** [Account.db]: the database of the account, or of the nearest account
    above it that has one. *)
Fixpoint Account_db (fuel : nat) (st : Store) (self : ref) : result (option ref) :=
  match fuel with
  | O => Raise OutOfFuel
  | S n =>
      match a_db (accounts st self) with
      | Some d => Ok (Some d)
      | None =>
          match a_parentAccount (accounts st self) with
          | Some p => Account_db n st p
          | None => Ok None
          end
      end
  end.

(** The parent and child links of the accounts agree, and no account is
    listed twice under its parent. *)
Definition tree_consistent (st : Store) : Prop :=
  (forall c p, In c (a_childAccounts (accounts st p)) <->
               a_parentAccount (accounts st c) = Some p) /\
  (forall p, List.NoDup (a_childAccounts (accounts st p))).

(** *** Sums of values

    A number [z] of hundredths is the value of the [Decimal] of coefficient
    [|z|] and exponent -2.  [plus] is [+] on two such values, in
    hundredths: [Decimal.__add__] in the default context, which rounds a
    sum of more than 28 digits to 28 digits.  The built-in [sum] starts from
    the integer 0 and adds the elements from the left with [+]. *)
Definition amount (z : Z) : Value.Decimal :=
  Value.mkDecimal (z <? 0) (Z.to_N (Z.abs z)) (-2).
Definition hundredths (d : Value.Decimal) : Z :=
  Value.signed_coeff d * 10 ^ (Value.d_exp d + 2).
Definition plus (a b : Z) : Z := hundredths (Value.dec_add (amount a) (amount b)).

(** The sum of numbers as the specification has it, without rounding; the
    sum of their absolute values; the values of a list of items.  A sum is
    within the precision of the context when the absolute values add up to
    less than [10 ^ 28] hundredths. *)
Definition exact_sum (l : list Z) : Z := fold_right Z.add 0 l.
Definition magnitude (l : list Z) : Z := fold_right (fun v s => Z.abs v + s) 0 l.
Definition values_of (st : Store) (its : list ref) : list Z :=
  List.map (fun i => i_value (items st i)) its.
Definition precision_limit : Z := 10 ^ 28.

(** The items of the transactions of a database. *)
Definition db_items (st : Store) (db : ref) : list ref :=
  flat_map (fun t => t_items (transactions st t)) (db_transactions (databases st db)).

(** *** Balance of a transaction *)

(** [Transaction.getBalance] and [Transaction.isBalanced] *)
Definition getBalance (st : Store) (self : ref) : Z :=
  fold_left (fun s i => plus s (i_value (items st i))) (t_items (transactions st self)) 0.
Definition isBalanced (st : Store) (self : ref) : bool := getBalance st self =? 0.

(** *** More filters *)

(** [FilterDateRange]: [__init__] swaps the two dates when the first is
    the later one. *)
Definition FilterDateRange (fromDate tillDate : date) : Filter :=
  let f := if date_ltb tillDate fromDate then tillDate else fromDate in
  let t := if date_ltb tillDate fromDate then fromDate else tillDate in
  FilterCore.Leaf (fun st obj =>
    let! d := entity_date st obj in
    if date_leb f d then (let! d' := entity_date st obj in Ok (date_leb d' t))
    else Ok false).

(** [FilterAccounts] *)
Definition FilterAccounts (accs : list ref) : Filter :=
  item_filter false (fun st i =>
    Ok (match i_account (items st i) with
        | Some a => mem a accs
        | None => false
        end)).

(** [FilterEqualValue]: for an item of another value the test goes on with
    [self._accepted(obj.transaction)], which raises [TypeError] for
    [None]. *)
Definition has_value (st : Store) (value : Z) (t : ref) : bool :=
  existsb (fun j => value =? i_value (items st j)) (t_items (transactions st t)).
Definition FilterEqualValue (value : Z) : Filter :=
  FilterCore.Leaf (fun st obj =>
    match obj with
    | EItem i =>
        if value =? i_value (items st i) then Ok true
        else
          match i_transaction (items st i) with
          | Some t => Ok (has_value st value t)
          | None => Raise TypeError
          end
    | ETransaction t => Ok (has_value st value t)
    end).

(** [Database.filterTransactions] with a filter *)
Definition Database_filterTransactions (st : Store) (f : Filter) (self : ref)
  : result (list ref) :=
  filterfalse (fun t => FilterCore.rejected f st (ETransaction t))
              (db_transactions (databases st self)).

End Ledger.

(** ** [report.py]: groupings, datasets and reports *)

Module Reporting.
Import Dateutils Ledger.

(** *** [DateRangeKey] *)

Record DateRangeKey : Type := mkDateRangeKey {
  k_interval : Interval;
  k_fromDate : option date;
  k_tillDate : option date }.

(** [DateRangeKey.__init__] *)
Definition DateRangeKey_new (fromDate tillDate : date) (interval : Interval)
  : result DateRangeKey :=
  let! range := rangeDateFromTillByInterval fromDate tillDate interval in
  Ok (mkDateRangeKey interval (fst range) (snd range)).

Definition odate_eqb (a b : option date) : bool :=
  match a, b with
  | Some x, Some y => date_eqb x y
  | None, None => true
  | _, _ => false
  end.

(** [DateRangeKey.__eq__] and [__lt__] *)
Definition key_eqb (a b : DateRangeKey) : bool :=
  odate_eqb (k_fromDate a) (k_fromDate b) && odate_eqb (k_tillDate a) (k_tillDate b).
Definition key_ltb (a b : DateRangeKey) : bool :=
  date_key_ltb (k_fromDate a) (k_fromDate b).

(** *** Dictionaries keyed by [DateRangeKey], in insertion order *)

Definition dict : Type := list (DateRangeKey * list ref).

Fixpoint dict_get (d : dict) (k : DateRangeKey) : option (list ref) :=
  match d with
  | [] => None
  | (k', v) :: d' => if key_eqb k' k then Some v else dict_get d' k
  end.

(** [d\[k\] = v] *)
Fixpoint dict_set (d : dict) (k : DateRangeKey) (v : list ref) : dict :=
  match d with
  | [] => [(k, v)]
  | (k', v') :: d' => if key_eqb k' k then (k', v) :: d' else (k', v') :: dict_set d' k v
  end.

Definition dict_has (d : dict) (k : DateRangeKey) : bool :=
  match dict_get d k with Some _ => true | None => false end.

Definition dict_keys (d : dict) : list DateRangeKey := List.map fst d.

(** *** [ItemGrouping] and [ItemGroupingByDateRange] *)

Record ItemGrouping : Type := mkItemGrouping {
  g_groups : dict;
  g_items : list ref;
  g_interval : Interval }.

(** The loop of [ItemGroupingByDateRange.__init__]: an empty list for the
    key of every step. *)
Fixpoint init_groups (interval : Interval) (steps : list date) (g : dict) : result dict :=
  match steps with
  | [] => Ok g
  | i :: steps' =>
      let! key := DateRangeKey_new i i interval in
      init_groups interval steps' (dict_set g key [])
  end.

(** [ItemGroupingByDateRange.__init__] *)
Definition ItemGroupingByDateRange (fuel : nat) (fromDate tillDate : date) (interval : Interval)
  : result ItemGrouping :=
  let! steps := getIntervalSteps fuel fromDate tillDate interval in
  let! g := init_groups interval steps [] in
  Ok (mkItemGrouping g [] interval).

(** [ItemGroupingByDateRange._getGroupKey]: an item without a date makes
    [date_from_value] raise [TypeError], except for the daily interval,
    which does not look at the dates. *)
Definition getGroupKey (st : Store) (interval : Interval) (i : ref) : result DateRangeKey :=
  match Item_date st i, interval with
  | Some d, _ => DateRangeKey_new d d interval
  | None, INTERVAL_DAILY => Ok (mkDateRangeKey interval None None)
  | None, _ => Raise TypeError
  end.

(** [ItemGrouping.__iadd__] for an item *)
Definition ItemGrouping_iadd_Item (st : Store) (self : ItemGrouping) (other : ref)
  : result ItemGrouping :=
  if mem other (g_items self) then Ok self
  else
    let! key := getGroupKey st (g_interval self) other in
    let groups1 := if dict_has (g_groups self) key then g_groups self
                   else dict_set (g_groups self) key [] in
    let groups2 :=
      match dict_get groups1 key with
      | Some l => dict_set groups1 key (l ++ [other])
      | None => groups1
      end in
    Ok (mkItemGrouping groups2 (g_items self ++ [other]) (g_interval self)).

Fixpoint ItemGrouping_iadd_items (st : Store) (self : ItemGrouping) (its : list ref)
  : result ItemGrouping :=
  match its with
  | [] => Ok self
  | i :: its' =>
      let! g := ItemGrouping_iadd_Item st self i in
      ItemGrouping_iadd_items st g its'
  end.

(** [list.sort()] of keys, by [__lt__]: stable, by insertion. *)
Fixpoint insert_key (k : DateRangeKey) (l : list DateRangeKey) : list DateRangeKey :=
  match l with
  | [] => [k]
  | y :: l' => if key_ltb y k then y :: insert_key k l' else k :: l
  end.
Definition sort_keys (l : list DateRangeKey) : list DateRangeKey := fold_right insert_key [] l.

Definition key_has_no_date (k : DateRangeKey) : bool :=
  match k_fromDate k with None => true | Some _ => false end.

(** [ItemGroupingByDateRange.groups] *)
Definition groups (self : ItemGrouping) : result (list DateRangeKey) :=
  let ks := dict_keys (g_groups self) in
  if (2 <=? List.length ks)%nat && existsb key_has_no_date ks then Raise TypeError
  else Ok (sort_keys ks).

(** [ItemGrouping.groupItems] with a filter *)
Definition groupItems (st : Store) (self : ItemGrouping) (key : DateRangeKey) (filter_ : Filter)
  : result (list ref) :=
  match dict_get (g_groups self) key with
  | None => Raise (KeyError "key")
  | Some l => filterfalse (fun i => FilterCore.rejected filter_ st (EItem i)) l
  end.

(** *** Datasets

    A value's back reference [_grp] to its group is the nesting of the
    value in the group.  Values and groups are new objects when they are
    added, so the identity tests [not other in ...] of the two [__iadd__]
    succeed. *)

Record ReportDatasetValue : Type := mkValue {
  v_label : string;
  v_value : Z;
  v_items : list ref }.

Record ReportDatasetGroup : Type := mkGroup {
  grp_label : DateRangeKey;
  grp_values : list ReportDatasetValue }.

Definition ReportDataset : Type := list ReportDatasetGroup.

(** [sort(key=lambda v: v.value, reverse=True)]: descending, stable. *)
Fixpoint insert_desc (v : ReportDatasetValue) (l : list ReportDatasetValue)
  : list ReportDatasetValue :=
  match l with
  | [] => [v]
  | y :: l' => if v_value v <? v_value y then y :: insert_desc v l' else v :: l
  end.
Definition sort_desc (l : list ReportDatasetValue) : list ReportDatasetValue :=
  fold_right insert_desc [] l.

(** [sum(\[v.value for v in l\])] *)
Definition sum_values (l : list ReportDatasetValue) : Z :=
  fold_left (fun s v => plus s (v_value v)) l 0.

(** [ReportDatasetGroup.sorted]; [maxNof] is a count, 0 for no cap. *)
Definition sorted (self : ReportDatasetGroup) (maxNof : nat) : list ReportDatasetValue :=
  let vals := List.filter (fun v => negb (v_value v =? 0)) (grp_values self) in
  let vals := sort_desc vals in
  if negb (maxNof =? 0)%nat && (maxNof <? List.length vals)%nat then
    let other := skipn (maxNof + 1) vals in
    let vals := firstn (maxNof - 1) vals in
    let sumOther := sum_values other in
    if negb (sumOther =? 0) then (vals ++ [mkValue "..." sumOther []])%list
    else vals
  else vals.

(** The values of a group that pass [if v.value], and the order of a
    descending list of values. *)
Definition nonzero_values (g : ReportDatasetGroup) : list ReportDatasetValue :=
  List.filter (fun v => negb (v_value v =? 0)) (grp_values g).
Definition value_ge (a b : ReportDatasetValue) : Prop := v_value b <= v_value a.

(** *** [Report] *)

Record Report : Type := mkReport {
  r_db : ref;
  r_accounts : list ref;
  r_datasets : gmap string ReportDataset;
  r_fromDate : date;
  r_tillDate : date;
  r_items : option (list ref) }.

(** [Report.setRange] *)
Definition setRange (self : Report) (fromDate tillDate : date) : Report :=
  mkReport (r_db self) (r_accounts self) ∅ fromDate tillDate None.

(** [Report.__init__] *)
Definition Report_init (db : ref) (fromDate tillDate : date) : Report :=
  setRange (mkReport db [] ∅ fromDate tillDate None) fromDate tillDate.

(** [Report.__iadd__] for an account *)
Definition Report_iadd (self : Report) (other : ref) : Report :=
  if negb (mem other (r_accounts self))
  then mkReport (r_db self) (r_accounts self ++ [other]) (r_datasets self)
                (r_fromDate self) (r_tillDate self) (r_items self)
  else self.

(** [Report.__isub__] for an account: the report afterwards and the
    exception raised, if any.  The body reads [self._account]; a [Report]
    has the attributes [_db], [_accounts], [_datasets], [_fromDate],
    [_tillDate] and [_items], and none of that name. *)
Definition Report_isub (self : Report) (other : ref) : Report * option exn :=
  if mem other (r_accounts self) then (self, Some (AttributeError "_account"))
  else (self, None).

Definition set_r_items (self : Report) (its : option (list ref)) : Report :=
  mkReport (r_db self) (r_accounts self) (r_datasets self)
           (r_fromDate self) (r_tillDate self) its.
Definition set_r_dataset (self : Report) (name : string) (ds : ReportDataset) : Report :=
  mkReport (r_db self) (r_accounts self) (<[name := ds]> (r_datasets self))
           (r_fromDate self) (r_tillDate self) (r_items self).

(** [Report.items]: the items and the report with its memo set. *)
Definition Report_items (fuel : nat) (st : Store) (self : Report) : result (list ref * Report) :=
  match r_items self with
  | Some its => Ok (its, self)
  | None =>
      let fromFilter := FilterGreaterOrEqualDate (r_fromDate self) in
      let tillFilter := FilterLessOrEqualDate (r_tillDate self) in
      let dateFilter := FilterCore.filter_and fromFilter tillFilter in
      let accFilter := FilterAccountsAndChildren fuel (r_accounts self) in
      let! its := Database_filterItems st (FilterCore.filter_and accFilter dateFilter) (r_db self) in
      Ok (its, set_r_items self (Some its))
  end.

(** [sum(items)], through [Item.__radd__] *)
Definition sum_items (st : Store) (its : list ref) : Z :=
  fold_left (fun s i => plus (i_value (items st i)) s) its 0.

(** [items.sort(key=lambda x: x.date)] *)
Fixpoint insert_item_by_date (st : Store) (i : ref) (l : list ref) : list ref :=
  match l with
  | [] => [i]
  | y :: l' =>
      if date_key_ltb (Item_date st y) (Item_date st i)
      then y :: insert_item_by_date st i l'
      else i :: l
  end.
Definition sort_items_by_date (st : Store) (l : list ref) : result (list ref) :=
  if (2 <=? List.length l)%nat
     && existsb (fun i => match Item_date st i with None => true | Some _ => false end) l
  then Raise TypeError
  else Ok (fold_right (insert_item_by_date st) [] l).

(** [filter(lambda a: acc.hasChildAccount(a), self._accounts)], forced *)
Fixpoint selected_children (fuel : nat) (st : Store) (acc : ref) (accs : list ref)
  : result (list ref) :=
  match accs with
  | [] => Ok []
  | a :: accs' =>
      let! b := hasChildAccount fuel st acc (Some a) in
      let! rest := selected_children fuel st acc accs' in
      Ok (if b then a :: rest else rest)
  end.

(** One turn of the inner loop of [datasetMonthly]: the value of an account
    in the group of a label. *)
Definition monthly_value (fuel : nat) (st : Store) (self : Report) (grp : ItemGrouping)
           (label : DateRangeKey) (acc : ref) : result ReportDatasetValue :=
  let accInclFilter := FilterAccountsAndChildren fuel [acc] in
  let! excl := selected_children fuel st acc (r_accounts self) in
  let accExclFilter := FilterNotAccountsAndChildren fuel excl in
  let! its := groupItems st grp label (FilterCore.filter_and accInclFilter accExclFilter) in
  let accsum := sum_items st its in
  let! sorted_its := sort_items_by_date st its in
  let! name := fullname fuel st acc in
  Ok (mkValue name accsum sorted_its).

(** [for x in l], collecting what each turn adds *)
Fixpoint for_each {A B : Type} (body : A -> result B) (l : list A) : result (list B) :=
  match l with
  | [] => Ok []
  | x :: l' =>
      let! y := body x in
      let! ys := for_each body l' in
      Ok (y :: ys)
  end.

(** [Report.datasetMonthly]: the dataset and the report afterwards. *)
Definition datasetMonthly (fuel : nat) (st : Store) (self : Report)
  : result (ReportDataset * Report) :=
  match r_datasets self !! "monthly" with
  | Some ds => Ok (ds, self)
  | None =>
      let! grp := ItemGroupingByDateRange fuel (r_fromDate self) (r_tillDate self)
                                          INTERVAL_MONTHLY in
      let! its_self1 := Report_items fuel st self in
      let '(its, self1) := its_self1 in
      let! grp := ItemGrouping_iadd_items st grp its in
      let! labels := groups grp in
      let! dataset :=
        for_each (fun label =>
                    let! vals := for_each (monthly_value fuel st self1 grp label)
                                          (r_accounts self1) in
                    Ok (mkGroup label vals))
                 labels in
      Ok (dataset, set_r_dataset self1 "monthly" dataset)
  end.

(** [sum(\[i.valueDerived for i in items\])] *)
Fixpoint sum_valueDerived (fuel : nat) (st : Store) (its : list ref) (s : Z) : result Z :=
  match its with
  | [] => Ok s
  | i :: its' =>
      let! v := valueDerived fuel st i in
      sum_valueDerived fuel st its' (s + v)
  end.

Definition is_balance_type (t : AccountType) : bool :=
  AccountType_eqb t TYPE_PROFIT || AccountType_eqb t TYPE_EXPENSE.

(** The loop over the four types in [datasetMonthlyTypes]: the values
    added and the balance. *)
Fixpoint types_loop (fuel : nat) (st : Store) (grp : ItemGrouping) (label : DateRangeKey)
         (types : list AccountType) (balance : Z) : result (list ReportDatasetValue * Z) :=
  match types with
  | [] => Ok ([], balance)
  | type :: types' =>
      let typeFilter := FilterAccountTypes fuel [type] in
      let! its := groupItems st grp label typeFilter in
      let! typesum := sum_valueDerived fuel st its 0 in
      let balance' := if is_balance_type type then balance + typesum else balance in
      let! sorted_its := sort_items_by_date st its in
      let! vals_b := types_loop fuel st grp label types' balance' in
      let '(vals, b) := vals_b in
      Ok (mkValue (ALL_TYPES type) typesum sorted_its :: vals, b)
  end.

(** [Report.datasetMonthlyTypes]: on a cache hit for ["monthlyTypes"] it
    returns [self._datasets\["monthly"\]]. *)
Definition datasetMonthlyTypes (fuel : nat) (st : Store) (self : Report)
  : result (ReportDataset * Report) :=
  match r_datasets self !! "monthlyTypes" with
  | Some _ =>
      match r_datasets self !! "monthly" with
      | Some ds => Ok (ds, self)
      | None => Raise (KeyError "monthly")
      end
  | None =>
      let! grp := ItemGroupingByDateRange fuel (r_fromDate self) (r_tillDate self)
                                          INTERVAL_MONTHLY in
      let! its_self1 := Report_items fuel st self in
      let '(its, self1) := its_self1 in
      let! grp := ItemGrouping_iadd_items st grp its in
      let! labels := groups grp in
      let! dataset :=
        for_each (fun label =>
                    let! vals_balance :=
                      types_loop fuel st grp label
                                 [TYPE_ASSET; TYPE_LIABILITY; TYPE_PROFIT; TYPE_EXPENSE] 0 in
                    let '(vals, balance) := vals_balance in
                    Ok (mkGroup label (vals ++ [mkValue "Balance" balance []])%list))
                 labels in
      Ok (dataset, set_r_dataset self1 "monthlyTypes" dataset)
  end.

(** The key of the month of a date, and whether an item is dated in the
    month of a date. *)
Definition month_key (d : date) : DateRangeKey :=
  mkDateRangeKey INTERVAL_MONTHLY (Some (first_of_month d)) (Some (last_of_month d)).
Definition in_month (st : Store) (m : date) (i : ref) : bool :=
  match Item_date st i with
  | Some d => same_month d m
  | None => false
  end.

(** What holds of an item of a report with the one account [acc]: the item
    belongs to the account or to one below it, the account filter accepts
    it, and its date is a calendar day of the range. *)
Definition report_item (st : Store) (fuel : nat) (acc : ref) (fromDate tillDate : date)
           (i : ref) : Prop :=
  belongs st acc i /\
  FilterCore.accepted (FilterAccountsAndChildren fuel [acc]) st (EItem i) = Ok true /\
  exists d, Item_date st i = Some d /\ calendar_day d /\
            date_leb fromDate d = true /\ date_leb d tillDate = true.

(** *** More of the grouping, the datasets and the report *)

(** [ItemGrouping.__contains__] for an item *)
Definition ItemGrouping_contains (self : ItemGrouping) (i : ref) : bool := mem i (g_items self).

(** [ItemGrouping.__isub__] for an item: a missing key raises [KeyError],
    and [list.remove] of an item that is not in the list of its key raises
    [ValueError]. *)
Definition ItemGrouping_isub_Item (st : Store) (self : ItemGrouping) (other : ref)
  : result ItemGrouping :=
  if ItemGrouping_contains self other then
    let! key := getGroupKey st (g_interval self) other in
    match dict_get (g_groups self) key with
    | None => Raise (KeyError "key")
    | Some l =>
        if mem other l then
          Ok (mkItemGrouping (dict_set (g_groups self) key (Ledger.remove other l))
                             (Ledger.remove other (g_items self)) (g_interval self))
        else Raise ValueError
    end
  else Ok self.

(** [ReportDatasetGroup.sum] and [ReportDatasetGroup.series] *)
Definition group_sum (self : ReportDatasetGroup) : Z :=
  fold_left (fun s v => plus s (v_value v)) (grp_values self) 0.
Definition group_series (self : ReportDatasetGroup) : list string :=
  List.map v_label (grp_values self).

(** [ReportDataset.series] *)
Definition dataset_series (self : ReportDataset) : list string :=
  match self with
  | g :: _ => group_series g
  | [] => []
  end.

(** The [allAccounts] loop of [datasetMonthlyExpanded]: every selected
    account that is not in the list yet, followed by the accounts below it
    that are not. *)
Definition add_new (all : list ref) (x : ref) : list ref :=
  if mem x all then all else (all ++ [x])%list.
Fixpoint expand_accounts (fuel : nat) (st : Store) (accs all : list ref) : result (list ref) :=
  match accs with
  | [] => Ok all
  | acc :: accs' =>
      if mem acc all then expand_accounts fuel st accs' all
      else
        let! subs := getChildAccounts fuel st acc true in
        expand_accounts fuel st accs' (fold_left add_new subs (all ++ [acc])%list)
  end.

(** [items.sort()] on a list of items: an [Item] has no [__lt__], so the
    first comparison raises [TypeError]; lists of fewer than two items
    are not compared. *)
Definition sort_items (l : list ref) : result (list ref) :=
  if (2 <=? List.length l)%nat then Raise TypeError else Ok l.

(** One turn of the inner loop of [datasetMonthlyExpanded] *)
Definition expanded_value (fuel : nat) (st : Store) (grp : ItemGrouping)
           (label : DateRangeKey) (acc : ref) : result ReportDatasetValue :=
  let accFilter := FilterAccounts [acc] in
  let! its := groupItems st grp label accFilter in
  let accsum := sum_items st its in
  let! sorted_its := sort_items its in
  let! name := fullname fuel st acc in
  Ok (mkValue name accsum sorted_its).

(** [Report.datasetMonthlyExpanded]: the dataset and the report afterwards. *)
Definition datasetMonthlyExpanded (fuel : nat) (st : Store) (self : Report)
  : result (ReportDataset * Report) :=
  match r_datasets self !! "monthlyExpanded" with
  | Some ds => Ok (ds, self)
  | None =>
      let! grp := ItemGroupingByDateRange fuel (r_fromDate self) (r_tillDate self)
                                          INTERVAL_MONTHLY in
      let! its_self1 := Report_items fuel st self in
      let '(its, self1) := its_self1 in
      let! grp := ItemGrouping_iadd_items st grp its in
      let! allAccounts := expand_accounts fuel st (r_accounts self1) [] in
      let! labels := groups grp in
      let! dataset :=
        for_each (fun label =>
                    let! vals := for_each (expanded_value fuel st grp label) allAccounts in
                    Ok (mkGroup label vals))
                 labels in
      Ok (dataset, set_r_dataset self1 "monthlyExpanded" dataset)
  end.

(** Whether an item is on an account itself. *)
Definition on_account (st : Store) (acc i : ref) : bool :=
  oref_eqb (i_account (items st i)) (Some acc).

End Reporting.

(** ** A small ledger

    The database [0] with the account [Root] (0) and its children [Foo] (1)
    and [Bar] (2); a transaction on 2018-03-08 and one on 2018-04-01, each
    with an item on [Foo] and one on [Bar]. *)

Module Sample.
Import Dateutils Ledger Reporting.

Definition no_item : Item := mkItem "" 0 false None None.
Definition no_transaction : Transaction := mkTransaction None None (Some "") [].
Definition no_account : Account := mkAccount "" TYPE_UNKNOWN None None [].
Definition no_database : Database := mkDatabase [] [] false.

(** A store with the given objects at the references 0, 1, 2, ... *)
Definition store_of (its : list Item) (ts : list Transaction) (accs : list Account)
           (dbs : list Database) : Store :=
  mkStore (fun r => nth r its no_item) (fun r => nth r ts no_transaction)
          (fun r => nth r accs no_account) (fun r => nth r dbs no_database).

Definition ledger : Store :=
  store_of
    [mkItem "AAA" 250 false (Some 1%nat) (Some 0%nat);
     mkItem "BBB" (-250) false (Some 2%nat) (Some 0%nat);
     mkItem "III" 500 false (Some 1%nat) (Some 1%nat);
     mkItem "JJJ" (-500) false (Some 2%nat) (Some 1%nat)]
    [mkTransaction (Some 0%nat) (Some (mkDate 2018 3 8)) (Some "one") [0; 1]%nat;
     mkTransaction (Some 0%nat) (Some (mkDate 2018 4 1)) (Some "five") [2; 3]%nat]
    [mkAccount "Root" TYPE_ASSET (Some 0%nat) None [1; 2]%nat;
     mkAccount "Foo" TYPE_UNKNOWN None (Some 0%nat) [];
     mkAccount "Bar" TYPE_EXPENSE None (Some 0%nat) []]
    [mkDatabase [0%nat] [0; 1]%nat false].

Definition report : Report :=
  Report_iadd (Report_init 0%nat (mkDate 2018 3 8) (mkDate 2018 4 1)) 1%nat.

(** A transaction without description text of its own, holding the single
    item ["ab"]. *)
Definition lone_item : Store :=
  store_of [mkItem "ab" 100 false None (Some 0%nat)]
           [mkTransaction None (Some (mkDate 2018 3 8)) (Some "") [0%nat]] [] [].

(** An empty database [0] and three transactions that belong to none, dated
    2018-03-03, 2018-03-02 and 2018-03-01. *)
Definition three_loose : Store :=
  store_of []
           [mkTransaction None (Some (mkDate 2018 3 3)) (Some "a") [];
            mkTransaction None (Some (mkDate 2018 3 2)) (Some "b") [];
            mkTransaction None (Some (mkDate 2018 3 1)) (Some "c") []]
           [] [mkDatabase [] [] false].

(** An empty database [0] and transactions dated 2018-03-08, the day after
    and five days before. *)
Definition three_days : Store :=
  store_of []
           [mkTransaction None (Some (mkDate 2018 3 8)) (Some "B") [];
            mkTransaction None (Some (add_days 1 (mkDate 2018 3 8))) (Some "C") [];
            mkTransaction None (Some (sub_days 5 (mkDate 2018 3 8))) (Some "A") []]
           [] [mkDatabase [] [] false].

(** A group with the values 5, 4, 3, 1 and -1. *)
Definition zero_rest : ReportDatasetGroup :=
  mkGroup (month_key (mkDate 2018 3 8))
          [mkValue "a" 5 []; mkValue "b" 4 []; mkValue "c" 3 [];
           mkValue "d" 1 []; mkValue "e" (-1) []].

(** A group with the values 1, 5, 3, 4 and 2. *)
Definition five_values : ReportDatasetGroup :=
  mkGroup (month_key (mkDate 2018 3 8))
          [mkValue "a" 1 []; mkValue "b" 5 []; mkValue "c" 3 [];
           mkValue "d" 4 []; mkValue "e" 2 []].

(** The database [0] with the account [Cash] (0) and one transaction on
    2018-03-08 with two items on that account. *)
Definition two_in_march : Store :=
  store_of
    [mkItem "in" 100 false (Some 0%nat) (Some 0%nat);
     mkItem "out" (-100) false (Some 0%nat) (Some 0%nat)]
    [mkTransaction (Some 0%nat) (Some (mkDate 2018 3 8)) (Some "both") [0; 1]%nat]
    [mkAccount "Cash" TYPE_ASSET (Some 0%nat) None []]
    [mkDatabase [0%nat] [0%nat] false].

End Sample.


(** * Properties *)

Import FilterCore Value Dateutils Ledger Reporting.

(** ** Results *)

Lemma bind_Ok {A B : Type} (r : result A) (k : A -> result B) (b : B) :
  bind r k = Ok b -> exists a, r = Ok a /\ k a = Ok b.
Proof. destruct r as [a|e]; simpl; [eauto | discriminate]. Qed.

Lemma rmap_Ok {A B : Type} (f : A -> B) (r : result A) (b : B) :
  rmap f r = Ok b -> exists a, r = Ok a /\ b = f a.
Proof.
  unfold rmap. intros H. apply bind_Ok in H as (a & -> & H). inversion H. eauto.
Qed.

(** ** Reports: removing an account, and the dataset cache *)

Lemma mem_In (x : ref) (l : list ref) : mem x l = true <-> In x l.
Proof.
  unfold mem. rewrite existsb_exists. split.
  - intros (y & Hy & E). apply Nat.eqb_eq in E. now subst.
  - intros H. exists x. split; [assumption | apply Nat.eqb_refl].
Qed.

(** C10.  For a report [r] and an account [a] among its selected accounts,
    [r -= a] raises [AttributeError] (the handler reads [self._account]) and
    leaves the selected accounts as they are; for an account that is not
    selected it returns [r] unchanged. *)
Theorem C10_report_isub (r : Report) (a : ref) :
  (In a (r_accounts r) ->
   snd (Report_isub r a) = Some (AttributeError "_account") /\
   r_accounts (fst (Report_isub r a)) = r_accounts r) /\
  (~ In a (r_accounts r) -> Report_isub r a = (r, None)).
Proof.
  unfold Report_isub. split; intros H.
  - apply mem_In in H. rewrite H. split; reflexivity.
  - destruct (mem a (r_accounts r)) eqn:E; [|reflexivity].
    apply mem_In in E. contradiction.
Qed.

Lemma C10_report_isub_witness :
  snd (Report_isub Sample.report 1%nat) = Some (AttributeError "_account") /\
  r_accounts (fst (Report_isub Sample.report 1%nat)) = r_accounts Sample.report.
Proof.
  apply (proj1 (C10_report_isub Sample.report 1%nat)). simpl. left. reflexivity.
Defined.

(** After [setRange] the cache is empty, and a first [datasetMonthlyTypes]
    that returns leaves a report whose next [datasetMonthlyTypes] raises
    [KeyError]: it looks up ["monthly"], which only [datasetMonthly] stores. *)
Lemma datasetMonthlyTypes_again fuel st r f t ds r1 :
  datasetMonthlyTypes fuel st (setRange r f t) = Ok (ds, r1) ->
  datasetMonthlyTypes fuel st r1 = Raise (KeyError "monthly").
Proof.
  unfold datasetMonthlyTypes at 1. simpl r_datasets. rewrite lookup_empty.
  intros H.
  apply bind_Ok in H as (grp & _ & H).
  apply bind_Ok in H as ([its self1] & Hitems & H).
  apply bind_Ok in H as (grp' & _ & H).
  apply bind_Ok in H as (labels & _ & H).
  apply bind_Ok in H as (dataset & _ & H).
  inversion H; subst ds r1; clear H.
  assert (Hc : r_datasets self1 = ∅).
  { unfold Report_items in Hitems. simpl r_items in Hitems.
    apply bind_Ok in Hitems as (its' & _ & Hitems). inversion Hitems. reflexivity. }
  unfold datasetMonthlyTypes, set_r_dataset. simpl r_datasets.
  rewrite Hc, lookup_insert_eq.
  rewrite lookup_insert_ne by discriminate. rewrite lookup_empty. reflexivity.
Qed.

(** C4 (the code departs from it).  On the sample ledger the first
    [datasetMonthlyTypes] of a new report returns a dataset; the second one,
    with no [setRange] in between, raises [KeyError] instead of returning
    that dataset. *)
Theorem C4_datasetMonthlyTypes_second_call :
  exists ds r1,
    datasetMonthlyTypes 10 Sample.ledger Sample.report = Ok (ds, r1) /\
    r_datasets r1 !! "monthlyTypes" = Some ds /\
    datasetMonthlyTypes 10 Sample.ledger r1 = Raise (KeyError "monthly").
Proof.
  destruct (datasetMonthlyTypes 10 Sample.ledger Sample.report) as [[ds r1]|e] eqn:E;
    [|vm_compute in E; discriminate].
  exists ds, r1. split; [reflexivity|]. split.
  - revert E. unfold datasetMonthlyTypes. simpl r_datasets. rewrite lookup_empty.
    intros H.
    apply bind_Ok in H as (grp & _ & H).
    apply bind_Ok in H as ([its self1] & _ & H).
    apply bind_Ok in H as (grp' & _ & H).
    apply bind_Ok in H as (labels & _ & H).
    apply bind_Ok in H as (dataset & _ & H).
    inversion H; subst. unfold set_r_dataset. simpl. apply lookup_insert_eq.
  - apply (datasetMonthlyTypes_again 10 Sample.ledger
             (Report_iadd (Report_init 0%nat (mkDate 2018 3 8) (mkDate 2018 4 1)) 1%nat)
             (mkDate 2018 3 8) (mkDate 2018 4 1) ds r1).
    exact E.
Qed.

(** ** The expression evaluator *)

(** C1 (the code departs from it).  With the default precision 2 and enough
    fuel the first two test vectors evaluate to [12.00] and [5.60].  The
    third, ["1-3/1.50"], raises [AttributeError]: the division branch asks
    the [operator] module for [div], which it does not have, so no quotient
    is computed at all. *)
Theorem C1_eval_decimal_vectors (n : nat) :
  eval_decimal (4 + n) "2*3-3*-2" 2 = Ok (mkDecimal false 1200 (-2)) /\
  rmap Decimal_str (eval_decimal (4 + n) "2*3-3*-2" 2) = Ok "12.00" /\
  eval_decimal (4 + n) "2*(1.3+1.5)" 2 = Ok (mkDecimal false 560 (-2)) /\
  rmap Decimal_str (eval_decimal (4 + n) "2*(1.3+1.5)" 2) = Ok "5.60" /\
  eval_decimal (S n) "1-3/1.50" 2 = Raise (AttributeError "div").
Proof. repeat split; vm_compute; reflexivity. Qed.

(** The tests of [value.py] that do not divide. *)
Lemma eval_decimal_tests :
  rmap Decimal_str (eval_decimal 9 "1,35-0,35+0.5" 2) = Ok "1.50" /\
  rmap Decimal_str (eval_decimal 9 "-1,35-0,2*-0.5" 2) = Ok "-1.25" /\
  rmap Decimal_str (eval_decimal 9 "2*3-3*2" 2) = Ok "0.00" /\
  rmap Decimal_str (eval_decimal 9 "2*3+3*-2" 2) = Ok "0.00" /\
  rmap Decimal_str (eval_decimal 9 "1.50 + 1.50" 2) = Ok "3.00" /\
  rmap Decimal_str (eval_decimal 9 "2 * ( 1 + 1 )" 2) = Ok "4.00" /\
  eval_decimal 9 "3 / 1.50" 2 = Raise (AttributeError "div").
Proof. repeat split; vm_compute; reflexivity. Qed.

(** ** The description filter *)

(** C2 (the code departs from it).  The item ["ab"] is the only item of a
    transaction with an empty description.  The pattern [ab] matches the
    item's description, yet the filter rejects the item: it searches the
    one-character strings ["a"] and ["b"] instead of the description. *)
Theorem C2_FilterRegexpDescr_own_description :
  literal "ab" (i_descr (items Sample.lone_item 0%nat)) = true /\
  accepted (FilterRegexpDescr (literal "ab")) Sample.lone_item (EItem 0%nat) = Ok false /\
  accepted (FilterRegexpDescr (literal "ab")) Sample.lone_item (ETransaction 0%nat) = Ok true.
Proof. repeat split; vm_compute; reflexivity. Qed.

(** What the item case searches: the characters of the item's description,
    one by one, then the transaction's description, then the descriptions of
    the other items of the transaction. *)
Lemma FilterRegexpDescr_item re st i t :
  i_transaction (items st i) = Some t ->
  accepted (FilterRegexpDescr re) st (EItem i) =
  search_any re
    (List.map Some (chars (i_descr (items st i)))
     ++ [t_descr (transactions st t)]
     ++ List.map (fun j => Some (i_descr (items st j)))
          (List.filter (fun j => negb (Nat.eqb j i)) (t_items (transactions st t))))%list.
Proof. intros H. simpl. rewrite H. reflexivity. Qed.

(** ** Sorted and capped values of a group *)

(** ** Sums within the precision of the context *)

Lemma N_digits_length fuel :
  forall (n : N) (acc : string) (k : nat),
    (1 <= k)%nat -> (n < 10 ^ N.of_nat k)%N ->
    (nlen (N_digits fuel n acc) <= nlen acc + k)%nat.
Proof.
  induction fuel as [|fuel IH]; intros n acc k Hk Hn; cbn [N_digits]; [lia|].
  destruct (N.ltb_spec n 10) as [H|H].
  - unfold nlen. cbn [String.length]. lia.
  - destruct k as [|[|k]]; [lia| |].
    + change (10 ^ N.of_nat 1)%N with 10%N in Hn. lia.
    + assert (Hd : (n / 10 < 10 ^ N.of_nat (S k))%N).
      { apply N.Div0.div_lt_upper_bound.
        replace (N.of_nat (S (S k))) with (N.succ (N.of_nat (S k))) in Hn by lia.
        now rewrite N.pow_succ_r' in Hn. }
      specialize (IH (n / 10)%N (String (digit_char (n mod 10)) acc) (S k) ltac:(lia) Hd).
      unfold nlen in *. cbn [String.length] in IH. lia.
Qed.

Lemma ndigits_small n : (n < 10 ^ 28)%N -> (ndigits n <= prec28)%nat.
Proof.
  intros H. unfold ndigits, N_to_string, prec28.
  apply (N_digits_length _ n EmptyString 28); [lia | exact H].
Qed.

Lemma fix_small d : (d_int d < 10 ^ 28)%N -> fix_ d = d.
Proof.
  intros H. unfold fix_.
  now rewrite (proj2 (Nat.leb_le _ _) (ndigits_small _ H)).
Qed.

Lemma signed_coeff_of z :
  signed_coeff (mkDecimal (z <? 0) (Z.to_N (Z.abs z)) (-2)) = z.
Proof.
  unfold signed_coeff. cbn [d_neg d_int]. rewrite Z2N.id by lia.
  destruct (Z.ltb_spec z 0); lia.
Qed.

(** A sum of fewer than 29 digits is not rounded. *)
Lemma plus_exact a b : Z.abs (a + b) < precision_limit -> plus a b = a + b.
Proof.
  unfold precision_limit. intros H. unfold plus, dec_add, amount.
  cbn [d_exp d_neg d_int]. rewrite !signed_coeff_of.
  change (Z.min (-2) (-2)) with (-2). change (-2 - -2) with 0.
  change (Z.of_N (pow10 0)) with 1. rewrite !Z.mul_1_r.
  assert (S : (Z.to_N (Z.abs (a + b)) < 10 ^ 28)%N).
  { change (10 ^ 28)%N with (Z.to_N (10 ^ 28)). apply Z2N.inj_lt; lia. }
  destruct (Z.eqb_spec (a + b) 0) as [E|E].
  - rewrite fix_small by (cbn [d_int]; reflexivity).
    unfold hundredths, signed_coeff. cbn [d_neg d_int d_exp].
    rewrite E. now destruct (_ && _).
  - rewrite fix_small by exact S.
    unfold hundredths. rewrite signed_coeff_of. cbn [d_exp].
    change (10 ^ (-2 + 2)) with 1. lia.
Qed.

(** A sum of 29 digits is rounded: three values of 28 digits, the third
    the first negated, do not add up to the second. *)
Lemma plus_rounds :
  plus (plus 9999999999999999999999999999 9999999999999999999999999999)
       (-9999999999999999999999999999)
  = 10000000000000000000000000000.
Proof. vm_compute. reflexivity. Qed.

Lemma magnitude_nonneg l : 0 <= magnitude l.
Proof. induction l as [|x l IH]; cbn [magnitude fold_right]; [lia|]. fold (magnitude l). lia. Qed.

Lemma exact_sum_magnitude l : Z.abs (exact_sum l) <= magnitude l.
Proof.
  induction l as [|x l IH]; cbn [exact_sum magnitude fold_right]; [lia|].
  fold (exact_sum l) (magnitude l). lia.
Qed.

Lemma exact_sum_app l1 l2 : exact_sum (l1 ++ l2) = exact_sum l1 + exact_sum l2.
Proof.
  induction l1 as [|x l1 IH]; cbn [app exact_sum fold_right]; [reflexivity|].
  fold (exact_sum (l1 ++ l2)) (exact_sum l1). lia.
Qed.

Lemma magnitude_app l1 l2 : magnitude (l1 ++ l2) = magnitude l1 + magnitude l2.
Proof.
  induction l1 as [|x l1 IH]; cbn [app magnitude fold_right]; [reflexivity|].
  fold (magnitude (l1 ++ l2)) (magnitude l1). lia.
Qed.

Lemma exact_sum_perm l l' : Permutation l l' -> exact_sum l = exact_sum l'.
Proof.
  induction 1 as [|x l l' _ IH|x y l|l l' l'' _ IH1 _ IH2]; cbn [exact_sum fold_right];
    [reflexivity| | |congruence].
  - fold (exact_sum l) (exact_sum l'). lia.
  - fold (exact_sum l). lia.
Qed.

Lemma magnitude_perm l l' : Permutation l l' -> magnitude l = magnitude l'.
Proof.
  induction 1 as [|x l l' _ IH|x y l|l l' l'' _ IH1 _ IH2]; cbn [magnitude fold_right];
    [reflexivity| | |congruence].
  - fold (magnitude l) (magnitude l'). lia.
  - fold (magnitude l). lia.
Qed.

(** The sums of [sum], from the left and starting from an accumulator,
    within the precision: no step rounds. *)
Lemma fold_plus_exact {A : Type} (f : A -> Z) (l : list A) :
  forall s, Z.abs s + magnitude (List.map f l) < precision_limit ->
            fold_left (fun s x => plus s (f x)) l s = s + exact_sum (List.map f l).
Proof.
  induction l as [|x l IH]; intros s H; cbn [fold_left List.map exact_sum fold_right].
  - lia.
  - cbn [List.map magnitude fold_right] in H. fold (magnitude (List.map f l)) in H.
    fold (exact_sum (List.map f l)).
    pose proof (magnitude_nonneg (List.map f l)).
    rewrite plus_exact by lia. rewrite IH by lia. lia.
Qed.


Lemma precision_limit_pos : 0 < precision_limit.
Proof. reflexivity. Qed.

Lemma sum_values_exact l :
  magnitude (List.map v_value l) < precision_limit ->
  sum_values l = exact_sum (List.map v_value l).
Proof.
  intros H. unfold sum_values. rewrite fold_plus_exact by (cbn [Z.abs]; lia). lia.
Qed.


Lemma getBalance_exact st t :
  magnitude (values_of st (t_items (transactions st t))) < precision_limit ->
  getBalance st t = exact_sum (values_of st (t_items (transactions st t))).
Proof.
  intros H. unfold getBalance, values_of in *.
  rewrite (fold_plus_exact (fun i => i_value (items st i))) by (cbn [Z.abs]; lia). lia.
Qed.

(** The absolute values of a part of a list add up to no more than those
    of the list. *)
Lemma magnitude_filter {A : Type} (f : A -> Z) (p : A -> bool) (l : list A) :
  magnitude (List.map f (List.filter p l)) <= magnitude (List.map f l).
Proof.
  induction l as [|x l IH]; cbn [List.filter List.map]; [reflexivity|].
  destruct (p x); cbn [List.map magnitude fold_right];
    fold (magnitude (List.map f l)); fold (magnitude (List.map f (List.filter p l))); lia.
Qed.

Lemma magnitude_firstn l n : magnitude (firstn n l) <= magnitude l.
Proof.
  revert n. induction l as [|x l IH]; intros n.
  - rewrite firstn_nil. reflexivity.
  - destruct n as [|n]; cbn [firstn magnitude fold_right]; fold (magnitude l).
    + pose proof (magnitude_nonneg l). lia.
    + fold (magnitude (firstn n l)). specialize (IH n). lia.
Qed.

Lemma magnitude_skipn l n : magnitude (skipn n l) <= magnitude l.
Proof.
  revert n. induction l as [|x l IH]; intros n.
  - rewrite skipn_nil. reflexivity.
  - destruct n as [|n]; cbn [skipn]; [reflexivity|].
    cbn [magnitude fold_right]. fold (magnitude l). specialize (IH n). lia.
Qed.

(** ** The values of a group in descending order *)

Section SortedValues.

Lemma insert_desc_perm v l : Permutation (insert_desc v l) (v :: l).
Proof.
  induction l as [|y l IH]; simpl; [reflexivity|].
  destruct (v_value v <? v_value y).
  - rewrite IH. apply perm_swap.
  - reflexivity.
Qed.

Lemma sort_desc_perm l : Permutation (sort_desc l) l.
Proof.
  induction l as [|x l IH]; simpl; [reflexivity|].
  rewrite insert_desc_perm. now constructor.
Qed.

Lemma insert_desc_sorted v l :
  StronglySorted value_ge l -> StronglySorted value_ge (insert_desc v l).
Proof.
  induction 1 as [|y l Hs IH Hy]; simpl.
  - repeat constructor.
  - destruct (v_value v <? v_value y) eqn:E.
    + apply Z.ltb_lt in E. constructor; [exact IH|].
      rewrite List.Forall_forall in *. intros z Hz.
      apply (Permutation_in _ (insert_desc_perm v l)) in Hz.
      destruct Hz as [<- | Hz]; [unfold value_ge; lia | auto].
    + apply Z.ltb_ge in E. constructor; [now constructor|].
      constructor; [exact E|].
      rewrite List.Forall_forall in *. intros z Hz.
      specialize (Hy z Hz). unfold value_ge in *. lia.
Qed.

Lemma sort_desc_sorted l : StronglySorted value_ge (sort_desc l).
Proof.
  induction l as [|x l IH]; simpl; [constructor | now apply insert_desc_sorted].
Qed.

Lemma sort_desc_length l : List.length (sort_desc l) = List.length l.
Proof. apply Permutation_length, sort_desc_perm. Qed.

End SortedValues.

(** C3, as the code has it.  For a positive cap [m] smaller than the number
    of non-zero values of a group whose amounts are within the precision,
    [sorted m] works on the non-zero values in descending order of their
    signed value.  It returns the first [m - 1] of them, followed by one
    value labelled ["..."], without items, whose amount is the sum of the
    values from rank [m + 2] on, and only when that sum is not zero.  The
    values [a] and [b] of the ranks [m] and [m + 1] are not zero and are in
    neither part: the slices [vals\[:maxNof - 1\]] and [vals\[maxNof + 1:\]]
    leave them out. *)
Theorem C3_sorted_drops_two_values (g : ReportDatasetGroup) (m : nat) :
  (0 < m)%nat ->
  (m < List.length (nonzero_values g))%nat ->
  magnitude (List.map v_value (grp_values g)) < precision_limit ->
  exists a b tail,
    sort_desc (nonzero_values g)
    = (firstn (m - 1) (sort_desc (nonzero_values g)) ++ a :: b :: tail)%list /\
    StronglySorted value_ge (sort_desc (nonzero_values g)) /\
    Permutation (sort_desc (nonzero_values g)) (nonzero_values g) /\
    v_value a <> 0 /\ v_value b <> 0 /\
    sorted g m
    = (firstn (m - 1) (sort_desc (nonzero_values g))
       ++ (if exact_sum (List.map v_value tail) =? 0 then []
           else [mkValue "..." (exact_sum (List.map v_value tail)) []]))%list.
Proof.
  intros Hm Hlen Hmag. set (vals := sort_desc (nonzero_values g)).
  assert (Hl : List.length vals = List.length (nonzero_values g)) by apply sort_desc_length.
  assert (P : Permutation vals (nonzero_values g)) by apply sort_desc_perm.
  destruct (skipn (m - 1) vals) as [|a [|b tail]] eqn:E.
  - apply (f_equal (@List.length _)) in E. rewrite length_skipn in E. simpl in E. lia.
  - apply (f_equal (@List.length _)) in E. rewrite length_skipn in E. simpl in E. lia.
  - assert (T : skipn (m + 1) vals = tail).
    { replace (m + 1)%nat with (2 + (m - 1))%nat by lia.
      rewrite <- skipn_skipn, E. reflexivity. }
    assert (V : vals = (firstn (m - 1) vals ++ a :: b :: tail)%list).
    { rewrite <- E. symmetry. apply firstn_skipn. }
    assert (NZ : forall v, In v vals -> v_value v <> 0).
    { intros v Hv. apply (Permutation_in _ P) in Hv. unfold nonzero_values in Hv.
      apply filter_In in Hv as [_ Hv]. apply negb_true_iff in Hv. now apply Z.eqb_neq. }
    assert (S : sum_values tail = exact_sum (List.map v_value tail)).
    { apply sum_values_exact. rewrite <- T.
      rewrite <- skipn_map.
      pose proof (magnitude_skipn (List.map v_value vals) (m + 1)).
      pose proof (magnitude_perm _ _ (Permutation_map v_value P)).
      pose proof (magnitude_filter v_value (fun v => negb (v_value v =? 0)) (grp_values g)).
      unfold nonzero_values in *. lia. }
    exists a, b, tail. split; [exact V|].
    split; [apply sort_desc_sorted|]. split; [exact P|].
    split; [apply NZ; rewrite V; apply in_or_app; right; now left|].
    split; [apply NZ; rewrite V; apply in_or_app; right; right; now left|].
    unfold sorted. fold (nonzero_values g). fold vals.
    assert (E1 : (m =? 0)%nat = false) by (apply Nat.eqb_neq; lia).
    assert (E2 : (m <? List.length vals)%nat = true) by (apply Nat.ltb_lt; lia).
    rewrite E1, E2. cbn [negb andb]. rewrite T, S.
    destruct (exact_sum (List.map v_value tail) =? 0); cbn [negb];
      [now rewrite app_nil_r | reflexivity].
Qed.

Lemma C3_sorted_drops_two_values_witness :
  exists a b tail,
    sort_desc (nonzero_values Sample.five_values)
    = (firstn 1 (sort_desc (nonzero_values Sample.five_values)) ++ a :: b :: tail)%list /\
    StronglySorted value_ge (sort_desc (nonzero_values Sample.five_values)) /\
    Permutation (sort_desc (nonzero_values Sample.five_values))
                (nonzero_values Sample.five_values) /\
    v_value a <> 0 /\ v_value b <> 0 /\
    sorted Sample.five_values 2
    = (firstn 1 (sort_desc (nonzero_values Sample.five_values))
       ++ (if exact_sum (List.map v_value tail) =? 0 then []
           else [mkValue "..." (exact_sum (List.map v_value tail)) []]))%list.
Proof.
  apply (C3_sorted_drops_two_values Sample.five_values 2).
  - lia.
  - vm_compute. lia.
  - vm_compute. reflexivity.
Defined.

(** C3 on two groups.  The group of 1, 5, 3, 4 and 2 with the cap 2: the
    result is 5 followed by a remainder of 3; the values 4 and 3 are in
    neither, and the amounts returned add up to 8, not to the 15 of the
    group, where the value 5 followed by a remainder of 10 has them all.
    The group of 5, 4, 3, 1 and -1 with the cap 2: the result is 5 alone,
    since the values 1 and -1 that are summed cancel; 4 and 3 are lost. *)
Lemma C3_counterexample :
  (0 < 2 < List.length (grp_values Sample.five_values))%nat /\
  sorted Sample.five_values 2 = [mkValue "b" 5 []; mkValue "..." 3 []] /\
  exact_sum (List.map v_value (sorted Sample.five_values 2)) = 8 /\
  exact_sum (List.map v_value (grp_values Sample.five_values)) = 15 /\
  (0 < 2 < List.length (grp_values Sample.zero_rest))%nat /\
  sorted Sample.zero_rest 2 = [mkValue "a" 5 []] /\
  exact_sum (List.map v_value (grp_values Sample.zero_rest)) = 12.
Proof.
  split; [simpl; lia|]. split; [vm_compute; reflexivity|].
  split; [vm_compute; reflexivity|]. split; [reflexivity|].
  split; [simpl; lia|]. split; vm_compute; reflexivity.
Qed.

(** ** The filter algebra *)

Section FilterFacts.
Context {W O : Type}.
Implicit Types (f : FilterCore.Filter W O) (w : W) (obj : O).

(** Induction on a filter, with the sub-filters as induction hypotheses. *)
Section Induction.
Variable P : FilterCore.Filter W O -> Prop.
Hypothesis step : forall op fs p, Forall P fs -> P (mkFilter op fs p).

Fixpoint Filter_rect_nested (f : FilterCore.Filter W O) : P f :=
  match f with
  | mkFilter op fs p =>
      step op fs p
        ((fix all (l : list (FilterCore.Filter W O)) : Forall P l :=
            match l with
            | [] => @List.Forall_nil _ P
            | x :: l' => @List.Forall_cons _ P x l' (Filter_rect_nested x) (all l')
            end) fs)
  end.
End Induction.

Lemma accepted_combined o f0 rest p w obj :
  accepted (mkFilter (Some o) (f0 :: rest) p) w obj =
  bind (accepted f0 w obj) (accepted_loop o (fun f => accepted f w obj) rest).
Proof.
  simpl. destruct (accepted f0 w obj) as [a|e]; simpl; [|reflexivity].
  revert a. induction rest as [|f' fs' IH]; intros a; simpl; [reflexivity|].
  destruct (is_AND o && negb a); [reflexivity|].
  destruct (is_OR o && a); [reflexivity|].
  destruct (accepted f' w obj); simpl; [apply IH|reflexivity].
Qed.

Lemma rejected_combined o f0 rest p w obj :
  rejected (mkFilter (Some o) (f0 :: rest) p) w obj =
  bind (rejected f0 w obj) (rejected_loop o (fun f => rejected f w obj) rest).
Proof.
  simpl. destruct (rejected f0 w obj) as [a|e]; simpl; [|reflexivity].
  revert a. induction rest as [|f' fs' IH]; intros a; simpl; [reflexivity|].
  destruct (is_AND o && a); [reflexivity|].
  destruct (is_OR o && negb a); [reflexivity|].
  destruct (rejected f' w obj); simpl; [apply IH|reflexivity].
Qed.

(** The two loops are dual when the calls are. *)
Lemma loops_dual o w obj (fs : list (FilterCore.Filter W O)) :
  Forall (fun f => rejected f w obj = rmap negb (accepted f w obj)) fs ->
  forall a,
    rejected_loop o (fun f => rejected f w obj) fs (negb a) =
    rmap negb (accepted_loop o (fun f => accepted f w obj) fs a).
Proof.
  induction 1 as [|f fs Hf _ IH]; intros a; simpl; [reflexivity|].
  rewrite negb_involutive.
  destruct (is_AND o && negb a); [reflexivity|].
  destruct (is_OR o && a); [reflexivity|].
  rewrite Hf. destruct (accepted f w obj) as [a'|e]; simpl; [apply IH | reflexivity].
Qed.

(** [rejected] is the negation of [accepted], exceptions included. *)
Lemma rejected_accepted f w obj : rejected f w obj = rmap negb (accepted f w obj).
Proof.
  induction f as [op fs p IH] using Filter_rect_nested.
  destruct op as [o|]; [|reflexivity].
  destruct fs as [|f0 rest]; [reflexivity|].
  rewrite accepted_combined, rejected_combined.
  inversion IH as [|? ? H0 Hrest]; subst.
  rewrite H0. destruct (accepted f0 w obj) as [a|e]; simpl; [|reflexivity].
  now apply loops_dual.
Qed.

Lemma accepted_and f1 f2 w obj :
  accepted (filter_and f1 f2) w obj =
  bind (accepted f1 w obj) (fun a => if a then accepted f2 w obj else Ok false).
Proof.
  unfold filter_and, CombinedFilter. rewrite accepted_combined.
  destruct (accepted f1 w obj) as [[|]|e]; simpl; try reflexivity.
  destruct (accepted f2 w obj); reflexivity.
Qed.

Lemma accepted_or f1 f2 w obj :
  accepted (filter_or f1 f2) w obj =
  bind (accepted f1 w obj) (fun a => if a then Ok true else accepted f2 w obj).
Proof.
  unfold filter_or, CombinedFilter. rewrite accepted_combined.
  destruct (accepted f1 w obj) as [[|]|e]; simpl; try reflexivity.
  destruct (accepted f2 w obj); reflexivity.
Qed.

End FilterFacts.

(** C5.  Where [f1] and [f2] both answer on [x], [f1 & f2] answers with the
    conjunction and [f1 | f2] with the disjunction of their answers; and for
    every filter, leaf or combined, [rejected] is the negation of
    [accepted]. *)
Theorem C5_filter_algebra {W O : Type} (f1 f2 : FilterCore.Filter W O) (w : W) (x : O) (a b : bool) :
  accepted f1 w x = Ok a ->
  accepted f2 w x = Ok b ->
  accepted (filter_and f1 f2) w x = Ok (a && b) /\
  accepted (filter_or f1 f2) w x = Ok (a || b) /\
  (forall f : FilterCore.Filter W O, rejected f w x = rmap negb (accepted f w x)).
Proof.
  intros H1 H2. split; [|split].
  - rewrite accepted_and, H1. simpl. destruct a; [exact H2 | reflexivity].
  - rewrite accepted_or, H1. simpl. destruct a; [reflexivity | exact H2].
  - intros f. apply rejected_accepted.
Qed.

Lemma C5_filter_algebra_witness :
  let f1 := FilterGreaterOrEqualDate (mkDate 2018 3 1) in
  let f2 := FilterLessOrEqualDate (mkDate 2018 3 31) in
  accepted (filter_and f1 f2) Sample.ledger (ETransaction 1%nat) = Ok (true && false) /\
  accepted (filter_or f1 f2) Sample.ledger (ETransaction 1%nat) = Ok (true || false) /\
  (forall f, rejected f Sample.ledger (ETransaction 1%nat)
             = rmap negb (accepted f Sample.ledger (ETransaction 1%nat))).
Proof.
  intros f1 f2. apply (C5_filter_algebra f1 f2); reflexivity.
Defined.


(** ** Renaming an account *)

Lemma split_no_separator (sep : ascii) (s : string) :
  has_char sep s = false -> split sep s = [s].
Proof.
  induction s as [|c s IH]; simpl; [reflexivity|].
  intros H. apply orb_false_iff in H as [Hc Hs].
  rewrite Ascii.eqb_sym, Hc, (IH Hs). reflexivity.
Qed.

Lemma children_contain_name n st children key :
  has_char SEPARATOR key = false ->
  children_contain (S n) st children key =
  Ok (existsb (fun c => String.eqb key (a_name (accounts st c))) children).
Proof.
  intros H. cbn [children_contain]. rewrite (split_no_separator SEPARATOR key H).
  induction children as [|c cs IH]; simpl; [reflexivity|].
  destruct (String.eqb key (a_name (accounts st c))); [reflexivity | exact IH].
Qed.

Lemma name_taken st l newName :
  existsb (fun c => String.eqb newName (a_name (accounts st c))) l = true <->
  exists c, In c l /\ a_name (accounts st c) = newName.
Proof.
  rewrite existsb_exists. split; intros (c & Hc & E); exists c; split; trivial.
  - apply String.eqb_eq in E. now symmetry.
  - apply String.eqb_eq. now symmetry.
Qed.

Lemma setName_eq st self newName :
  has_char SEPARATOR newName = false ->
  setName st self newName =
  if existsb (fun c => String.eqb newName (a_name (accounts st c))) (name_family st self)
  then Ok (false, st)
  else if negb (String.eqb (a_name (accounts st self)) newName)
       then Ok (true, set_a_name st self newName)
       else Ok (true, st).
Proof.
  intros H. unfold setName, name_family, Account_contains, Database_contains. rewrite H.
  destruct (a_parentAccount (accounts st self)) as [parent|].
  - rewrite children_contain_name by exact H. reflexivity.
  - destruct (a_db (accounts st self)) as [db|].
    + rewrite children_contain_name by exact H. reflexivity.
    + reflexivity.
Qed.

(** C6, as the code has it.  [setName] returns [False] and changes nothing
    if the new name contains the separator or is the name of a child of the
    account's parent (of the database, for an account attached to it
    directly), the account itself being one of these children.  In every
    other case it returns [True], the account has the new name, and no other
    account is changed. *)
Theorem C6_setName (st : Store) (self : ref) (newName : string) :
  let blocked :=
    has_char SEPARATOR newName = true \/
    exists c, In c (name_family st self) /\ a_name (accounts st c) = newName in
  (blocked -> setName st self newName = Ok (false, st)) /\
  (~ blocked ->
   exists st', setName st self newName = Ok (true, st') /\
               a_name (accounts st' self) = newName /\
               forall a, a <> self -> accounts st' a = accounts st a).
Proof.
  intros blocked. subst blocked. split.
  - intros [H | H].
    + unfold setName. rewrite H. reflexivity.
    + destruct (has_char SEPARATOR newName) eqn:E.
      * unfold setName. rewrite E. reflexivity.
      * rewrite setName_eq by exact E. apply name_taken in H. rewrite H. reflexivity.
  - intros H.
    destruct (has_char SEPARATOR newName) eqn:E; [exfalso; apply H; now left|].
    rewrite setName_eq by exact E.
    destruct (existsb _ (name_family st self)) eqn:E2.
    + exfalso. apply H. right. now apply name_taken.
    + destruct (String.eqb (a_name (accounts st self)) newName) eqn:E3; simpl.
      * exists st. split; [reflexivity|]. split; [now apply String.eqb_eq | reflexivity].
      * exists (set_a_name st self newName). split; [reflexivity|]. split.
        -- simpl. unfold upd. rewrite Nat.eqb_refl. reflexivity.
        -- intros a Ha. simpl. unfold upd.
           destruct (Nat.eqb a self) eqn:E4; [apply Nat.eqb_eq in E4; contradiction | reflexivity].
Qed.

Lemma C6_setName_witness :
  setName Sample.ledger 1%nat "Bar" = Ok (false, Sample.ledger) /\
  exists st', setName Sample.ledger 1%nat "Baz" = Ok (true, st') /\
              a_name (accounts st' 1%nat) = "Baz" /\
              forall a, a <> 1%nat -> accounts st' a = accounts Sample.ledger a.
Proof.
  split.
  - apply (proj1 (C6_setName Sample.ledger 1%nat "Bar")).
    right. exists 2%nat. split; [simpl; tauto | reflexivity].
  - apply (proj2 (C6_setName Sample.ledger 1%nat "Baz")).
    intros [H | (c & Hc & E)]; [discriminate|].
    simpl in Hc. destruct Hc as [<- | [<- | []]]; discriminate.
Defined.

(** C6 as stated fails.  [Foo] is a child of [Root]; its only sibling is
    [Bar].  The name ["Foo"] has no separator and is the name of no other
    child of [Root], yet [setName("Foo")] on [Foo] returns [False]. *)
Lemma C6_counterexample :
  has_char SEPARATOR "Foo" = false /\
  a_parentAccount (accounts Sample.ledger 1%nat) = Some 0%nat /\
  (forall c, In c (a_childAccounts (accounts Sample.ledger 0%nat)) -> c <> 1%nat ->
             a_name (accounts Sample.ledger c) <> "Foo") /\
  setName Sample.ledger 1%nat "Foo" = Ok (false, Sample.ledger).
Proof.
  split; [reflexivity|]. split; [reflexivity|]. split; [|reflexivity].
  intros c Hc Hne. simpl in Hc. destruct Hc as [<- | [<- | []]]; [contradiction | discriminate].
Qed.


(** ** The order of dates *)

Ltac date_cases :=
  unfold date_leb, date_ltb, date_eqb, date_compare in *;
  cbn [year month day] in *;
  repeat match goal with
         | |- context [?a ?= ?b] => destruct (Z.compare_spec a b)
         | H : context [?a ?= ?b] |- _ => destruct (Z.compare_spec a b)
         end;
  try discriminate; try reflexivity; try lia.

Lemma date_leb_refl a : date_leb a a = true.
Proof. date_cases. Qed.

Lemma date_leb_trans a b c : date_leb a b = true -> date_leb b c = true -> date_leb a c = true.
Proof. intros H1 H2. date_cases. Qed.

Lemma date_ltb_leb a b : date_ltb a b = true -> date_leb a b = true.
Proof. intros H. date_cases. Qed.

Lemma date_ltb_false a b : date_ltb a b = false -> date_leb b a = true.
Proof. intros H. date_cases. Qed.

Lemma date_ltb_trans a b c : date_ltb a b = true -> date_ltb b c = true -> date_ltb a c = true.
Proof. intros H1 H2. date_cases. Qed.

Lemma date_ltb_irrefl a : date_ltb a a = false.
Proof. date_cases. Qed.

Lemma date_ltb_not_leb a b : date_ltb a b = true -> date_leb b a = false.
Proof. intros H. date_cases. Qed.

Lemma date_eqb_eq a b : date_eqb a b = true <-> a = b.
Proof.
  split.
  - intros H. destruct a as [ya ma da], b as [yb mb db]. simpl in *.
    unfold date_eqb, date_compare in H. simpl in H.
    destruct (Z.compare_spec ya yb); try discriminate.
    destruct (Z.compare_spec ma mb); try discriminate.
    destruct (Z.compare_spec da db); try discriminate.
    congruence.
  - intros ->. date_cases.
Qed.

(** ** Sorting the transactions of a database *)

Lemma insert_by_date_perm st t l : Permutation (insert_by_date st t l) (t :: l).
Proof.
  induction l as [|y l IH]; simpl; [reflexivity|].
  destruct (date_key_ltb _ _); [|reflexivity].
  rewrite IH. apply perm_swap.
Qed.

Lemma sort_by_date_perm st l : Permutation (sort_by_date st l) l.
Proof.
  induction l as [|x l IH]; simpl; [reflexivity|].
  rewrite insert_by_date_perm. now constructor.
Qed.

Lemma trn_le_trans st a b c : trn_le st a b -> trn_le st b c -> trn_le st a c.
Proof.
  unfold trn_le.
  destruct (t_date (transactions st a)), (t_date (transactions st b)),
    (t_date (transactions st c)); try tauto.
  apply date_leb_trans.
Qed.

Lemma insert_by_date_sorted st t l :
  dated st t -> List.Forall (dated st) l ->
  StronglySorted (trn_le st) l -> StronglySorted (trn_le st) (insert_by_date st t l).
Proof.
  intros Ht Hl Hs. induction Hs as [|y l Hs IH Hy]; simpl.
  - repeat constructor.
  - inversion Hl as [|? ? Hdy Hl']; subst.
    unfold dated in Ht, Hdy.
    destruct (date_key_ltb _ _) eqn:E.
    + constructor; [now apply IH|].
      rewrite List.Forall_forall in *. intros z Hz.
      apply (Permutation_in _ (insert_by_date_perm st t l)) in Hz.
      destruct Hz as [<- | Hz]; [|auto].
      unfold trn_le, date_key_ltb in *.
      destruct (t_date (transactions st y)), (t_date (transactions st t)); try discriminate.
      now apply date_ltb_leb.
    + assert (Hty : trn_le st t y).
      { unfold trn_le, date_key_ltb in *.
        destruct (t_date (transactions st y)), (t_date (transactions st t)); try congruence.
        now apply date_ltb_false. }
      constructor; [now constructor|]. constructor; [exact Hty|].
      rewrite List.Forall_forall in *. intros z Hz.
      eapply trn_le_trans; [exact Hty | auto].
Qed.

Lemma sort_by_date_sorted st l :
  List.Forall (dated st) l -> StronglySorted (trn_le st) (sort_by_date st l).
Proof.
  induction 1 as [|x l Hx Hl IH]; simpl; [constructor|].
  apply insert_by_date_sorted; trivial.
  rewrite List.Forall_forall in *. intros z Hz.
  apply Hl. apply (Permutation_in _ (sort_by_date_perm st l)). exact Hz.
Qed.

Lemma has_no_date_false st l :
  List.Forall (dated st) l -> existsb (has_no_date st) l = false.
Proof.
  induction 1 as [|x l Hx _ IH]; simpl; [reflexivity|].
  rewrite IH. unfold has_no_date, dated in *.
  destruct (t_date (transactions st x)); [reflexivity | congruence].
Qed.

(** [sortTransactions] on dated transactions returns, and leaves the list of
    the database sorted, with the same transactions; nothing else changes. *)
Lemma sortTransactions_spec st db :
  List.Forall (dated st) (db_transactions (databases st db)) ->
  exists st',
    sortTransactions st db = Ok st' /\
    transactions st' = transactions st /\
    sorted_by_date st' db /\
    Permutation (db_transactions (databases st' db)) (db_transactions (databases st db)) /\
    db_parsing (databases st' db) = db_parsing (databases st db).
Proof.
  intros H. unfold sortTransactions. rewrite (has_no_date_false _ _ H), andb_false_r.
  eexists. split; [reflexivity|]. split; [reflexivity|].
  unfold sorted_by_date. simpl. unfold upd. rewrite Nat.eqb_refl. simpl.
  split; [|split; [apply sort_by_date_perm | reflexivity]].
  exact (sort_by_date_sorted st _ H).
Qed.

Lemma remove_sorted (R : ref -> ref -> Prop) x l :
  StronglySorted R l -> StronglySorted R (Ledger.remove x l).
Proof.
  induction 1 as [|y l Hs IH Hy]; simpl; [constructor|].
  destruct (Nat.eqb x y); [exact Hs|].
  constructor; [exact IH|].
  rewrite List.Forall_forall in *. intros z Hz. apply Hy.
  clear -Hz. induction l as [|w l IHl]; simpl in *; [contradiction|].
  destruct (Nat.eqb x w); [now right|].
  destruct Hz as [<- | Hz]; [now left | right; auto].
Qed.

(** ** Attaching and detaching transactions *)

Lemma same_dates_refl st : same_dates st st.
Proof. intros x. reflexivity. Qed.

Lemma same_dates_trans a b c : same_dates a b -> same_dates b c -> same_dates a c.
Proof. intros H1 H2 x. now rewrite H2, H1. Qed.

Lemma only_db_of_refl t st : only_db_of t st st.
Proof. repeat split. Qed.

Lemma only_db_of_trans t a b c : only_db_of t a b -> only_db_of t b c -> only_db_of t a c.
Proof.
  intros (H1 & H2 & H3) (K1 & K2 & K3). split; [eapply same_dates_trans; eassumption|].
  split; intros x; [now rewrite K2, H2 | intros Hx; now rewrite K3, H3].
Qed.

Lemma only_db_of_set_t_db st t d : only_db_of t st (set_t_db st t d).
Proof.
  split; [|split]; intros x; simpl; unfold upd.
  - destruct (Nat.eqb x t) eqn:E; [|reflexivity]. apply Nat.eqb_eq in E. now subst.
  - destruct (Nat.eqb x t) eqn:E; [|reflexivity]. apply Nat.eqb_eq in E. now subst.
  - intros Hx. apply Nat.eqb_neq in Hx. now rewrite Hx.
Qed.

Lemma only_db_of_set_db_transactions t st d l : only_db_of t st (set_db_transactions st d l).
Proof. repeat split. Qed.

Lemma insert_by_date_same_dates st st' t l :
  same_dates st st' -> insert_by_date st' t l = insert_by_date st t l.
Proof.
  intros H. induction l as [|y l IH]; simpl; [reflexivity|].
  rewrite !H, IH. reflexivity.
Qed.

Lemma sort_by_date_same_dates st st' l :
  same_dates st st' -> sort_by_date st' l = sort_by_date st l.
Proof.
  intros H. unfold sort_by_date. induction l as [|y l IH]; simpl; [reflexivity|].
  rewrite IH. now apply insert_by_date_same_dates.
Qed.

Lemma same_dates_sorted st st' l :
  same_dates st st' -> StronglySorted (trn_le st) l -> StronglySorted (trn_le st') l.
Proof.
  intros H. apply StronglySorted_ind; [constructor|].
  intros a l0 Hs IH Ha. constructor; [exact IH|].
  rewrite List.Forall_forall in *. intros z Hz. specialize (Ha z Hz).
  unfold trn_le in *. now rewrite !H.
Qed.

Lemma same_dates_dated st st' l :
  same_dates st st' -> List.Forall (dated st) l -> List.Forall (dated st') l.
Proof.
  intros H. apply List.Forall_impl. intros a. unfold dated. now rewrite H.
Qed.

Lemma databases_set_t_db st t d : databases (set_t_db st t d) = databases st.
Proof. reflexivity. Qed.

Lemma db_transactions_set_same st d l :
  db_transactions (databases (set_db_transactions st d l) d) = l.
Proof. simpl. unfold upd. now rewrite Nat.eqb_refl. Qed.

Lemma db_parsing_set_same st d l :
  db_parsing (databases (set_db_transactions st d l) d) = db_parsing (databases st d).
Proof. simpl. unfold upd. now rewrite Nat.eqb_refl. Qed.

Lemma databases_set_other st d l d' :
  d' <> d -> databases (set_db_transactions st d l) d' = databases st d'.
Proof. intros H. simpl. unfold upd. apply Nat.eqb_neq in H. now rewrite H. Qed.

Lemma t_db_set_t_db st t d : t_db (transactions (set_t_db st t d) t) = d.
Proof. simpl. unfold upd. now rewrite Nat.eqb_refl. Qed.

(** Detaching with enough fuel returns.  Among the transactions only the
    [_db] field of [t] may change; the other databases are untouched; the
    list of the database is the old one with occurrences of the transaction
    removed, and its bulk-load flag is the old one. *)
Lemma Database_isub_Transaction_frame n st db t :
  exists st',
    Database_isub_Transaction (4 + n) st db t = Ok st' /\
    only_db_of t st st' /\
    (forall d, d <> db -> databases st' d = databases st d) /\
    db_parsing (databases st' db) = db_parsing (databases st db) /\
    exists k, db_transactions (databases st' db)
              = Nat.iter k (Ledger.remove t) (db_transactions (databases st db)).
Proof.
  cbn [Nat.add Database_isub_Transaction Transaction_isub_Database].
  destruct (mem t (db_transactions (databases st db))) eqn:E1.
  2:{ exists st. split; [reflexivity|]. split; [apply only_db_of_refl|].
      repeat split. now exists 0%nat. }
  set (st1 := set_db_transactions st db _).
  assert (F1 : only_db_of t st st1 /\
               (forall d, d <> db -> databases st1 d = databases st d) /\
               db_parsing (databases st1 db) = db_parsing (databases st db) /\
               db_transactions (databases st1 db)
               = Ledger.remove t (db_transactions (databases st db))).
  { subst st1. split; [apply only_db_of_set_db_transactions|].
    split; [intros d Hd; now apply databases_set_other|].
    split; [apply db_parsing_set_same | apply db_transactions_set_same]. }
  destruct F1 as (Fa & Fb & Fc & Fd).
  destruct (oref_eqb (Some db) (t_db (transactions st1 t))) eqn:E2.
  2:{ exists st1. repeat split; try apply Fa; trivial. exists 1%nat. exact Fd. }
  set (st2 := set_t_db st1 t None).
  assert (Ga : only_db_of t st st2).
  { eapply only_db_of_trans; [exact Fa | apply only_db_of_set_t_db]. }
  change (databases st2) with (databases st1).
  destruct (mem t (db_transactions (databases st1 db))) eqn:E3.
  2:{ exists st2. repeat split; try apply Ga; trivial. exists 1%nat. exact Fd. }
  set (st3 := set_db_transactions st2 db _).
  assert (E4 : oref_eqb (Some db) (t_db (transactions st3 t)) = false).
  { subst st3 st2. simpl. unfold upd. rewrite Nat.eqb_refl. reflexivity. }
  rewrite E4. exists st3. split; [reflexivity|].
  split; [eapply only_db_of_trans; [exact Ga | apply only_db_of_set_db_transactions]|].
  split.
  { intros d Hd. subst st3. rewrite databases_set_other by exact Hd.
    change (databases st2) with (databases st1). now apply Fb. }
  split.
  { subst st3. rewrite db_parsing_set_same. exact Fc. }
  subst st3. rewrite db_transactions_set_same.
  change (databases st2) with (databases st1). rewrite Fd. now exists 2%nat.
Qed.

Lemma oref_eqb_false_neq a b : oref_eqb (Some a) (Some b) = false -> b <> a.
Proof. simpl. intros H E. subst. now rewrite Nat.eqb_refl in H. Qed.

Lemma oref_eqb_true a b : oref_eqb (Some a) b = true -> b = Some a.
Proof.
  destruct b as [b|]; simpl; [|discriminate]. intros H. apply Nat.eqb_eq in H. now subst.
Qed.

(** [t += db] for a transaction already in the list of [db]: it returns,
    [t] belongs to [db] afterwards, and the database [db] does not change. *)
Lemma Transaction_iadd_Database_listed n st t db :
  mem t (db_transactions (databases st db)) = true ->
  exists st',
    Transaction_iadd_Database (S (4 + n)) st t db = Ok st' /\
    only_db_of t st st' /\
    t_db (transactions st' t) = Some db /\
    databases st' db = databases st db.
Proof.
  intros Hmem. cbn [Transaction_iadd_Database].
  destruct (oref_eqb (Some db) (t_db (transactions st t))) eqn:E; simpl negb; cbv iota.
  { exists st. split; [reflexivity|]. split; [apply only_db_of_refl|].
    split; [now apply oref_eqb_true | reflexivity]. }
  assert (Hstep : forall st1, only_db_of t st st1 -> databases st1 db = databases st db ->
    exists st', (let! st3 := Database_iadd_Transaction (4 + n) (set_t_db st1 t (Some db)) db t in
                 Ok (set_t_db st3 t (Some db))) = Ok st' /\
                only_db_of t st st' /\ t_db (transactions st' t) = Some db /\
                databases st' db = databases st db).
  { intros st1 Hd Hdb. cbn [Nat.add Database_iadd_Transaction].
    rewrite databases_set_t_db, Hdb, Hmem. simpl.
    eexists. split; [reflexivity|]. split; [|split; [apply t_db_set_t_db | exact Hdb]].
    eapply only_db_of_trans; [exact Hd|].
    eapply only_db_of_trans; apply only_db_of_set_t_db. }
  destruct (t_db (transactions st t)) as [old|] eqn:Eold.
  - apply oref_eqb_false_neq in E.
    destruct (Database_isub_Transaction_frame n st old t) as (st1 & -> & Hd & Hother & _).
    cbn [bind].
    apply Hstep.
    + eapply only_db_of_trans; [exact Hd | apply only_db_of_set_t_db].
    + rewrite databases_set_t_db. apply Hother. congruence.
  - cbn [bind]. apply Hstep; [apply only_db_of_refl | reflexivity].
Qed.

(** [db += t] for a transaction that is not in the list, outside bulk load,
    all dates present: the call returns, [t] belongs to [db], and the list is
    the old one with [t] appended, sorted. *)
Lemma Database_iadd_Transaction_new n st db t :
  db_parsing (databases st db) = false ->
  mem t (db_transactions (databases st db)) = false ->
  List.Forall (dated st) (t :: db_transactions (databases st db)) ->
  exists st',
    Database_iadd_Transaction (6 + n) st db t = Ok st' /\
    only_db_of t st st' /\
    t_db (transactions st' t) = Some db /\
    db_transactions (databases st' db)
      = sort_by_date st (db_transactions (databases st db) ++ [t]) /\
    sorted_by_date st' db /\
    db_parsing (databases st' db) = false.
Proof.
  intros Hp Hmem Hd.
  change (6 + n)%nat with (S (S (4 + n))). cbn [Database_iadd_Transaction].
  rewrite Hmem. simpl negb. cbv iota.
  set (st1 := set_db_transactions st db _).
  assert (Hm1 : mem t (db_transactions (databases st1 db)) = true).
  { subst st1. rewrite db_transactions_set_same. unfold mem.
    rewrite existsb_app. simpl. rewrite Nat.eqb_refl. now rewrite orb_true_r. }
  destruct (Transaction_iadd_Database_listed n st1 t db Hm1) as (st2 & -> & Hd2 & Hdb & Hdb2).
  cbn [bind]. rewrite Hdb2. subst st1. rewrite db_parsing_set_same, Hp. simpl negb. cbv iota.
  set (st1 := set_db_transactions st db _) in *.
  assert (Hl2 : db_transactions (databases st2 db) = (db_transactions (databases st db) ++ [t])%list).
  { rewrite Hdb2. subst st1. apply db_transactions_set_same. }
  assert (Hdd : only_db_of t st st2).
  { eapply only_db_of_trans; [apply only_db_of_set_db_transactions | exact Hd2]. }
  assert (Hdated : List.Forall (dated st2) (db_transactions (databases st2 db))).
  { rewrite Hl2. apply (same_dates_dated st st2 _ (proj1 Hdd)).
    inversion Hd; subst. apply Forall_app. split; [assumption | now constructor]. }
  unfold sortTransactions. rewrite (has_no_date_false _ _ Hdated), andb_false_r.
  eexists. split; [reflexivity|].
  split; [eapply only_db_of_trans; [exact Hdd | apply only_db_of_set_db_transactions]|].
  split; [exact Hdb|].
  split; [rewrite db_transactions_set_same, Hl2; apply sort_by_date_same_dates, Hdd|].
  split.
  - unfold sorted_by_date. rewrite db_transactions_set_same.
    exact (sort_by_date_sorted st2 _ Hdated).
  - rewrite db_parsing_set_same, Hdb2. subst st1. now rewrite db_parsing_set_same.
Qed.

(** [Transaction.setDate] with a date, on a transaction of the database
    [db] whose other transactions have dates: it returns, the transaction
    has the new date, and the list of [db] is sorted again. *)
Lemma setDate_spec st t d db :
  t_db (transactions st t) = Some db ->
  (forall x, In x (db_transactions (databases st db)) -> x <> t -> dated st x) ->
  exists st',
    setDate st t (Some d) = Ok st' /\
    transactions st' = transactions (set_t_date st t (Some d)) /\
    db_transactions (databases st' db)
      = sort_by_date (set_t_date st t (Some d)) (db_transactions (databases st db)) /\
    sorted_by_date st' db /\
    db_parsing (databases st' db) = db_parsing (databases st db).
Proof.
  intros Hdb Hd. unfold setDate.
  set (st1 := set_t_date st t (Some d)).
  assert (E : t_db (transactions st1 t) = Some db).
  { subst st1. simpl. unfold upd. rewrite Nat.eqb_refl. exact Hdb. }
  rewrite E.
  assert (Hdated : List.Forall (dated st1) (db_transactions (databases st1 db))).
  { rewrite List.Forall_forall. intros x Hx. unfold dated. subst st1. simpl. unfold upd.
    destruct (Nat.eqb x t) eqn:Ex; [discriminate|].
    apply Nat.eqb_neq in Ex. now apply Hd. }
  unfold sortTransactions. rewrite (has_no_date_false _ _ Hdated), andb_false_r.
  eexists. split; [reflexivity|]. split; [reflexivity|].
  rewrite db_transactions_set_same, db_parsing_set_same.
  split; [reflexivity|]. split; [|reflexivity].
  unfold sorted_by_date. rewrite db_transactions_set_same.
  exact (sort_by_date_sorted st1 _ Hdated).
Qed.

Lemma iter_remove_sorted R x k l :
  StronglySorted R l -> StronglySorted R (Nat.iter k (Ledger.remove x) l).
Proof. intros H. induction k; simpl; [exact H | now apply remove_sorted]. Qed.

(** ** Days before and after *)

Lemma days_in_month_bounds y m : 28 <= days_in_month y m <= 31.
Proof.
  unfold days_in_month.
  destruct (m =? 2); [destruct (is_leap y); lia|].
  destruct ((m =? 4) || (m =? 6) || (m =? 9) || (m =? 11)); lia.
Qed.

Lemma days_in_month_12 y : days_in_month y 12 = 31.
Proof. reflexivity. Qed.

Lemma next_day_spec d :
  calendar_day d -> calendar_day (next_day d) /\ date_ltb d (next_day d) = true.
Proof.
  destruct d as [y m dd]. unfold calendar_day, next_day. simpl. intros [Hm Hd].
  destruct (Z.ltb_spec dd (days_in_month y m)); simpl.
  - split; [lia|]. date_cases.
  - destruct (Z.ltb_spec m 12); simpl.
    + pose proof (days_in_month_bounds y (m + 1)). split; [lia|]. date_cases.
    + pose proof (days_in_month_bounds (y + 1) 1). split; [lia|]. date_cases.
Qed.

Lemma prev_day_spec d :
  calendar_day d -> calendar_day (prev_day d) /\ date_ltb (prev_day d) d = true.
Proof.
  destruct d as [y m dd]. unfold calendar_day, prev_day. simpl. intros [Hm Hd].
  destruct (Z.ltb_spec 1 dd); simpl.
  - split; [lia|]. date_cases.
  - destruct (Z.ltb_spec 1 m); simpl.
    + pose proof (days_in_month_bounds y (m - 1)). split; [lia|]. date_cases.
    + rewrite days_in_month_12. split; [lia|]. date_cases.
Qed.

Lemma sub_days_spec n d :
  calendar_day d ->
  calendar_day (sub_days (S n) d) /\ date_ltb (sub_days (S n) d) d = true.
Proof.
  intros H. induction n as [|n [IH1 IH2]].
  - apply prev_day_spec, H.
  - change (sub_days (S (S n)) d) with (prev_day (sub_days (S n) d)).
    destruct (prev_day_spec _ IH1) as [K1 K2]. split; [exact K1|].
    eapply date_ltb_trans; eassumption.
Qed.

Lemma sub_days_shift n d : sub_days (S n) d = sub_days n (prev_day d).
Proof. unfold sub_days. apply Nat.iter_succ_r. Qed.

Lemma date_ltb_asym a b : date_ltb a b = true -> date_ltb b a = false.
Proof. intros H. date_cases. Qed.

Lemma t_date_set_same st t d : t_date (transactions (set_t_date st t d) t) = d.
Proof. simpl. unfold upd. now rewrite Nat.eqb_refl. Qed.

Lemma t_date_set_other st t d x :
  x <> t -> t_date (transactions (set_t_date st t d) x) = t_date (transactions st x).
Proof. intros H. simpl. unfold upd. apply Nat.eqb_neq in H. now rewrite H. Qed.

Lemma mem_cons_false x y l : x <> y -> mem x l = false -> mem x (y :: l) = false.
Proof. intros H K. unfold mem in *. simpl. apply Nat.eqb_neq in H. now rewrite H, K. Qed.

(** ** The scenario of three transactions *)

(** Transactions dated [T], [T+1] and [T-5] are added in this order to an
    empty database: its list is then [T-5, T, T+1].  Moving the [T+1]
    transaction to [T-1] sorts the list to [T-5, T-1, T]. *)
Lemma three_transactions n st db t0 t1 t2 T :
  calendar_day T ->
  db_transactions (databases st db) = [] ->
  db_parsing (databases st db) = false ->
  t0 <> t1 -> t0 <> t2 -> t1 <> t2 ->
  t_date (transactions st t0) = Some T ->
  t_date (transactions st t1) = Some (add_days 1 T) ->
  t_date (transactions st t2) = Some (sub_days 5 T) ->
  exists st1 st2 st3 st4,
    Database_iadd_Transaction (6 + n) st db t0 = Ok st1 /\
    Database_iadd_Transaction (6 + n) st1 db t1 = Ok st2 /\
    Database_iadd_Transaction (6 + n) st2 db t2 = Ok st3 /\
    db_transactions (databases st3 db) = [t2; t0; t1] /\
    setDate st3 t1 (Some (sub_days 1 T)) = Ok st4 /\
    db_transactions (databases st4 db) = [t2; t1; t0].
Proof.
  intros HT Hl Hp N01 N02 N12 D0 D1 D2.
  (* the order of the four dates *)
  destruct (next_day_spec T HT) as [_ Fa]. change (next_day T) with (add_days 1 T) in Fa.
  destruct (sub_days_spec 4 T HT) as [_ Fb].
  destruct (sub_days_spec 0 T HT) as [Hc Fc].
  destruct (sub_days_spec 3 (sub_days 1 T) Hc) as [_ Fd].
  change (sub_days 4 (sub_days 1 T)) with (sub_days 3 (prev_day (sub_days 1 T))) in Fd.
  rewrite <- (sub_days_shift 3 (sub_days 1 T)) in Fd.
  change (sub_days 4 (sub_days 1 T)) with (sub_days 5 T) in Fd.
  pose proof (date_ltb_trans _ _ _ Fb Fa) as Fe.
  pose proof (date_ltb_asym _ _ Fa) as Ga.
  pose proof (date_ltb_asym _ _ Fd) as Gd.
  remember (add_days 1 T) as Tp1 eqn:E1.
  remember (sub_days 5 T) as Tm5 eqn:E5.
  remember (sub_days 1 T) as Tm1 eqn:Em1.
  clear E1 E5 Em1 HT Hc.
  assert (Hdated : forall x, x = t0 \/ x = t1 \/ x = t2 -> dated st x).
  { intros x [-> | [-> | ->]]; unfold dated; congruence. }
  (* first transaction *)
  destruct (Database_iadd_Transaction_new n st db t0) as (st1 & R1 & O1 & B1 & L1 & _ & P1).
  { exact Hp. } { now rewrite Hl. } { rewrite Hl. repeat constructor. apply Hdated. tauto. }
  rewrite Hl in L1. simpl in L1.
  (* second transaction *)
  destruct (Database_iadd_Transaction_new n st1 db t1) as (st2 & R2 & O2 & B2 & L2 & _ & P2).
  { exact P1. }
  { rewrite L1. apply mem_cons_false; [congruence | reflexivity]. }
  { rewrite L1. apply (same_dates_dated st st1 _ (proj1 O1)).
    repeat constructor; apply Hdated; tauto. }
  rewrite (sort_by_date_same_dates st st1 _ (proj1 O1)), L1 in L2.
  unfold sort_by_date in L2.
  repeat (progress (simpl in L2; unfold date_key_ltb in L2;
                    rewrite ?D0, ?D1, ?D2, ?Fa, ?Fb, ?Fe, ?Ga in L2)).
  (* third transaction *)
  assert (S2 : same_dates st st2) by (eapply same_dates_trans; [apply O1 | apply O2]).
  destruct (Database_iadd_Transaction_new n st2 db t2) as (st3 & R3 & O3 & B3 & L3 & _ & P3).
  { exact P2. }
  { rewrite L2. apply mem_cons_false; [congruence|]. apply mem_cons_false; [congruence | reflexivity]. }
  { rewrite L2. apply (same_dates_dated st st2 _ S2).
    repeat constructor; apply Hdated; tauto. }
  rewrite (sort_by_date_same_dates st st2 _ S2), L2 in L3.
  unfold sort_by_date in L3.
  repeat (progress (simpl in L3; unfold date_key_ltb in L3;
                    rewrite ?D0, ?D1, ?D2, ?Fa, ?Fb, ?Fe, ?Ga in L3)).
  (* the new date *)
  assert (S3 : same_dates st st3) by (eapply same_dates_trans; [exact S2 | apply O3]).
  destruct (setDate_spec st3 t1 Tm1 db) as (st4 & R4 & _ & L4 & _).
  { destruct O3 as (_ & _ & O3). rewrite O3 by congruence. exact B2. }
  { intros x Hx _. unfold dated. rewrite S3. apply Hdated.
    rewrite L3 in Hx. simpl in Hx. intuition congruence. }
  assert (X0 : t_date (transactions (set_t_date st3 t1 (Some Tm1)) t0) = Some T).
  { rewrite t_date_set_other by congruence. now rewrite S3. }
  assert (X1 : t_date (transactions (set_t_date st3 t1 (Some Tm1)) t1) = Some Tm1).
  { apply t_date_set_same. }
  assert (X2 : t_date (transactions (set_t_date st3 t1 (Some Tm1)) t2) = Some Tm5).
  { rewrite t_date_set_other by congruence. now rewrite S3. }
  rewrite L3 in L4. unfold sort_by_date in L4.
  cbn [fold_right insert_by_date] in L4.
  repeat (progress (cbn [insert_by_date] in L4; unfold date_key_ltb in L4;
                    rewrite ?X0, ?X1, ?X2, ?Fc, ?Gd in L4)).
  exists st1, st2, st3, st4. repeat split; assumption.
Qed.

(** ** The transactions of a database stay sorted *)

(** C7, as the code has it.  Outside bulk load, with all dates present:
    adding a transaction that is not in the list sorts the list, and so does
    [setDate] on a transaction of the database, whatever the order was
    before; adding a transaction that is in the list changes nothing, and
    removing one keeps a sorted list sorted (neither sorts).  Transactions
    dated [T], [T+1], [T-5], added in this order to an empty database, give
    the list [T-5, T, T+1], and moving [T+1] to [T-1] gives [T-5, T-1, T]. *)
Theorem C7_transactions_sorted :
  (forall n st db t,
      db_parsing (databases st db) = false ->
      mem t (db_transactions (databases st db)) = false ->
      List.Forall (dated st) (t :: db_transactions (databases st db)) ->
      exists st',
        Database_iadd_Transaction (6 + n) st db t = Ok st' /\
        sorted_by_date st' db /\
        Permutation (db_transactions (databases st' db))
                    (t :: db_transactions (databases st db))) /\
  (forall n st db t,
      mem t (db_transactions (databases st db)) = true ->
      Database_iadd_Transaction (S n) st db t = Ok st) /\
  (forall n st db t,
      sorted_by_date st db ->
      exists st',
        Database_isub_Transaction (4 + n) st db t = Ok st' /\
        sorted_by_date st' db /\
        incl (db_transactions (databases st' db)) (db_transactions (databases st db))) /\
  (forall st t d db,
      t_db (transactions st t) = Some db ->
      (forall x, In x (db_transactions (databases st db)) -> x <> t -> dated st x) ->
      exists st',
        setDate st t (Some d) = Ok st' /\
        t_date (transactions st' t) = Some d /\
        sorted_by_date st' db /\
        Permutation (db_transactions (databases st' db)) (db_transactions (databases st db))) /\
  (forall n st db t0 t1 t2 T,
      calendar_day T ->
      db_transactions (databases st db) = [] ->
      db_parsing (databases st db) = false ->
      t0 <> t1 -> t0 <> t2 -> t1 <> t2 ->
      t_date (transactions st t0) = Some T ->
      t_date (transactions st t1) = Some (add_days 1 T) ->
      t_date (transactions st t2) = Some (sub_days 5 T) ->
      exists st1 st2 st3 st4,
        Database_iadd_Transaction (6 + n) st db t0 = Ok st1 /\
        Database_iadd_Transaction (6 + n) st1 db t1 = Ok st2 /\
        Database_iadd_Transaction (6 + n) st2 db t2 = Ok st3 /\
        db_transactions (databases st3 db) = [t2; t0; t1] /\
        setDate st3 t1 (Some (sub_days 1 T)) = Ok st4 /\
        db_transactions (databases st4 db) = [t2; t1; t0]).
Proof.
  split; [|split; [|split; [|split]]].
  - intros n st db t Hp Hm Hd.
    destruct (Database_iadd_Transaction_new n st db t Hp Hm Hd)
      as (st' & R & _ & _ & L & S & _).
    exists st'. split; [exact R|]. split; [exact S|].
    rewrite L, sort_by_date_perm. rewrite Permutation_app_comm. reflexivity.
  - intros n st db t Hm. cbn [Database_iadd_Transaction]. rewrite Hm. reflexivity.
  - intros n st db t Hs.
    destruct (Database_isub_Transaction_frame n st db t) as (st' & R & O & _ & _ & k & L).
    exists st'. split; [exact R|]. unfold sorted_by_date. rewrite L. split.
    + apply (same_dates_sorted st st' _ (proj1 O)). now apply iter_remove_sorted.
    + clear. induction k as [|k IH]; simpl; [apply incl_refl|].
      intros x Hx. apply IH. revert Hx. generalize (Nat.iter k (Ledger.remove t)
        (db_transactions (databases st db))). intros l.
      induction l as [|y l IHl]; simpl; [easy|].
      destruct (Nat.eqb t y); [now right|].
      intros [<- | Hx]; [now left | right; auto].
  - intros st t d db Hdb Hd.
    destruct (setDate_spec st t d db Hdb Hd) as (st' & R & Ht & L & S & _).
    exists st'. split; [exact R|]. split; [rewrite Ht; apply t_date_set_same|].
    split; [exact S|]. rewrite L. apply sort_by_date_perm.
  - apply three_transactions.
Qed.

Lemma C7_transactions_sorted_witness :
  exists st1 st2 st3 st4,
    Database_iadd_Transaction 6 Sample.three_days 0%nat 0%nat = Ok st1 /\
    Database_iadd_Transaction 6 st1 0%nat 1%nat = Ok st2 /\
    Database_iadd_Transaction 6 st2 0%nat 2%nat = Ok st3 /\
    db_transactions (databases st3 0%nat) = [2; 0; 1]%nat /\
    setDate st3 1%nat (Some (sub_days 1 (mkDate 2018 3 8))) = Ok st4 /\
    db_transactions (databases st4 0%nat) = [2; 1; 0]%nat.
Proof.
  apply (proj2 (proj2 (proj2 (proj2 C7_transactions_sorted)))
           0%nat Sample.three_days 0%nat 0%nat 1%nat 2%nat (mkDate 2018 3 8));
    try reflexivity; try discriminate.
  unfold calendar_day. cbn [year month day].
  change (days_in_month 2018 3) with 31. lia.
Defined.

(** C7 as stated fails.  Loading the transactions dated 03-03, 03-02, 03-01
    in this order leaves the list in this order when the bulk load is over
    (nothing sorts it); removing the last one is a mutation outside bulk load
    after which the list, 03-03 then 03-02, is not sorted. *)
Lemma C7_counterexample :
  exists st1 st2,
    parse_transactions 6 Sample.three_loose 0%nat [0; 1; 2]%nat = Ok st1 /\
    db_parsing (databases st1 0%nat) = false /\
    db_transactions (databases st1 0%nat) = [0; 1; 2]%nat /\
    Database_isub_Transaction 6 st1 0%nat 2%nat = Ok st2 /\
    db_transactions (databases st2 0%nat) = [0; 1]%nat /\
    ~ sorted_by_date st2 0%nat.
Proof.
  eexists. eexists. split; [reflexivity|]. split; [reflexivity|]. split; [reflexivity|].
  split; [reflexivity|]. split; [reflexivity|].
  unfold sorted_by_date. simpl. intros H.
  inversion H as [|a l Hs Hf]; subst. inversion Hf as [|b l' Hle _]; subst.
  vm_compute in Hle. discriminate.
Qed.

(** ** Items and their owners *)

Lemma mem_false_In (x : ref) (l : list ref) : mem x l = false <-> ~ In x l.
Proof.
  rewrite <- mem_In. destruct (mem x l); split; intros H; congruence.
Qed.

Lemma remove_notin x l : ~ In x l -> Ledger.remove x l = l.
Proof.
  induction l as [|y l IH]; simpl; [reflexivity|]. intros H.
  destruct (Nat.eqb x y) eqn:E.
  - apply Nat.eqb_eq in E. subst. exfalso. apply H. now left.
  - f_equal. apply IH. intros K. apply H. now right.
Qed.

Lemma In_remove x y l :
  List.NoDup l -> (In y (Ledger.remove x l) <-> In y l /\ y <> x).
Proof.
  induction 1 as [|z l Hz Hl IH]; simpl; [tauto|].
  destruct (Nat.eqb x z) eqn:E.
  - apply Nat.eqb_eq in E. subst z. split.
    + intros H. split; [now right|]. intros ->. contradiction.
    + intros [[H | H] K]; [congruence | exact H].
  - apply Nat.eqb_neq in E. simpl. rewrite IH. split.
    + intros [<- | [H K]]; [split; [now left | congruence] | split; [now right | exact K]].
    + intros [[<- | H] K]; [now left | right; tauto].
Qed.

Lemma NoDup_remove_first x l : List.NoDup l -> List.NoDup (Ledger.remove x l).
Proof.
  induction 1 as [|z l Hz Hl IH]; simpl; [constructor|].
  destruct (Nat.eqb x z); [exact Hl|].
  constructor; [|exact IH]. intros K. apply (In_remove x z l Hl) in K. tauto.
Qed.

Lemma NoDup_snoc (x : ref) l : List.NoDup l -> ~ In x l -> List.NoDup (l ++ [x]).
Proof.
  induction 1 as [|z l Hz Hl IH]; simpl; intros Hx.
  - repeat constructor. easy.
  - constructor.
    + rewrite in_app_iff. simpl. intros [K | [K | []]]; [contradiction|].
      apply Hx. now left.
    + apply IH. intros K. apply Hx. now right.
Qed.

(** The store after an item has moved to the transaction [t2], described
    field by field, has consistent links. *)
Lemma links_after_move st st' i t2 :
  links_consistent st ->
  i_transaction (items st i) <> Some t2 ->
  i_transaction (items st' i) = Some t2 ->
  (forall j, j <> i -> i_transaction (items st' j) = i_transaction (items st j)) ->
  t_items (transactions st' t2) = (t_items (transactions st t2) ++ [i])%list ->
  (forall t, t <> t2 ->
             t_items (transactions st' t) = Ledger.remove i (t_items (transactions st t))) ->
  links_consistent st'.
Proof.
  intros [Hl Hn] Hne Hi Hj H2 Ht. split.
  - intros j t. destruct (Nat.eq_dec t t2) as [-> | Nt].
    + rewrite H2, in_app_iff. simpl. destruct (Nat.eq_dec j i) as [-> | Nj].
      * tauto.
      * rewrite (Hj j Nj), <- Hl. split; [intros [H | [H | []]]; congruence || exact H | tauto].
    + rewrite (Ht t Nt), (In_remove i j _ (Hn t)). destruct (Nat.eq_dec j i) as [-> | Nj].
      * rewrite Hi. split; [tauto | congruence].
      * rewrite (Hj j Nj), <- Hl. tauto.
  - intros t. destruct (Nat.eq_dec t t2) as [-> | Nt].
    + rewrite H2. apply NoDup_snoc; [apply Hn|]. rewrite Hl. exact Hne.
    + rewrite (Ht t Nt). apply NoDup_remove_first, Hn.
Qed.

Lemma upd_same {A : Type} (f : ref -> A) r v : upd f r v r = v.
Proof. unfold upd. now rewrite Nat.eqb_refl. Qed.

Lemma upd_other {A : Type} (f : ref -> A) r v r' : r' <> r -> upd f r v r' = f r'.
Proof. intros H. unfold upd. apply Nat.eqb_neq in H. now rewrite H. Qed.

Lemma mem_remove_NoDup x l : List.NoDup l -> mem x (Ledger.remove x l) = false.
Proof.
  intros H. apply mem_false_In. intros K. apply (In_remove x x l H) in K. tauto.
Qed.

(** [t1 -= i] for an item of [t1]: the item leaves the list and refers to no
    transaction. *)
Lemma Transaction_isub_Item_detaches n st t1 i :
  i_transaction (items st i) = Some t1 ->
  In i (t_items (transactions st t1)) ->
  List.NoDup (t_items (transactions st t1)) ->
  Transaction_isub_Item (3 + n) st t1 i =
  Ok (set_i_transaction
        (set_t_items st t1 (Ledger.remove i (t_items (transactions st t1)))) i None).
Proof.
  intros E1 Hin Hn. apply mem_In in Hin.
  cbn [Nat.add Transaction_isub_Item Item_isub_Transaction]. rewrite Hin.
  cbn [items set_t_items]. rewrite E1. simpl oref_eqb. rewrite Nat.eqb_refl.
  cbn [transactions set_i_transaction set_t_items]. rewrite upd_same.
  cbn [t_items]. rewrite (mem_remove_NoDup i _ Hn). reflexivity.
Qed.

(** [t2 += i] for an item that refers to [t2] and is not in its list: the
    item is appended. *)
Lemma Transaction_iadd_Item_appends n st t2 i :
  i_transaction (items st i) = Some t2 ->
  mem i (t_items (transactions st t2)) = false ->
  Transaction_iadd_Item (2 + n) st t2 i =
  Ok (set_t_items st t2 (t_items (transactions st t2) ++ [i])).
Proof.
  intros E Hm. cbn [Nat.add Transaction_iadd_Item Item_iadd_Transaction]. rewrite Hm.
  cbn [items set_t_items negb]. rewrite E. simpl oref_eqb. rewrite Nat.eqb_refl. reflexivity.
Qed.

Lemma items_after_sets st i x :
  i_transaction (items (set_i_transaction st i x) i) = x.
Proof. simpl. now rewrite upd_same. Qed.

Lemma Item_iadd_Transaction_moves n st i t2 :
  links_consistent st ->
  i_transaction (items st i) <> Some t2 ->
  exists st',
    Item_iadd_Transaction (4 + n) st i t2 = Ok st' /\
    i_transaction (items st' i) = Some t2 /\
    i_account (items st' i) = i_account (items st i) /\
    (forall j, j <> i -> items st' j = items st j) /\
    t_items (transactions st' t2) = (t_items (transactions st t2) ++ [i])%list /\
    (forall t, t <> t2 ->
               t_items (transactions st' t) = Ledger.remove i (t_items (transactions st t))) /\
    accounts st' = accounts st.
Proof.
  intros HL Hne. pose proof HL as [Hl Hn].
  assert (Hm2 : mem i (t_items (transactions st t2)) = false).
  { apply mem_false_In. now rewrite Hl. }
  assert (Hother : forall t, i_transaction (items st i) <> Some t ->
                             Ledger.remove i (t_items (transactions st t)) = t_items (transactions st t)).
  { intros t Ht. apply remove_notin. now rewrite Hl. }
  change (4 + n)%nat with (S (3 + n)). cbn [Item_iadd_Transaction].
  destruct (oref_eqb (Some t2) (i_transaction (items st i))) eqn:E.
  { apply oref_eqb_true in E. contradiction. }
  simpl negb. cbv iota.
  assert (Hfin : forall stA,
             i_transaction (items stA i) = Some t2 ->
             i_account (items stA i) = i_account (items st i) ->
             (forall j, j <> i -> items stA j = items st j) ->
             t_items (transactions stA t2) = t_items (transactions st t2) ->
             (forall t, t <> t2 -> t_items (transactions stA t)
                                   = Ledger.remove i (t_items (transactions st t))) ->
             accounts stA = accounts st ->
             exists st',
               (let! st3 := Transaction_iadd_Item (3 + n) stA t2 i in
                Ok (set_i_transaction st3 i (Some t2))) = Ok st' /\
               i_transaction (items st' i) = Some t2 /\
               i_account (items st' i) = i_account (items st i) /\
               (forall j, j <> i -> items st' j = items st j) /\
               t_items (transactions st' t2) = (t_items (transactions st t2) ++ [i])%list /\
               (forall t, t <> t2 -> t_items (transactions st' t)
                                     = Ledger.remove i (t_items (transactions st t))) /\
               accounts st' = accounts st).
  { intros stA A1 A1' A2 A3 A4 A5.
    change (3 + n)%nat with (2 + S n)%nat.
    rewrite (Transaction_iadd_Item_appends (S n) stA t2 i A1) by now rewrite A3.
    cbn [bind]. eexists. split; [reflexivity|].
    split; [apply items_after_sets|].
    split; [simpl; rewrite upd_same; exact A1'|].
    split; [intros j Hj; simpl; rewrite upd_other by exact Hj; now apply A2|].
    split; [simpl; rewrite upd_same; simpl; now rewrite A3|].
    split; [|exact A5].
    intros t Ht. simpl. rewrite upd_other by exact Ht. now apply A4. }
  destruct (i_transaction (items st i)) as [t1|] eqn:E1.
  - assert (Hin : In i (t_items (transactions st t1))) by now apply Hl.
    assert (Hb : Transaction_bool st t1 = true).
    { unfold Transaction_bool. destruct (t_items (transactions st t1)); [destruct Hin | reflexivity]. }
    rewrite Hb, (Transaction_isub_Item_detaches n st t1 i E1 Hin (Hn t1)). cbn [bind].
    assert (N12 : t1 <> t2) by congruence.
    apply Hfin.
    + apply items_after_sets.
    + simpl. rewrite !upd_same. reflexivity.
    + intros j Hj. simpl. now rewrite !upd_other by exact Hj.
    + simpl. rewrite upd_other by congruence. reflexivity.
    + intros t Ht. simpl. destruct (Nat.eq_dec t t1) as [-> | Nt].
      * now rewrite upd_same.
      * rewrite upd_other by exact Nt. symmetry. apply Hother. congruence.
    + reflexivity.
  - cbn [bind]. apply Hfin.
    + apply items_after_sets.
    + simpl. rewrite !upd_same. reflexivity.
    + intros j Hj. simpl. now rewrite !upd_other by exact Hj.
    + reflexivity.
    + intros t Ht. simpl. symmetry. apply Hother. congruence.
    + reflexivity.
Qed.

Lemma mem_snoc x l : mem x (l ++ [x]) = true.
Proof. unfold mem. rewrite existsb_app. simpl. rewrite Nat.eqb_refl. apply orb_true_r. Qed.

(** The same move, started from the transaction: [t2 += i]. *)
Lemma Transaction_iadd_Item_moves n st i t2 :
  links_consistent st ->
  i_transaction (items st i) <> Some t2 ->
  exists st',
    Transaction_iadd_Item (5 + n) st t2 i = Ok st' /\
    i_transaction (items st' i) = Some t2 /\
    i_account (items st' i) = i_account (items st i) /\
    (forall j, j <> i -> items st' j = items st j) /\
    t_items (transactions st' t2) = (t_items (transactions st t2) ++ [i])%list /\
    (forall t, t <> t2 ->
               t_items (transactions st' t) = Ledger.remove i (t_items (transactions st t))) /\
    accounts st' = accounts st.
Proof.
  intros HL Hne. pose proof HL as [Hl Hn].
  assert (Hm2 : mem i (t_items (transactions st t2)) = false).
  { apply mem_false_In. now rewrite Hl. }
  assert (Hother : forall t, i_transaction (items st i) <> Some t ->
                             Ledger.remove i (t_items (transactions st t)) = t_items (transactions st t)).
  { intros t Ht. apply remove_notin. now rewrite Hl. }
  change (5 + n)%nat with (S (S (3 + n))). cbn [Transaction_iadd_Item]. rewrite Hm2.
  simpl negb. cbv iota.
  set (stX := set_t_items st t2 _).
  cbn [Item_iadd_Transaction].
  change (items stX) with (items st).
  destruct (oref_eqb (Some t2) (i_transaction (items st i))) eqn:E.
  { apply oref_eqb_true in E. contradiction. }
  simpl negb. cbv iota.
  assert (Hfin : forall stA,
             i_account (items stA i) = i_account (items st i) ->
             (forall j, j <> i -> items stA j = items st j) ->
             t_items (transactions stA t2) = (t_items (transactions st t2) ++ [i])%list ->
             (forall t, t <> t2 -> t_items (transactions stA t)
                                   = Ledger.remove i (t_items (transactions st t))) ->
             accounts stA = accounts st ->
             exists st',
               (let! st3 := Transaction_iadd_Item (3 + n) (set_i_transaction stA i (Some t2)) t2 i in
                Ok (set_i_transaction st3 i (Some t2))) = Ok st' /\
               i_transaction (items st' i) = Some t2 /\
               i_account (items st' i) = i_account (items st i) /\
               (forall j, j <> i -> items st' j = items st j) /\
               t_items (transactions st' t2) = (t_items (transactions st t2) ++ [i])%list /\
               (forall t, t <> t2 -> t_items (transactions st' t)
                                     = Ledger.remove i (t_items (transactions st t))) /\
               accounts st' = accounts st).
  { intros stA A1 A2 A3 A4 A5. cbn [Nat.add Transaction_iadd_Item].
    change (transactions (set_i_transaction stA i (Some t2))) with (transactions stA).
    rewrite A3, mem_snoc. simpl negb. cbv iota. cbn [bind].
    eexists. split; [reflexivity|].
    split; [apply items_after_sets|].
    split; [simpl; rewrite !upd_same; exact A1|].
    split; [intros j Hj; simpl; rewrite !upd_other by exact Hj; now apply A2|].
    split; [exact A3|]. split; [exact A4 | exact A5]. }
  destruct (i_transaction (items st i)) as [t1|] eqn:E1.
  - assert (N12 : t1 <> t2) by congruence.
    assert (Hin : In i (t_items (transactions stX t1))).
    { subst stX. simpl. rewrite upd_other by exact N12. now apply Hl. }
    assert (Hb : Transaction_bool stX t1 = true).
    { unfold Transaction_bool. destruct (t_items (transactions stX t1)); [destruct Hin | reflexivity]. }
    assert (HnX : List.NoDup (t_items (transactions stX t1))).
    { subst stX. simpl. rewrite upd_other by exact N12. apply Hn. }
    rewrite Hb, (Transaction_isub_Item_detaches n stX t1 i E1 Hin HnX). cbn [bind].
    match goal with |- context [set_i_transaction (set_i_transaction ?s i (Some t1)) i (Some t2)] =>
      apply (Hfin (set_i_transaction s i (Some t1))) end.
    + simpl. rewrite !upd_same. reflexivity.
    + intros j Hj. simpl. now rewrite !upd_other by exact Hj.
    + subst stX. simpl. rewrite (upd_other _ t1) by congruence. now rewrite upd_same.
    + intros t Ht. subst stX. simpl. destruct (Nat.eq_dec t t1) as [-> | Nt].
      * rewrite upd_same. simpl. now rewrite upd_other by exact Ht.
      * rewrite !upd_other by assumption. symmetry. apply Hother. congruence.
    + reflexivity.
  - cbn [bind]. apply (Hfin stX).
    + reflexivity.
    + reflexivity.
    + subst stX. simpl. now rewrite upd_same.
    + intros t Ht. subst stX. simpl. rewrite upd_other by exact Ht.
      symmetry. apply Hother. congruence.
    + reflexivity.
Qed.

(** [i += a2], for any account: the item refers to [a2] afterwards, and
    nothing else changes. *)
Lemma Item_iadd_Account_moves n st i a2 :
  exists st',
    Item_iadd_Account (5 + n) st i a2 = Ok st' /\
    i_account (items st' i) = Some a2 /\
    i_transaction (items st' i) = i_transaction (items st i) /\
    (forall j, j <> i -> items st' j = items st j) /\
    transactions st' = transactions st /\
    accounts st' = accounts st.
Proof.
  change (5 + n)%nat with (S (S (S (S (S n))))). cbn [Item_iadd_Account].
  destruct (oref_eqb (Some a2) (i_account (items st i))) eqn:E; simpl negb; cbv iota.
  { exists st. apply oref_eqb_true in E. repeat split; trivial. }
  assert (Hfin : forall stA,
             i_transaction (items stA i) = i_transaction (items st i) ->
             (forall j, j <> i -> items stA j = items st j) ->
             transactions stA = transactions st -> accounts stA = accounts st ->
             exists st',
               (let! st3 := Account_iadd_Item (S (S (S (S n)))) (set_i_account stA i (Some a2)) a2 i in
                Ok (set_i_account st3 i (Some a2))) = Ok st' /\
               i_account (items st' i) = Some a2 /\
               i_transaction (items st' i) = i_transaction (items st i) /\
               (forall j, j <> i -> items st' j = items st j) /\
               transactions st' = transactions st /\ accounts st' = accounts st).
  { intros stA A1 A2 A3 A4. cbn [Account_iadd_Item Item_iadd_Account].
    cbn [items set_i_account]. rewrite upd_same. cbn [i_account oref_eqb].
    rewrite Nat.eqb_refl. simpl negb. cbv iota. cbn [bind].
    eexists. split; [reflexivity|].
    split; [simpl; now rewrite upd_same|].
    split; [simpl; rewrite !upd_same; exact A1|].
    split; [intros j Hj; simpl; rewrite !upd_other by exact Hj; now apply A2|].
    split; assumption. }
  destruct (i_account (items st i)) as [a1|] eqn:E1.
  - cbn [Account_isub_Item Item_isub_Account]. rewrite E1.
    assert (E' : oref_eqb (Some a1) (Some a1) = true) by (simpl; apply Nat.eqb_refl).
    rewrite E'. cbn [items set_i_account]. rewrite upd_same. cbn [i_account oref_eqb bind].
    match goal with |- context [set_i_account (set_i_account ?s i (Some a1)) i (Some a2)] =>
      apply (Hfin (set_i_account s i (Some a1))) end.
    + simpl. rewrite !upd_same. reflexivity.
    + intros j Hj. simpl. now rewrite !upd_other by exact Hj.
    + reflexivity.
    + reflexivity.
  - cbn [bind]. apply (Hfin st); reflexivity.
Qed.

Lemma sample_links_consistent : links_consistent Sample.ledger.
Proof.
  split.
  - intros i t.
    destruct t as [|[|[|t]]]; destruct i as [|[|[|[|[|i]]]]]; simpl; split; intros H;
      try congruence; intuition (try congruence; try lia).
  - intros t. destruct t as [|[|[|t]]]; simpl; repeat constructor; simpl; intuition lia.
Qed.

(** C8.  An item refers to at most one account and one transaction (each
    field holds one reference or none), and with consistent links it is in
    the list of at most one transaction.  Adding an item to another
    transaction, from either side, returns with consistent links: the item
    refers to the new transaction and is in its list, and in no other list.
    Adding it to another account, from either side, makes it an item of the
    new account and of no other.  Nothing else about the items changes. *)
Theorem C8_item_owners :
  (forall st i t t',
      links_consistent st ->
      In i (t_items (transactions st t)) -> In i (t_items (transactions st t')) -> t = t') /\
  (forall n st i t2 call,
      links_consistent st ->
      i_transaction (items st i) <> Some t2 ->
      call = Item_iadd_Transaction (4 + n) st i t2 \/
      call = Transaction_iadd_Item (5 + n) st t2 i ->
      exists st',
        call = Ok st' /\
        links_consistent st' /\
        i_transaction (items st' i) = Some t2 /\
        In i (t_items (transactions st' t2)) /\
        (forall t, t <> t2 -> ~ In i (t_items (transactions st' t))) /\
        i_account (items st' i) = i_account (items st i) /\
        (forall j, j <> i -> items st' j = items st j)) /\
  (forall n st i a2 call,
      call = Item_iadd_Account (5 + n) st i a2 \/
      call = Account_iadd_Item (6 + n) st a2 i ->
      exists st',
        call = Ok st' /\
        Account_has_item st' a2 i /\
        (forall a, a <> a2 -> ~ Account_has_item st' a i) /\
        i_transaction (items st' i) = i_transaction (items st i) /\
        (forall j, j <> i -> items st' j = items st j) /\
        transactions st' = transactions st).
Proof.
  split; [|split].
  - intros st i t t' [Hl _] H1 H2. apply Hl in H1, H2. congruence.
  - intros n st i t2 call HL Hne Hcall.
    assert (H : exists st',
               call = Ok st' /\
               i_transaction (items st' i) = Some t2 /\
               i_account (items st' i) = i_account (items st i) /\
               (forall j, j <> i -> items st' j = items st j) /\
               t_items (transactions st' t2) = (t_items (transactions st t2) ++ [i])%list /\
               (forall t, t <> t2 ->
                  t_items (transactions st' t) = Ledger.remove i (t_items (transactions st t))) /\
               accounts st' = accounts st).
    { destruct Hcall as [-> | ->];
        [apply Item_iadd_Transaction_moves | apply Transaction_iadd_Item_moves]; assumption. }
    destruct H as (st' & R & F1 & F2 & F3 & F4 & F5 & _).
    assert (HL' : links_consistent st').
    { apply (links_after_move st st' i t2); trivial.
      intros j Hj. now rewrite (F3 j Hj). }
    exists st'. split; [exact R|]. split; [exact HL'|]. split; [exact F1|].
    split; [now apply HL'|]. split; [|split; assumption].
    intros t Ht K. apply HL' in K. congruence.
  - intros n st i a2 call Hcall.
    assert (H : exists st',
               call = Ok st' /\
               i_account (items st' i) = Some a2 /\
               i_transaction (items st' i) = i_transaction (items st i) /\
               (forall j, j <> i -> items st' j = items st j) /\
               transactions st' = transactions st /\ accounts st' = accounts st).
    { destruct Hcall as [-> | ->]; [apply Item_iadd_Account_moves|].
      change (6 + n)%nat with (S (5 + n)). cbn [Account_iadd_Item].
      apply Item_iadd_Account_moves. }
    destruct H as (st' & R & F1 & F2 & F3 & F4 & _).
    exists st'. split; [exact R|]. split; [exact F1|]. split; [|repeat split; assumption].
    intros a Ha K. unfold Account_has_item in K. congruence.
Qed.

Lemma C8_item_owners_witness :
  exists st',
    Item_iadd_Transaction 4 Sample.ledger 0%nat 1%nat = Ok st' /\
    links_consistent st' /\
    i_transaction (items st' 0%nat) = Some 1%nat /\
    In 0%nat (t_items (transactions st' 1%nat)) /\
    (forall t, t <> 1%nat -> ~ In 0%nat (t_items (transactions st' t))) /\
    i_account (items st' 0%nat) = i_account (items Sample.ledger 0%nat) /\
    (forall j, j <> 0%nat -> items st' j = items Sample.ledger j).
Proof.
  apply (proj1 (proj2 C8_item_owners) 0%nat Sample.ledger 0%nat 1%nat).
  - exact sample_links_consistent.
  - discriminate.
  - left. reflexivity.
Defined.

(** ** Months *)

Lemma map_date_new y m l :
  year_in_range y = true -> List.map (date_new y m) l = List.map Ok (List.map (mkDate y m) l).
Proof.
  intros H. rewrite map_map. apply map_ext. intros z. unfold date_new. now rewrite H.
Qed.

Lemma loop_break_skip p l1 x l2 d :
  (forall y, In y l1 -> p y = false) -> p x = true ->
  loop_break p (List.map Ok l1 ++ Ok x :: l2) d = Ok (Some x).
Proof.
  intros H Hx. revert d. induction l1 as [|y l1 IH]; intros d; simpl.
  - now rewrite Hx.
  - rewrite (H y) by now left. apply IH. intros z Hz. apply H. now right.
Qed.

Lemma loop_last_app p l1 l2 md :
  loop_last p (List.map Ok l1 ++ l2) md
  = loop_last p l2 (fold_left (fun md x => if p x then Some x else md) l1 md).
Proof. revert md. induction l1 as [|y l1 IH]; intros md; simpl; [reflexivity | apply IH]. Qed.

Lemma fold_last_none (p : date -> bool) l md :
  (forall y, In y l -> p y = false) ->
  fold_left (fun md x => if p x then Some x else md) l md = md.
Proof.
  revert md. induction l as [|y l IH]; intros md H; simpl; [reflexivity|].
  rewrite (H y) by now left. apply IH. intros z Hz. apply H. now right.
Qed.

Lemma zrange_S a n : zrange a (S n) = (zrange a n ++ [a + Z.of_nat n])%list.
Proof. unfold zrange. rewrite seq_S, map_app. reflexivity. Qed.

Lemma zrange_cons a n : zrange a (S n) = a :: zrange (a + 1) n.
Proof.
  unfold zrange. simpl. rewrite Z.add_0_r. f_equal.
  rewrite <- seq_shift, map_map. apply map_ext. intros i. lia.
Qed.

Lemma in_map_mkDate y m l d : In d (List.map (mkDate y m) l) -> year d = y /\ month d = m.
Proof. rewrite in_map_iff. intros (x & <- & _). split; reflexivity. Qed.

(** The days before the first of a month, in [itermonthdates]: days of the
    month before, of which there are none before January of [MINYEAR]. *)
Lemma days_before_first y m a :
  1 <= m <= 12 -> MINYEAR <= y <= MAXYEAR ->
  exists l,
    List.map (date_new (if m =? 1 then y - 1 else y) (if m =? 1 then 12 else m - 1))
             (zrange a (Z.to_nat (weekday (mkDate y m 1) mod 7)))
    = List.map Ok l /\
    forall x, In x l -> month x <> m.
Proof.
  intros Hm Hy. unfold MINYEAR, MAXYEAR in Hy.
  destruct (Z.eq_dec y 1) as [->|Ny]; [destruct (Z.eq_dec m 1) as [->|Nm]|].
  - exists []. split; [reflexivity | intros x []].
  - eexists. split.
    + apply map_date_new. destruct (Z.eqb_spec m 1); [lia | reflexivity].
    + intros x Hx. apply in_map_mkDate in Hx as [_ ->].
      destruct (Z.eqb_spec m 1); lia.
  - eexists. split.
    + apply map_date_new. unfold year_in_range, MINYEAR, MAXYEAR.
      destruct (Z.eqb_spec m 1); apply andb_true_iff; split;
        (apply Z.leb_le; lia).
    + intros x Hx. apply in_map_mkDate in Hx as [_ ->].
      destruct (Z.eqb_spec m 1); lia.
Qed.

Lemma year_in_range_true y : MINYEAR <= y <= MAXYEAR -> year_in_range y = true.
Proof.
  intros H. unfold year_in_range. apply andb_true_iff. split; apply Z.leb_le; lia.
Qed.

Lemma startofmonth_first d :
  1 <= month d <= 12 -> MINYEAR <= year d <= MAXYEAR ->
  startofmonth d = Ok (Some (first_of_month d)).
Proof.
  intros Hm Hy. unfold startofmonth, itermonthdates, first_of_month.
  pose proof (days_in_month_bounds (year d) (month d)) as Hb.
  destruct (Z.to_nat (days_in_month (year d) (month d))) as [|k] eqn:E; [lia|].
  destruct (days_before_first (year d) (month d)
              (days_in_month (if month d =? 1 then year d - 1 else year d)
                             (if month d =? 1 then 12 else month d - 1) + 1
               - weekday (mkDate (year d) (month d) 1) mod 7) Hm Hy) as (l & -> & Hl).
  rewrite zrange_cons. cbn [List.map app]. unfold date_new at 1.
  rewrite (year_in_range_true _ Hy).
  apply loop_break_skip.
  - intros y Hy'. apply Z.eqb_neq. now apply Hl.
  - cbn [month]. apply Z.eqb_refl.
Qed.

Lemma endofmonth_last d :
  1 <= month d <= 12 -> MINYEAR <= year d <= MAXYEAR -> before_last_month d ->
  endofmonth d = Ok (Some (last_of_month d)).
Proof.
  intros Hm Hy Hb'. unfold endofmonth, itermonthdates, last_of_month.
  pose proof (days_in_month_bounds (year d) (month d)) as Hb.
  destruct (Z.to_nat (days_in_month (year d) (month d))) as [|k] eqn:E; [lia|].
  destruct (days_before_first (year d) (month d)
              (days_in_month (if month d =? 1 then year d - 1 else year d)
                             (if month d =? 1 then 12 else month d - 1) + 1
               - weekday (mkDate (year d) (month d) 1) mod 7) Hm Hy) as (l & -> & Hl).
  rewrite (map_date_new (year d) (month d)) by now apply year_in_range_true.
  rewrite (map_date_new (if month d =? 12 then _ else _)).
  2:{ apply year_in_range_true. unfold before_last_month, MINYEAR, MAXYEAR in *.
      destruct (Z.eqb_spec (month d) 12); lia. }
  rewrite !loop_last_app.
  rewrite <- (app_nil_r (List.map Ok (List.map (mkDate (if month d =? 12 then _ else _) _) _))).
  rewrite loop_last_app. cbn [loop_last].
  rewrite (fold_last_none _ l) by (intros y Hy'; apply Z.eqb_neq; now apply Hl).
  rewrite (fold_last_none _ (List.map (mkDate (if month d =? 12 then _ else _) _) _)).
  2:{ intros y Hy'. apply in_map_mkDate in Hy' as [_ Hy']. rewrite Hy'.
      destruct (Z.eqb_spec (month d) 12); apply Z.eqb_neq; lia. }
  rewrite zrange_S, map_app, fold_left_app. cbn [List.map fold_left month].
  rewrite Z.eqb_refl. f_equal. f_equal. f_equal. lia.
Qed.

Lemma add_days_within k d :
  day d + Z.of_nat k <= days_in_month (year d) (month d) ->
  add_days k d = mkDate (year d) (month d) (day d + Z.of_nat k).
Proof.
  induction k as [|k IH]; intros H.
  - simpl. destruct d. simpl. f_equal. lia.
  - change (add_days (S k) d) with (next_day (add_days k d)).
    rewrite IH by lia. unfold next_day. simpl.
    destruct (Z.ltb_spec (day d + Z.of_nat k) (days_in_month (year d) (month d))); [|lia].
    f_equal. lia.
Qed.

Lemma next_day_last d :
  day d = days_in_month (year d) (month d) -> next_day d = first_of_next d.
Proof.
  intros H. unfold next_day, first_of_next. rewrite H, Z.ltb_irrefl. reflexivity.
Qed.

Lemma days_in_month_cases y m :
  days_in_month y m = 28 \/ days_in_month y m = 29 \/
  days_in_month y m = 30 \/ days_in_month y m = 31.
Proof.
  unfold days_in_month.
  destruct (m =? 2); [destruct (is_leap y); tauto|].
  destruct ((m =? 4) || (m =? 6) || (m =? 9) || (m =? 11)); tauto.
Qed.

Lemma add_days_add a b d : add_days (a + b) d = add_days a (add_days b d).
Proof. unfold add_days. apply Nat.iter_add. Qed.

Lemma add_days_S k d : add_days (S k) d = next_day (add_days k d).
Proof. reflexivity. Qed.

Lemma add_days_32_first d :
  day d = 1 ->
  exists z, add_days 32 d = mkDate (year (first_of_next d)) (month (first_of_next d)) z.
Proof.
  intros Hd.
  assert (H : exists a b : nat,
             add_days 32 d = add_days a (next_day (add_days b d)) /\
             Z.of_nat b = days_in_month (year d) (month d) - 1 /\ (a <= 4)%nat).
  { destruct (days_in_month_cases (year d) (month d)) as [E | [E | [E | E]]].
    - exists 4%nat, 27%nat. split; [|lia].
      change 32%nat with (4 + 28)%nat. rewrite add_days_add. now rewrite (add_days_S 27).
    - exists 3%nat, 28%nat. split; [|lia].
      change 32%nat with (3 + 29)%nat. rewrite add_days_add. now rewrite (add_days_S 28).
    - exists 2%nat, 29%nat. split; [|lia].
      change 32%nat with (2 + 30)%nat. rewrite add_days_add. now rewrite (add_days_S 29).
    - exists 1%nat, 30%nat. split; [|lia].
      change 32%nat with (1 + 31)%nat. rewrite add_days_add. now rewrite (add_days_S 30). }
  destruct H as (a & b & -> & Hb & Ha).
  rewrite (add_days_within b d) by lia.
  rewrite next_day_last by (cbn [day year month]; lia).
  set (f := first_of_next (mkDate _ _ _)).
  assert (Hf : day f = 1 /\ f = first_of_next d).
  { subst f. unfold first_of_next. cbn [day year month].
    destruct (month d <? 12); split; reflexivity. }
  destruct Hf as [Hf1 Hf2].
  pose proof (days_in_month_bounds (year f) (month f)).
  rewrite (add_days_within a f) by lia. rewrite <- Hf2. eexists. reflexivity.
Qed.

Lemma first_of_next_year d :
  year d <= MAXYEAR -> before_last_month d -> year (first_of_next d) <= MAXYEAR.
Proof.
  unfold before_last_month, first_of_next. intros Hy Hb.
  destruct (Z.ltb_spec (month d) 12); cbn [year]; lia.
Qed.

Lemma inc_monthly_first d :
  day d = 1 -> year d <= MAXYEAR -> before_last_month d ->
  inc INTERVAL_MONTHLY d = Ok (first_of_next d).
Proof.
  intros Hd Hy Hb. unfold inc, plus_days.
  destruct (add_days_32_first d Hd) as [z ->]. cbn [year].
  rewrite (proj2 (Z.leb_le _ _) (first_of_next_year d Hy Hb)).
  cbn [rmap bind]. unfold replace_day, first_of_next. cbn [year month].
  destruct (month d <? 12); reflexivity.
Qed.

Lemma first_of_next_month a b :
  1 <= month a <= 12 -> next_month a b -> first_of_next (first_of_month a) = first_of_month b.
Proof.
  intros Hm [(H1 & H2 & H3) | (H1 & H2 & H3)]; unfold first_of_next, first_of_month;
    cbn [year month day].
  - destruct (Z.ltb_spec (month a) 12); [|lia]. now rewrite H2, H3.
  - destruct (Z.ltb_spec (month a) 12); [lia|]. now rewrite H2, H3.
Qed.

Lemma first_before_last a b :
  next_month a b -> date_ltb (first_of_month a) (last_of_month b) = true.
Proof.
  intros [(H1 & H2 & H3) | (H1 & H2 & H3)]; unfold first_of_month, last_of_month;
    date_cases.
Qed.

Lemma first_before_own_last b : date_ltb (first_of_month b) (last_of_month b) = true.
Proof.
  pose proof (days_in_month_bounds (year b) (month b)).
  unfold first_of_month, last_of_month. date_cases.
Qed.

Lemma next_first_after_last b :
  date_ltb (first_of_next (first_of_month b)) (last_of_month b) = false.
Proof.
  unfold first_of_next, first_of_month, last_of_month. cbn [year month day].
  destruct (Z.ltb_spec (month b) 12); date_cases.
Qed.

(** The interval steps of a range from one month into the next: the first
    days of the two months. *)
Lemma next_month_range a b :
  next_month a b -> MINYEAR <= year a -> year b <= MAXYEAR -> before_last_month b ->
  MINYEAR <= year a <= MAXYEAR /\ MINYEAR <= year b <= MAXYEAR /\ before_last_month a.
Proof.
  unfold before_last_month, MINYEAR, MAXYEAR.
  intros [(H1 & H2 & H3) | (H1 & H2 & H3)] Ha Hb Hl; lia.
Qed.

Lemma getIntervalSteps_two_months fuel a b :
  1 <= month a <= 12 -> 1 <= month b <= 12 -> next_month a b ->
  MINYEAR <= year a -> year b <= MAXYEAR -> before_last_month b ->
  getIntervalSteps (2 + fuel) a b INTERVAL_MONTHLY = Ok [first_of_month a; first_of_month b].
Proof.
  intros Ha Hb Hn Ya Yb Lb.
  destruct (next_month_range a b Hn Ya Yb Lb) as (Ra & Rb & La).
  unfold getIntervalSteps, rangeDateFromTillByInterval.
  rewrite (startofmonth_first a Ha Ra), (endofmonth_last b Hb Rb Lb).
  cbn [bind Nat.add steps_loop]. rewrite (first_before_last a b Hn).
  rewrite (inc_monthly_first (first_of_month a) eq_refl (proj2 Ra) La).
  cbn [bind].
  rewrite (first_of_next_month a b Ha Hn), first_before_own_last.
  rewrite (inc_monthly_first (first_of_month b) eq_refl (proj2 Rb) Lb).
  cbn [bind].
  assert (E : steps_loop fuel INTERVAL_MONTHLY (first_of_next (first_of_month b))
                (last_of_month b) = Ok []).
  { destruct fuel; cbn [steps_loop]; now rewrite next_first_after_last. }
  rewrite E. reflexivity.
Qed.

Lemma DateRangeKey_new_monthly d :
  1 <= month d <= 12 -> MINYEAR <= year d <= MAXYEAR -> before_last_month d ->
  DateRangeKey_new d d INTERVAL_MONTHLY =
  Ok (mkDateRangeKey INTERVAL_MONTHLY (Some (first_of_month d)) (Some (last_of_month d))).
Proof.
  intros H Hy Hb. unfold DateRangeKey_new, rangeDateFromTillByInterval.
  now rewrite (startofmonth_first d H Hy), (endofmonth_last d H Hy Hb).
Qed.

Lemma same_month_first a b : same_month a b = true -> first_of_month a = first_of_month b.
Proof.
  unfold same_month, first_of_month. intros H. apply andb_true_iff in H as [H1 H2].
  apply Z.eqb_eq in H1, H2. now rewrite H1, H2.
Qed.

Lemma same_month_last a b : same_month a b = true -> last_of_month a = last_of_month b.
Proof.
  unfold same_month, last_of_month. intros H. apply andb_true_iff in H as [H1 H2].
  apply Z.eqb_eq in H1, H2. now rewrite H1, H2.
Qed.

(** A calendar day between a day of one month and a day of the next is in
    one of the two months, and not in both. *)
Lemma between_two_months a b d :
  calendar_day a -> calendar_day b -> calendar_day d -> next_month a b ->
  date_leb a d = true -> date_leb d b = true ->
  (same_month d a = true /\ same_month d b = false) \/
  (same_month d a = false /\ same_month d b = true).
Proof.
  intros [Ha _] [Hb _] [Hd _] Hn H1 H2. unfold same_month.
  destruct Hn as [(N1 & N2 & N3) | (N1 & N2 & N3)];
    destruct (Z.eqb_spec (year d) (year a)), (Z.eqb_spec (year d) (year b)),
      (Z.eqb_spec (month d) (month a)), (Z.eqb_spec (month d) (month b));
    cbn [andb]; try (left; split; reflexivity); try (right; split; reflexivity);
    exfalso; date_cases.
Qed.

(** ** The account tree *)

Lemma total_answer (r : result bool) : (exists b, r = Ok b) -> r = Ok (answer r).
Proof. intros [b ->]. reflexivity. Qed.

Lemma depth_within_mono st n a : depth_within st n a -> depth_within st (S n) a.
Proof.
  induction 1 as [n a _ IH]. constructor. exact IH.
Qed.

Lemma depth_within_le st n m a : depth_within st n a -> (n <= m)%nat -> depth_within st m a.
Proof.
  intros D L. induction L; [exact D | now apply depth_within_mono].
Qed.

Lemma depth_within_descends st a x :
  descends st a x -> forall n, depth_within st n a -> depth_within st n x.
Proof.
  induction 1 as [a | a c x Hc _ IH]; intros n D; [exact D|].
  inversion D as [m a' Hch]; subst. apply depth_within_mono, IH, Hch, Hc.
Qed.

(** In a tree of bounded depth no account is below itself. *)
Lemma depth_within_acyclic st n :
  forall a c, depth_within st n a ->
              In c (a_childAccounts (accounts st a)) -> descends st c a -> False.
Proof.
  induction n as [|n IH]; intros a c D Hc Hd; inversion D as [m a' Hch]; subst.
  pose proof (Hch c Hc) as Dc.
  pose proof (depth_within_descends st c a Hd n Dc) as Da.
  exact (IH a c Da Hc Hd).
Qed.

(** [hasChildAccount] answers within the depth of the tree. *)
Lemma hasChildAccount_total st child n :
  forall a fuel, depth_within st n a -> (n <= fuel)%nat ->
                 exists b, hasChildAccount fuel st a child = Ok b.
Proof.
  induction n as [|n IH]; intros a fuel D L; inversion D as [m a' Hch]; subst.
  destruct fuel as [|fuel]; [lia|]. cbn [hasChildAccount].
  destruct (existsb _ _); [now exists true|].
  assert (T : forall c, In c (a_childAccounts (accounts st a)) ->
                        exists b, hasChildAccount fuel st c child = Ok b).
  { intros c Hc. apply IH; [now apply Hch | lia]. }
  clear Hch D. induction (a_childAccounts (accounts st a)) as [|c cs IHcs].
  - now exists false.
  - destruct (T c (or_introl eq_refl)) as [b ->]. cbn [bind].
    destruct b; [now exists true|]. apply IHcs. intros c' Hc'. apply T. now right.
Qed.

(** What [hasChildAccount] finds is an account below a child. *)
Lemma hasChildAccount_descends st child :
  forall fuel a, hasChildAccount fuel st a child = Ok true ->
                 exists c x, child = Some x /\
                             In c (a_childAccounts (accounts st a)) /\ descends st c x.
Proof.
  induction fuel as [|fuel IH]; intros a H; [discriminate|].
  cbn [hasChildAccount] in H.
  destruct (existsb _ _) eqn:E.
  - apply existsb_exists in E as (c & Hc & Hx).
    destruct child as [x|]; [|discriminate]. cbn in Hx. apply Nat.eqb_eq in Hx. subst x.
    exists c, c. repeat split; [exact Hc | constructor].
  - clear E.
    assert (I : incl (a_childAccounts (accounts st a)) (a_childAccounts (accounts st a)))
      by apply incl_refl.
    revert I H. generalize (a_childAccounts (accounts st a)) at 1 3.
    induction l as [|c cs IHcs]; intros I H; [discriminate|].
    destruct (hasChildAccount fuel st c child) as [b|e] eqn:Ec; [|discriminate].
    cbn [bind] in H. destruct b.
    + apply IH in Ec as (c' & x & -> & Hc' & Hd).
      exists c, x. repeat split; [apply I; now left|].
      now apply (descends_below st c c' x).
    + apply IHcs; [|exact H]. intros y Hy. apply I. now right.
Qed.

Lemma hasChildAccount_self st n fuel a :
  depth_within st n a -> (n <= fuel)%nat -> hasChildAccount fuel st a (Some a) = Ok false.
Proof.
  intros D L. destruct (hasChildAccount_total st (Some a) n a fuel D L) as [[|] H]; [|exact H].
  apply hasChildAccount_descends in H as (c & x & [= <-] & Hc & Hd).
  destruct (depth_within_acyclic st n a c D Hc Hd).
Qed.


Lemma isSelfOrHasChildAccount_total st n fuel a child :
  depth_within st n a -> (n <= fuel)%nat ->
  exists b, isSelfOrHasChildAccount fuel st a child = Ok b.
Proof.
  intros D L. unfold isSelfOrHasChildAccount.
  destruct (oref_eqb _ _); [now exists true|]. now apply (hasChildAccount_total st child n).
Qed.

Lemma isSelfOrHasChildAccount_descends st fuel a child :
  isSelfOrHasChildAccount fuel st a child = Ok true ->
  exists x, child = Some x /\ descends st a x.
Proof.
  unfold isSelfOrHasChildAccount. destruct (oref_eqb (Some a) child) eqn:E; intros H.
  - destruct child as [x|]; [|discriminate]. cbn in E. apply Nat.eqb_eq in E. subst x.
    exists a. split; [reflexivity | constructor].
  - apply hasChildAccount_descends in H as (c & x & -> & Hc & Hd).
    exists x. split; [reflexivity|]. now apply (descends_below st a c x).
Qed.

(** ** Filtering the items of a database *)

Lemma filterfalse_filter {A : Type} (pred : A -> result bool) (p : A -> bool) (l : list A) :
  (forall x, In x l -> pred x = Ok (negb (p x))) -> filterfalse pred l = Ok (List.filter p l).
Proof.
  induction l as [|x l IH]; intros H; [reflexivity|].
  cbn [filterfalse List.filter]. rewrite (H x (or_introl eq_refl)). cbn [bind].
  rewrite IH by (intros y Hy; apply H; now right). cbn [bind].
  now destruct (p x).
Qed.

Lemma hasItems_loop_total (rej : ref -> result bool) (l : list ref) :
  (forall i, In i l -> exists b, rej i = Ok b) -> exists b, hasItems_loop rej l = Ok b.
Proof.
  induction l as [|i l IH]; intros H; [now exists false|].
  cbn [hasItems_loop]. destruct (H i (or_introl eq_refl)) as [b ->]. cbn [bind].
  destruct b; [|now exists true]. apply IH. intros j Hj. apply H. now right.
Qed.

(** [Database.filterItems] where the filter answers on the transactions
    and on their items. *)
Lemma filterItems_loop_total st (f : Filter) (ts : list ref) :
  (forall t, In t ts -> exists b, accepted f st (ETransaction t) = Ok b) ->
  (forall t i, In t ts -> In i (t_items (transactions st t)) ->
               exists b, accepted f st (EItem i) = Ok b) ->
  filterItems_loop st f ts =
  Ok (flat_map (fun t => if answer (accepted f st (ETransaction t))
                         then List.filter (fun i => answer (accepted f st (EItem i)))
                                          (t_items (transactions st t))
                         else []) ts).
Proof.
  induction ts as [|t ts IH]; intros HT HI; [reflexivity|].
  cbn [filterItems_loop flat_map].
  rewrite rejected_accepted, (total_answer _ (HT t (or_introl eq_refl))).
  cbn [rmap bind].
  rewrite IH; [|intros t' Ht'; apply HT; now right
               |intros t' i Ht'; apply HI; now right].
  destruct (answer (accepted f st (ETransaction t))); cbn [negb bind]; [|reflexivity].
  unfold Transaction_filterItems.
  rewrite (filterfalse_filter _ (fun i => answer (accepted f st (EItem i)))).
  - reflexivity.
  - intros i Hi. rewrite rejected_accepted.
    now rewrite (total_answer _ (HI t i (or_introl eq_refl) Hi)).
Qed.

Lemma NoDup_filter_list {A : Type} (p : A -> bool) (l : list A) :
  List.NoDup l -> List.NoDup (List.filter p l).
Proof.
  induction 1 as [|x l Hx _ IH]; cbn [List.filter]; [constructor|].
  destruct (p x); [|exact IH]. constructor; [|exact IH].
  intros H. apply filter_In in H. tauto.
Qed.

(** The items found are the accepted items of the transactions, each once. *)
Lemma flat_map_items_NoDup st (pt : ref -> bool) (pi : ref -> bool) (ts : list ref) :
  links_consistent st -> List.NoDup ts ->
  List.NoDup (flat_map (fun t => if pt t then List.filter pi (t_items (transactions st t))
                                 else []) ts).
Proof.
  intros [L1 L2]. induction 1 as [|t ts Ht _ IH]; cbn [flat_map]; [constructor|].
  assert (D : forall i, In i (if pt t then List.filter pi (t_items (transactions st t)) else []) ->
                        In i (flat_map (fun t => if pt t
                                                 then List.filter pi (t_items (transactions st t))
                                                 else []) ts) -> False).
  { intros i H1 H2. destruct (pt t); [|destruct H1].
    apply filter_In in H1 as [H1 _]. apply L1 in H1.
    apply in_flat_map in H2 as (t' & Ht' & H2). destruct (pt t'); [|destruct H2].
    apply filter_In in H2 as [H2 _]. apply L1 in H2. congruence. }
  revert D. generalize (flat_map (fun t => if pt t
                                           then List.filter pi (t_items (transactions st t))
                                           else []) ts) IH.
  assert (N : List.NoDup (if pt t then List.filter pi (t_items (transactions st t)) else [])).
  { destruct (pt t); [apply NoDup_filter_list, L2 | constructor]. }
  revert N. generalize (if pt t then List.filter pi (t_items (transactions st t)) else []).
  intros l1 N l2 N2 D. induction N as [|x l1 Hx _ IH1]; [exact N2|].
  cbn [app]. constructor.
  - intros H. apply in_app_or in H as [H|H]; [exact (Hx H)|].
    exact (D x (or_introl eq_refl) H).
  - apply IH1. intros i H1 H2. exact (D i (or_intror H1) H2).
Qed.

(** The absolute values of the items found add up to no more than those
    of all the items of the transactions. *)
Lemma magnitude_items_found st (pt : ref -> bool) (pi : ref -> bool) (ts : list ref) :
  magnitude (values_of st (flat_map (fun t => if pt t
                                              then List.filter pi (t_items (transactions st t))
                                              else []) ts))
  <= magnitude (values_of st (flat_map (fun t => t_items (transactions st t)) ts)).
Proof.
  unfold values_of. induction ts as [|t ts IH]; cbn [flat_map]; [reflexivity|].
  rewrite !map_app, !magnitude_app.
  assert (H : magnitude (List.map (fun i => i_value (items st i))
                           (if pt t then List.filter pi (t_items (transactions st t)) else []))
              <= magnitude (List.map (fun i => i_value (items st i))
                              (t_items (transactions st t)))).
  { destruct (pt t); [apply magnitude_filter | apply magnitude_nonneg]. }
  lia.
Qed.

(** ** The items of a report with one account *)

Section ReportItems.
Variables (st : Store) (fuel : nat) (acc : ref) (fromDate tillDate : date).
Hypothesis links : links_consistent st.
Hypothesis tree : depth_within st fuel acc.

Local Abbreviation accFilter := (FilterAccountsAndChildren fuel [acc]).
Local Abbreviation dateFilter :=
  (filter_and (FilterGreaterOrEqualDate fromDate) (FilterLessOrEqualDate tillDate)).

Lemma any_isSelfOrHasChildAccount_one child :
  any_isSelfOrHasChildAccount fuel st [acc] child = isSelfOrHasChildAccount fuel st acc child.
Proof.
  cbn [any_isSelfOrHasChildAccount].
  destruct (isSelfOrHasChildAccount fuel st acc child) as [[|]|e]; reflexivity.
Qed.

Lemma accFilter_item i :
  accepted accFilter st (EItem i) =
  isSelfOrHasChildAccount fuel st acc (i_account (items st i)).
Proof.
  cbn [accepted FilterAccountsAndChildren item_filter Leaf].
  apply any_isSelfOrHasChildAccount_one.
Qed.

Lemma accFilter_item_total i : exists b, accepted accFilter st (EItem i) = Ok b.
Proof.
  rewrite accFilter_item.
  destruct (isSelfOrHasChildAccount_total st fuel fuel acc (i_account (items st i)) tree
              (le_n _)) as [b ->].
  now exists b.
Qed.

Lemma accFilter_item_belongs i : accepted accFilter st (EItem i) = Ok true -> belongs st acc i.
Proof.
  rewrite accFilter_item. intros H.
  destruct (isSelfOrHasChildAccount fuel st acc (i_account (items st i))) as [b|e] eqn:E;
    [|discriminate].
  injection H as ->.
  apply isSelfOrHasChildAccount_descends in E as (x & Hx & Hd). now exists x.
Qed.

Lemma accFilter_transaction_total t : exists b, accepted accFilter st (ETransaction t) = Ok b.
Proof.
  cbn [accepted FilterAccountsAndChildren item_filter Leaf]. unfold hasItems.
  destruct (hasItems_loop_total
              (fun i => rmap negb (any_isSelfOrHasChildAccount fuel st [acc]
                                     (i_account (items st i))))
              (t_items (transactions st t))) as [b Hb].
  - intros i _. destruct (accFilter_item_total i) as [b Hb].
    rewrite accFilter_item in Hb. rewrite any_isSelfOrHasChildAccount_one, Hb.
    now exists (negb b).
  - rewrite Hb. now exists b.
Qed.

Lemma dateFilter_item i t d :
  i_transaction (items st i) = Some t -> t_date (transactions st t) = Some d ->
  accepted dateFilter st (EItem i) = Ok (date_leb fromDate d && date_leb d tillDate).
Proof.
  intros Ht Hd. rewrite accepted_and.
  cbn [accepted FilterGreaterOrEqualDate FilterLessOrEqualDate Leaf entity_date].
  unfold transaction_date. rewrite Ht, Hd. cbn [bind].
  now destruct (date_leb fromDate d).
Qed.

Lemma dateFilter_transaction t d :
  t_date (transactions st t) = Some d ->
  accepted dateFilter st (ETransaction t) = Ok (date_leb fromDate d && date_leb d tillDate).
Proof.
  intros Hd. rewrite accepted_and.
  cbn [accepted FilterGreaterOrEqualDate FilterLessOrEqualDate Leaf entity_date].
  unfold own_date. rewrite Hd. cbn [bind].
  now destruct (date_leb fromDate d).
Qed.

Lemma report_filter_transaction_total t d :
  t_date (transactions st t) = Some d ->
  exists b, accepted (filter_and accFilter dateFilter) st (ETransaction t) = Ok b.
Proof.
  intros Hd. rewrite accepted_and.
  destruct (accFilter_transaction_total t) as [b ->]. cbn [bind].
  destruct b; [|now exists false]. rewrite (dateFilter_transaction t d Hd). eauto.
Qed.

Lemma report_filter_item i t d :
  i_transaction (items st i) = Some t -> t_date (transactions st t) = Some d ->
  exists b, accepted (filter_and accFilter dateFilter) st (EItem i) = Ok b /\
            (b = true -> accepted accFilter st (EItem i) = Ok true /\
                         date_leb fromDate d = true /\ date_leb d tillDate = true).
Proof.
  intros Ht Hd. rewrite accepted_and.
  destruct (accFilter_item_total i) as [b Hb]. rewrite Hb. cbn [bind].
  destruct b.
  - rewrite (dateFilter_item i t d Ht Hd). eexists. split; [reflexivity|].
    intros H. apply andb_true_iff in H. tauto.
  - exists false. split; [reflexivity | discriminate].
Qed.

End ReportItems.

(** ** The monthly dataset of a report with one account *)

Section MonthlyReport.
Variables (st : Store) (fuel : nat) (acc db : ref) (fromDate tillDate : date).
Hypothesis links : links_consistent st.
Hypothesis tree : depth_within st fuel acc.
Hypothesis once : List.NoDup (db_transactions (databases st db)).
Hypothesis dates : forall t, In t (db_transactions (databases st db)) ->
                             exists d, t_date (transactions st t) = Some d /\ calendar_day d.

Local Abbreviation the_report := (Report_iadd (Report_init db fromDate tillDate) acc).

Lemma Report_items_one :
  exists its, Report_items fuel st the_report = Ok (its, set_r_items the_report (Some its)) /\
              List.NoDup its /\
              (forall i, In i its -> report_item st fuel acc fromDate tillDate i) /\
              magnitude (values_of st its) <= magnitude (values_of st (db_items st db)).
Proof.
  assert (E : the_report = mkReport db [acc] ∅ fromDate tillDate None) by reflexivity.
  rewrite E. unfold Report_items. cbn [r_items r_accounts r_fromDate r_tillDate r_db].
  unfold Database_filterItems. rewrite filterItems_loop_total.
  - eexists. split; [reflexivity|]. split; [now apply flat_map_items_NoDup|].
    split; [|apply magnitude_items_found].
    intros i Hi. apply in_flat_map in Hi as (t & Ht & Hi).
    destruct (answer _); [|destruct Hi]. apply filter_In in Hi as [Hi Ha].
    destruct (dates t Ht) as (d & Hd & Hc).
    pose proof (proj1 (proj1 links i t) Hi) as Hl.
    destruct (report_filter_item st fuel acc fromDate tillDate tree i t d Hl Hd)
      as (b & Hb & Hyes).
    cbn beta in Ha. rewrite Hb in Ha. cbn [answer] in Ha. destruct (Hyes Ha) as (A1 & A2 & A3).
    split; [now apply (accFilter_item_belongs st fuel)|]. split; [exact A1|].
    exists d. unfold Item_date, Transaction_bool. rewrite Hl.
    destruct (t_items (transactions st t)); [destruct Hi|]. now rewrite Hd.
  - intros t Ht. destruct (dates t Ht) as (d & Hd & _).
    now apply (report_filter_transaction_total st fuel acc fromDate tillDate tree t d).
  - intros t i Ht Hi. destruct (dates t Ht) as (d & Hd & _).
    pose proof (proj1 (proj1 links i t) Hi) as Hl.
    destruct (report_filter_item st fuel acc fromDate tillDate tree i t d Hl Hd)
      as (b & Hb & _).
    now exists b.
Qed.

End MonthlyReport.

(** ** Grouping the items of two months *)

Lemma month_key_same d m : same_month d m = true -> month_key d = month_key m.
Proof.
  intros H. unfold month_key. now rewrite (same_month_first d m H), (same_month_last d m H).
Qed.

Lemma month_key_first d :
  1 <= month d <= 12 -> MINYEAR <= year d <= MAXYEAR -> before_last_month d ->
  DateRangeKey_new (first_of_month d) (first_of_month d) INTERVAL_MONTHLY = Ok (month_key d).
Proof.
  intros H Hy Hb. now rewrite (DateRangeKey_new_monthly (first_of_month d) H Hy Hb).
Qed.

Lemma same_month_range d m :
  same_month d m = true -> MINYEAR <= year m <= MAXYEAR -> before_last_month m ->
  MINYEAR <= year d <= MAXYEAR /\ before_last_month d.
Proof.
  unfold same_month, before_last_month. intros H Hy Hb.
  apply andb_true_iff in H as [H1 H2]. apply Z.eqb_eq in H1, H2. rewrite H1, H2. tauto.
Qed.

Lemma key_eqb_month_key d : key_eqb (month_key d) (month_key d) = true.
Proof.
  unfold key_eqb, month_key. cbn [k_fromDate k_tillDate odate_eqb].
  apply andb_true_iff. split; now apply date_eqb_eq.
Qed.

Section Grouping.
Variables (st : Store) (fromDate tillDate : date).
Hypothesis from_day : calendar_day fromDate.
Hypothesis till_day : calendar_day tillDate.
Hypothesis two : next_month fromDate tillDate.
Hypothesis from_year : MINYEAR <= year fromDate.
Hypothesis till_year : year tillDate <= MAXYEAR.
Hypothesis till_before : before_last_month tillDate.

Local Abbreviation k1 := (month_key fromDate).
Local Abbreviation k2 := (month_key tillDate).
Local Abbreviation grouped p :=
  (mkItemGrouping [(k1, List.filter (in_month st fromDate) p);
                   (k2, List.filter (in_month st tillDate) p)] p INTERVAL_MONTHLY).

Lemma key_eqb_two : key_eqb k1 k2 = false.
Proof.
  unfold key_eqb, month_key, first_of_month. cbn [k_fromDate k_tillDate odate_eqb].
  apply andb_false_iff. left. destruct two as [(A & B & C) | (A & B & C)]; date_cases.
Qed.

Lemma key_eqb_two_sym : key_eqb k2 k1 = false.
Proof.
  unfold key_eqb, month_key, first_of_month. cbn [k_fromDate k_tillDate odate_eqb].
  apply andb_false_iff. left. destruct two as [(A & B & C) | (A & B & C)]; date_cases.
Qed.


Lemma key_ltb_two_sym : key_ltb k2 k1 = false.
Proof.
  unfold key_ltb, month_key, first_of_month. cbn [k_fromDate date_key_ltb].
  destruct two as [(A & B & C) | (A & B & C)]; date_cases.
Qed.

(** The grouping starts with an empty list for each of the two months. *)
Lemma ItemGroupingByDateRange_two fuel :
  (2 <= fuel)%nat ->
  ItemGroupingByDateRange fuel fromDate tillDate INTERVAL_MONTHLY = Ok (grouped []).
Proof.
  intros L. replace fuel with (2 + (fuel - 2))%nat by lia.
  destruct (next_month_range fromDate tillDate two from_year till_year till_before)
    as (Rf & Rt & Lf).
  unfold ItemGroupingByDateRange.
  rewrite (getIntervalSteps_two_months _ fromDate tillDate (proj1 from_day) (proj1 till_day) two
             from_year till_year till_before).
  cbn [bind init_groups].
  rewrite (month_key_first fromDate (proj1 from_day) Rf Lf). cbn [bind].
  rewrite (month_key_first tillDate (proj1 till_day) Rt till_before).
  cbn [bind dict_set]. now rewrite key_eqb_two.
Qed.

Lemma getGroupKey_month i d :
  Item_date st i = Some d -> calendar_day d ->
  MINYEAR <= year d <= MAXYEAR -> before_last_month d ->
  getGroupKey st INTERVAL_MONTHLY i = Ok (month_key d).
Proof.
  intros H [C _] Hy Hb. unfold getGroupKey. rewrite H.
  now rewrite (DateRangeKey_new_monthly d C Hy Hb).
Qed.

(** Adding an item of the range that is not in the grouping yet. *)
Lemma ItemGrouping_iadd_Item_two fuel acc p i :
  ~ In i p -> report_item st fuel acc fromDate tillDate i ->
  ItemGrouping_iadd_Item st (grouped p) i = Ok (grouped (p ++ [i])).
Proof.
  intros Hn (_ & _ & d & Hd & Hc & H1 & H2). unfold ItemGrouping_iadd_Item.
  cbn [g_items g_groups g_interval]. rewrite (proj2 (mem_false_In i p) Hn).
  destruct (next_month_range fromDate tillDate two from_year till_year till_before)
    as (Rf & Rt & Lf).
  assert (R : MINYEAR <= year d <= MAXYEAR /\ before_last_month d).
  { destruct (between_two_months fromDate tillDate d from_day till_day Hc two H1 H2)
      as [[A _] | [_ B]].
    - exact (same_month_range d fromDate A Rf Lf).
    - exact (same_month_range d tillDate B Rt till_before). }
  rewrite (getGroupKey_month i d Hd Hc (proj1 R) (proj2 R)). cbn [bind].
  assert (I1 : in_month st fromDate i = same_month d fromDate)
    by (unfold in_month; now rewrite Hd).
  assert (I2 : in_month st tillDate i = same_month d tillDate)
    by (unfold in_month; now rewrite Hd).
  rewrite !List.filter_app. cbn [List.filter]. rewrite I1, I2.
  destruct (between_two_months fromDate tillDate d from_day till_day Hc two H1 H2)
    as [[A B] | [A B]]; rewrite A, B.
  - rewrite (month_key_same d fromDate A). unfold dict_has. cbn [dict_get dict_set].
    rewrite !key_eqb_month_key. cbn [dict_get dict_set].
    rewrite !key_eqb_month_key. now rewrite app_nil_r.
  - rewrite (month_key_same d tillDate B). unfold dict_has. cbn [dict_get dict_set].
    rewrite !key_eqb_two, !key_eqb_month_key. cbn [dict_get dict_set].
    rewrite !key_eqb_two, !key_eqb_month_key. now rewrite app_nil_r.
Qed.

Lemma ItemGrouping_iadd_items_two fuel acc rest :
  forall p, List.NoDup (p ++ rest) ->
            (forall i, In i rest -> report_item st fuel acc fromDate tillDate i) ->
            ItemGrouping_iadd_items st (grouped p) rest = Ok (grouped (p ++ rest)).
Proof.
  induction rest as [|i rest IH]; intros p N G; cbn [ItemGrouping_iadd_items].
  - now rewrite app_nil_r.
  - rewrite (ItemGrouping_iadd_Item_two fuel acc p i).
    + cbn [bind]. rewrite IH.
      * now rewrite <- app_assoc.
      * now rewrite <- app_assoc.
      * intros j Hj. apply G. now right.
    + apply NoDup_remove_2 in N. intros H. apply N. apply in_or_app. now left.
    + apply G. now left.
Qed.

(** The labels of the grouping: the two months, in order. *)
Lemma groups_two p : groups (grouped p) = Ok [k1; k2].
Proof.
  unfold groups. cbn [g_groups dict_keys List.map fst List.length Nat.leb existsb
                        key_has_no_date month_key k_fromDate orb andb].
  unfold sort_keys. cbn [fold_right insert_key]. now rewrite key_ltb_two_sym.
Qed.

End Grouping.

(** ** The values of the monthly dataset *)







(** * Further properties *)

(** ** Combined filters *)

Lemma accepted_loop_and_all {W O : Type} (w : W) (x : O) (p : FilterCore.Filter W O -> bool)
      (fs : list (FilterCore.Filter W O)) :
  (forall f, In f fs -> accepted f w x = Ok (p f)) ->
  forall a, accepted_loop AND (fun f => accepted f w x) fs a = Ok (a && forallb p fs).
Proof.
  induction fs as [|f fs IH]; intros H a; cbn [accepted_loop forallb].
  - now rewrite andb_true_r.
  - destruct a; cbn [is_AND is_OR negb andb]; [|reflexivity].
    rewrite (H f (or_introl eq_refl)). cbn [bind].
    rewrite IH by (intros g Hg; apply H; now right). reflexivity.
Qed.

Lemma accepted_loop_or_any {W O : Type} (w : W) (x : O) (p : FilterCore.Filter W O -> bool)
      (fs : list (FilterCore.Filter W O)) :
  (forall f, In f fs -> accepted f w x = Ok (p f)) ->
  forall a, accepted_loop OR (fun f => accepted f w x) fs a = Ok (a || existsb p fs).
Proof.
  induction fs as [|f fs IH]; intros H a; cbn [accepted_loop existsb].
  - now rewrite orb_false_r.
  - destruct a; cbn [is_AND is_OR negb andb orb]; [reflexivity|].
    rewrite (H f (or_introl eq_refl)). cbn [bind].
    rewrite IH by (intros g Hg; apply H; now right). reflexivity.
Qed.

(** X1.  Grouping does not matter for [&] and for [|]: [(f1 & f2) & f3]
    and [f1 & (f2 & f3)] accept the same objects, reject the same objects
    and raise the same exceptions, and so do the two groupings of [|]. *)
Theorem X1_filter_and_or_associative {W O : Type} (f1 f2 f3 : FilterCore.Filter W O)
        (w : W) (x : O) :
  accepted (filter_and (filter_and f1 f2) f3) w x
  = accepted (filter_and f1 (filter_and f2 f3)) w x /\
  accepted (filter_or (filter_or f1 f2) f3) w x
  = accepted (filter_or f1 (filter_or f2 f3)) w x /\
  rejected (filter_and (filter_and f1 f2) f3) w x
  = rejected (filter_and f1 (filter_and f2 f3)) w x /\
  rejected (filter_or (filter_or f1 f2) f3) w x
  = rejected (filter_or f1 (filter_or f2 f3)) w x.
Proof.
  assert (A : accepted (filter_and (filter_and f1 f2) f3) w x
              = accepted (filter_and f1 (filter_and f2 f3)) w x).
  { rewrite !accepted_and. destruct (accepted f1 w x) as [[|]|e]; cbn [bind]; try reflexivity.
    all: destruct (accepted f2 w x) as [[|]|e]; reflexivity. }
  assert (B : accepted (filter_or (filter_or f1 f2) f3) w x
              = accepted (filter_or f1 (filter_or f2 f3)) w x).
  { rewrite !accepted_or. destruct (accepted f1 w x) as [[|]|e]; cbn [bind]; try reflexivity.
    all: destruct (accepted f2 w x) as [[|]|e]; reflexivity. }
  repeat split; try assumption; rewrite !rejected_accepted; congruence.
Qed.

(** X2.  A combination of filters that all answer on an object accepts it
    under [AND] if all of them do and under [OR] if one of them does.
    A combination without filters accepts every object and rejects none,
    under [OR] as well. *)
Theorem X2_combined_filter_all_any {W O : Type} (w : W) (x : O)
        (p : FilterCore.Filter W O -> bool)
        (f0 : FilterCore.Filter W O) (fs : list (FilterCore.Filter W O)) :
  (forall f, In f (f0 :: fs) -> accepted f w x = Ok (p f)) ->
  accepted (CombinedFilter AND (f0 :: fs)) w x = Ok (forallb p (f0 :: fs)) /\
  accepted (CombinedFilter OR (f0 :: fs)) w x = Ok (existsb p (f0 :: fs)) /\
  (forall o, accepted (CombinedFilter o []) w x = Ok true /\
             rejected (CombinedFilter o []) w x = Ok false).
Proof.
  intros H. split; [|split].
  - unfold CombinedFilter. rewrite accepted_combined, (H f0 (or_introl eq_refl)).
    cbn [bind]. apply accepted_loop_and_all. intros f Hf. apply H. now right.
  - unfold CombinedFilter. rewrite accepted_combined, (H f0 (or_introl eq_refl)).
    cbn [bind]. apply accepted_loop_or_any. intros f Hf. apply H. now right.
  - intros o. split; reflexivity.
Qed.

Lemma X2_combined_filter_all_any_witness :
  let f1 := FilterGreaterOrEqualDate (mkDate 2018 3 1) in
  let f2 := FilterLessOrEqualDate (mkDate 2018 3 31) in
  let p := fun f => answer (accepted f Sample.ledger (ETransaction 1%nat)) in
  accepted (CombinedFilter AND [f1; f2; f1]) Sample.ledger (ETransaction 1%nat)
  = Ok (forallb p [f1; f2; f1]) /\
  accepted (CombinedFilter OR [f1; f2; f1]) Sample.ledger (ETransaction 1%nat)
  = Ok (existsb p [f1; f2; f1]) /\
  (forall o, accepted (CombinedFilter o []) Sample.ledger (ETransaction 1%nat) = Ok true /\
             rejected (CombinedFilter o []) Sample.ledger (ETransaction 1%nat) = Ok false).
Proof.
  intros f1 f2 p. apply (X2_combined_filter_all_any Sample.ledger (ETransaction 1%nat) p).
  intros f [<- | [<- | [<- | []]]]; reflexivity.
Defined.

(** X3.  The filters of a combination are asked in order and the first
    decisive answer ends the test: under [AND] a filter that rejects after
    filters that accept makes the combination reject, under [OR] a filter
    that accepts after filters that reject makes it accept, and in both
    cases the filters after it are not asked, so that an exception they
    would raise does not show. *)
Theorem X3_combined_filter_short_circuit {W O : Type} (w : W) (x : O)
        (pre post : list (FilterCore.Filter W O)) (f : FilterCore.Filter W O) :
  ((forall g, In g pre -> accepted g w x = Ok true) -> accepted f w x = Ok false ->
   accepted (CombinedFilter AND (pre ++ f :: post)) w x = Ok false) /\
  ((forall g, In g pre -> accepted g w x = Ok false) -> accepted f w x = Ok true ->
   accepted (CombinedFilter OR (pre ++ f :: post)) w x = Ok true).
Proof.
  split; intros Hpre Hf.
  - assert (L : forall l, (forall g, In g l -> accepted g w x = Ok true) ->
                          accepted_loop AND (fun g => accepted g w x) (l ++ f :: post) true
                          = Ok false).
    { induction l as [|g l IH]; intros Hl; cbn [app accepted_loop is_AND is_OR negb andb].
      - rewrite Hf. cbn [bind]. now destruct post.
      - rewrite (Hl g (or_introl eq_refl)). cbn [bind]. apply IH. intros h Hh. apply Hl.
        now right. }
    unfold CombinedFilter. destruct pre as [|g pre]; cbn [app]; rewrite accepted_combined.
    + rewrite Hf. cbn [bind]. now destruct post.
    + rewrite (Hpre g (or_introl eq_refl)). cbn [bind]. apply L. intros h Hh. apply Hpre.
      now right.
  - assert (L : forall l, (forall g, In g l -> accepted g w x = Ok false) ->
                          accepted_loop OR (fun g => accepted g w x) (l ++ f :: post) false
                          = Ok true).
    { induction l as [|g l IH]; intros Hl; cbn [app accepted_loop is_AND is_OR negb andb].
      - rewrite Hf. cbn [bind]. now destruct post.
      - rewrite (Hl g (or_introl eq_refl)). cbn [bind]. apply IH. intros h Hh. apply Hl.
        now right. }
    unfold CombinedFilter. destruct pre as [|g pre]; cbn [app]; rewrite accepted_combined.
    + rewrite Hf. cbn [bind]. now destruct post.
    + rewrite (Hpre g (or_introl eq_refl)). cbn [bind]. apply L. intros h Hh. apply Hpre.
      now right.
Qed.

(** An instance: the last filter raises on every object, and is not asked. *)
Lemma X3_combined_filter_short_circuit_witness :
  let yes : Filter := FilterGreaterOrEqualDate (mkDate 2018 3 1) in
  let no : Filter := FilterLessOrEqualDate (mkDate 2018 3 31) in
  let raises : Filter := FilterCore.Leaf (fun _ _ => Raise TypeError) in
  accepted (CombinedFilter AND ([yes] ++ no :: [raises])) Sample.ledger (ETransaction 1%nat)
  = Ok false /\
  accepted (CombinedFilter OR ([no] ++ yes :: [raises])) Sample.ledger (ETransaction 1%nat)
  = Ok true.
Proof.
  intros yes no raises. split.
  - apply (proj1 (X3_combined_filter_short_circuit Sample.ledger (ETransaction 1%nat)
                    [yes] [raises] no)); [|reflexivity].
    intros g [<- | []]. reflexivity.
  - apply (proj2 (X3_combined_filter_short_circuit Sample.ledger (ETransaction 1%nat)
                    [no] [raises] yes)); [|reflexivity].
    intros g [<- | []]. reflexivity.
Defined.

(** ** The filters of the ledger *)

Lemma date_ltb_eqb_cases a b :
  date_ltb a b = true \/ date_ltb b a = true \/ a = b.
Proof.
  destruct (date_ltb a b) eqn:E1; [now left|]. destruct (date_ltb b a) eqn:E2; [now right; left|].
  right. right. apply date_eqb_eq. date_cases.
Qed.

Lemma date_leb_not_ltb a b : date_leb a b = true -> date_ltb b a = false.
Proof. intros H. date_cases. Qed.

(** X4.  [FilterDateRange] does not depend on the order of its two dates,
    and with the earlier date first it answers as the combination
    [FilterGreaterOrEqualDate(fromDate) & FilterLessOrEqualDate(tillDate)]
    does, on items and on transactions, exceptions included. *)
Theorem X4_FilterDateRange (st : Store) (obj : Entity) (a b : date) :
  accepted (FilterDateRange a b) st obj = accepted (FilterDateRange b a) st obj /\
  (date_leb a b = true ->
   accepted (FilterDateRange a b) st obj
   = accepted (filter_and (FilterGreaterOrEqualDate a) (FilterLessOrEqualDate b)) st obj).
Proof.
  split.
  - unfold FilterDateRange.
    destruct (date_ltb_eqb_cases a b) as [H | [H | ->]]; [| |reflexivity].
    + rewrite H, (date_ltb_asym a b H). reflexivity.
    + rewrite H, (date_ltb_asym b a H). reflexivity.
  - intros H. rewrite accepted_and. unfold FilterDateRange.
    rewrite (date_leb_not_ltb a b H).
    cbn [accepted Leaf FilterGreaterOrEqualDate FilterLessOrEqualDate].
    destruct (entity_date st obj) as [d|e]; cbn [bind]; [|reflexivity].
    now destruct (date_leb a d).
Qed.

Lemma X4_FilterDateRange_witness :
  accepted (FilterDateRange (mkDate 2018 3 1) (mkDate 2018 3 31)) Sample.ledger (EItem 0%nat)
  = accepted (FilterDateRange (mkDate 2018 3 31) (mkDate 2018 3 1)) Sample.ledger (EItem 0%nat) /\
  (date_leb (mkDate 2018 3 1) (mkDate 2018 3 31) = true ->
   accepted (FilterDateRange (mkDate 2018 3 1) (mkDate 2018 3 31)) Sample.ledger (EItem 0%nat)
   = accepted (filter_and (FilterGreaterOrEqualDate (mkDate 2018 3 1))
                          (FilterLessOrEqualDate (mkDate 2018 3 31)))
              Sample.ledger (EItem 0%nat)).
Proof.
  exact (X4_FilterDateRange Sample.ledger (EItem 0%nat) (mkDate 2018 3 1) (mkDate 2018 3 31)).
Defined.

Lemma hasItems_loop_exists (rej : ref -> result bool) (q : ref -> bool) (l : list ref) :
  (forall i, In i l -> rej i = Ok (q i)) ->
  hasItems_loop rej l = Ok (existsb (fun i => negb (q i)) l).
Proof.
  induction l as [|i l IH]; intros H; [reflexivity|].
  cbn [hasItems_loop existsb]. rewrite (H i (or_introl eq_refl)). cbn [bind].
  destruct (q i); cbn [negb orb]; [|reflexivity].
  apply IH. intros j Hj. apply H. now right.
Qed.

Lemma existsb_pointwise {A : Type} (p q : A -> bool) (l : list A) :
  (forall x, p x = q x) -> existsb p l = existsb q l.
Proof.
  intros H. induction l as [|x l IH]; [reflexivity|]. cbn [existsb]. now rewrite H, IH.
Qed.

Lemma negb_existsb_negb {A : Type} (p : A -> bool) (l : list A) :
  negb (existsb (fun i => negb (p i)) l) = forallb p l.
Proof.
  induction l as [|x l IH]; [reflexivity|]. cbn [existsb forallb].
  rewrite negb_orb, negb_involutive, IH. reflexivity.
Qed.

(** X5.  On a transaction whose items all get an answer to the question
    whether their account is one of the given accounts or below one,
    [FilterAccountsAndChildren] accepts if some item's account is, and
    [FilterNotAccountsAndChildren] accepts if every item's account is: a
    transaction with an item on another account is rejected by the latter,
    and a transaction with items on other accounts only by both. *)
Theorem X5_account_filters_on_transactions (fuel : nat) (st : Store) (accs : list ref)
        (t : ref) (p : ref -> bool) :
  (forall i, In i (t_items (transactions st t)) ->
             any_isSelfOrHasChildAccount fuel st accs (i_account (items st i)) = Ok (p i)) ->
  accepted (FilterAccountsAndChildren fuel accs) st (ETransaction t)
  = Ok (existsb p (t_items (transactions st t))) /\
  accepted (FilterNotAccountsAndChildren fuel accs) st (ETransaction t)
  = Ok (forallb p (t_items (transactions st t))).
Proof.
  intros H. split.
  - cbn [accepted FilterAccountsAndChildren item_filter Leaf]. unfold hasItems.
    rewrite (hasItems_loop_exists _ (fun i => negb (p i))).
    + cbn [bind]. f_equal. apply existsb_pointwise. intros i. apply negb_involutive.
    + intros i Hi. now rewrite (H i Hi).
  - cbn [accepted FilterNotAccountsAndChildren item_filter Leaf]. unfold hasItems.
    rewrite (hasItems_loop_exists _ p).
    + cbn [bind]. f_equal. apply negb_existsb_negb.
    + intros i Hi. rewrite (H i Hi). cbn [rmap bind]. now rewrite negb_involutive.
Qed.

Lemma X5_account_filters_on_transactions_witness :
  accepted (FilterAccountsAndChildren 2 [1%nat]) Sample.ledger (ETransaction 0%nat)
  = Ok (existsb (fun i => Nat.eqb i 0) (t_items (transactions Sample.ledger 0%nat))) /\
  accepted (FilterNotAccountsAndChildren 2 [1%nat]) Sample.ledger (ETransaction 0%nat)
  = Ok (forallb (fun i => Nat.eqb i 0) (t_items (transactions Sample.ledger 0%nat))).
Proof.
  apply (X5_account_filters_on_transactions 2 Sample.ledger [1%nat] 0%nat
           (fun i => Nat.eqb i 0)).
  intros i [<- | [<- | []]]; reflexivity.
Defined.

(** X6.  With consistent links, [FilterEqualValue] answers on an item as
    it does on the item's transaction: an item is accepted when any item of
    its transaction has the value.  An item of another value that is in no
    transaction raises [TypeError]. *)
Theorem X6_FilterEqualValue_item (st : Store) (value : Z) (i : ref) :
  links_consistent st ->
  (forall t, i_transaction (items st i) = Some t ->
             accepted (FilterEqualValue value) st (EItem i)
             = accepted (FilterEqualValue value) st (ETransaction t)) /\
  (i_transaction (items st i) = None -> value <> i_value (items st i) ->
   accepted (FilterEqualValue value) st (EItem i) = Raise TypeError).
Proof.
  intros [L _]. split.
  - intros t Ht. cbn [accepted FilterEqualValue Leaf]. rewrite Ht.
    destruct (Z.eqb_spec value (i_value (items st i))) as [E|E]; [|reflexivity].
    f_equal. symmetry. apply existsb_exists. exists i. split; [now apply L|].
    now apply Z.eqb_eq.
  - intros Ht Hv. cbn [accepted FilterEqualValue Leaf]. rewrite Ht.
    now destruct (Z.eqb_spec value (i_value (items st i))).
Qed.

Lemma X6_FilterEqualValue_item_witness :
  (forall t, i_transaction (items Sample.ledger 0%nat) = Some t ->
             accepted (FilterEqualValue (-250)) Sample.ledger (EItem 0%nat)
             = accepted (FilterEqualValue (-250)) Sample.ledger (ETransaction t)) /\
  (i_transaction (items Sample.ledger 0%nat) = None ->
   -250 <> i_value (items Sample.ledger 0%nat) ->
   accepted (FilterEqualValue (-250)) Sample.ledger (EItem 0%nat) = Raise TypeError).
Proof.
  apply (X6_FilterEqualValue_item Sample.ledger (-250) 0%nat). exact sample_links_consistent.
Defined.

(** X7.  What [FilterAccounts] accepts among the items,
    [FilterAccountsAndChildren] for the same accounts accepts too, where
    the trees below the accounts are within the depth searched. *)
Theorem X7_FilterAccounts_included (fuel : nat) (st : Store) (accs : list ref) (i : ref) :
  (forall a, In a accs -> depth_within st fuel a) ->
  accepted (FilterAccounts accs) st (EItem i) = Ok true ->
  accepted (FilterAccountsAndChildren fuel accs) st (EItem i) = Ok true.
Proof.
  intros D H. cbn [accepted FilterAccounts FilterAccountsAndChildren item_filter Leaf] in *.
  destruct (i_account (items st i)) as [a|]; [|discriminate].
  injection H as H. apply mem_In in H.
  induction accs as [|acc accs IH]; [destruct H|].
  cbn [any_isSelfOrHasChildAccount].
  destruct (isSelfOrHasChildAccount_total st fuel fuel acc (Some a)
              (D acc (or_introl eq_refl)) (le_n _)) as [b Hb].
  rewrite Hb. cbn [bind]. destruct b; [reflexivity|].
  destruct H as [<- | H].
  - unfold isSelfOrHasChildAccount in Hb. cbn [oref_eqb] in Hb.
    rewrite Nat.eqb_refl in Hb. discriminate.
  - apply IH; [|exact H]. intros a' Ha'. apply D. now right.
Qed.

Lemma X7_FilterAccounts_included_witness :
  accepted (FilterAccountsAndChildren 2 [1%nat]) Sample.ledger (EItem 0%nat) = Ok true.
Proof.
  apply (X7_FilterAccounts_included 2 Sample.ledger [1%nat] 0%nat); [|reflexivity].
  intros a [<- | []]. constructor. intros c [].
Defined.

Lemma answer_true (r : result bool) : (exists b, r = Ok b) -> answer r = true <-> r = Ok true.
Proof. intros [b ->]. cbn [answer]. split; [now intros -> | now intros [= ->]]. Qed.

(** X8.  Where the filter answers on the transactions of a database and
    on their items, [Database.filterTransactions] returns the transactions
    that the filter accepts and [Database.filterItems] returns the items
    that the filter accepts of the transactions that it accepts: an item
    that passes the filter is left out when its transaction does not. *)
Theorem X8_filterItems_members (st : Store) (f : Filter) (db : ref) :
  (forall t, In t (db_transactions (databases st db)) ->
             exists b, accepted f st (ETransaction t) = Ok b) ->
  (forall t i, In t (db_transactions (databases st db)) ->
               In i (t_items (transactions st t)) ->
               exists b, accepted f st (EItem i) = Ok b) ->
  exists ts its,
    Database_filterTransactions st f db = Ok ts /\
    Database_filterItems st f db = Ok its /\
    (forall t, In t ts <-> In t (db_transactions (databases st db)) /\
                           accepted f st (ETransaction t) = Ok true) /\
    (forall i, In i its <-> exists t, In t ts /\ In i (t_items (transactions st t)) /\
                                      accepted f st (EItem i) = Ok true).
Proof.
  intros HT HI.
  exists (List.filter (fun t => answer (accepted f st (ETransaction t)))
                      (db_transactions (databases st db))).
  eexists. split; [|split; [|split]].
  - unfold Database_filterTransactions. apply filterfalse_filter.
    intros t Ht. rewrite rejected_accepted. now rewrite (total_answer _ (HT t Ht)).
  - unfold Database_filterItems. now apply filterItems_loop_total.
  - intros t. rewrite filter_In. split; intros [H1 H2]; (split; [exact H1|]).
    + now apply answer_true; [apply HT|].
    + now apply answer_true; [apply HT|].
  - intros i. rewrite in_flat_map. split.
    + intros (t & Ht & Hi). destruct (answer (accepted f st (ETransaction t))) eqn:E;
        [|destruct Hi].
      apply filter_In in Hi as [Hi Ha]. exists t. split; [|split; [exact Hi|]].
      * apply filter_In. now split.
      * now apply answer_true; [apply (HI t)|].
    + intros (t & Ht & Hi & Ha). apply filter_In in Ht as [Ht E]. exists t.
      split; [exact Ht|]. rewrite E. apply filter_In. split; [exact Hi|].
      now apply answer_true; [apply (HI t)|].
Qed.

Lemma X8_filterItems_members_witness :
  exists ts its,
    Database_filterTransactions Sample.ledger (FilterEqualValue 500) 0%nat = Ok ts /\
    Database_filterItems Sample.ledger (FilterEqualValue 500) 0%nat = Ok its /\
    (forall t, In t ts <-> In t (db_transactions (databases Sample.ledger 0%nat)) /\
                           accepted (FilterEqualValue 500) Sample.ledger (ETransaction t)
                           = Ok true) /\
    (forall i, In i its <-> exists t, In t ts /\
                                      In i (t_items (transactions Sample.ledger t)) /\
                                      accepted (FilterEqualValue 500) Sample.ledger (EItem i)
                                      = Ok true).
Proof.
  apply (X8_filterItems_members Sample.ledger (FilterEqualValue 500) 0%nat).
  - intros t _. eexists. reflexivity.
  - intros t i [<- | [<- | []]] [<- | [<- | []]]; eexists; reflexivity.
Defined.

(** ** Accounts below and above an account *)

Lemma descends_snoc st a q c :
  descends st a q -> In c (a_childAccounts (accounts st q)) -> descends st a c.
Proof.
  induction 1 as [a | a c0 x Hc0 _ IH]; intros Hc.
  - apply (descends_below st a c c); [exact Hc | constructor].
  - apply (descends_below st a c0 c); [exact Hc0 | now apply IH].
Qed.

Lemma hasChildAccount_loop_found st child fuel (cs : list ref) c :
  (forall c', In c' cs -> exists b, hasChildAccount fuel st c' child = Ok b) ->
  In c cs -> hasChildAccount fuel st c child = Ok true ->
  (fix loop (cs : list ref) : result bool :=
     match cs with
     | [] => Ok false
     | c :: cs' =>
         let! b := hasChildAccount fuel st c child in
         if b then Ok true else loop cs'
     end) cs = Ok true.
Proof.
  induction cs as [|c' cs IH]; intros T Hc Hy; [destruct Hc|].
  destruct (T c' (or_introl eq_refl)) as [b Hb]. rewrite Hb. cbn [bind].
  destruct b; [reflexivity|]. destruct Hc as [-> | Hc]; [congruence|].
  apply IH; [|exact Hc|exact Hy]. intros c'' Hc''. apply T. now right.
Qed.

(** [hasChildAccount] finds every account below a child. *)
Lemma hasChildAccount_complete st x n :
  forall a fuel c, depth_within st n a -> (n <= fuel)%nat ->
                   In c (a_childAccounts (accounts st a)) -> descends st c x ->
                   hasChildAccount fuel st a (Some x) = Ok true.
Proof.
  induction n as [|n IH]; intros a fuel c D L Hc Hd; inversion D as [m a' Hch]; subst.
  destruct fuel as [|fuel]; [lia|]. cbn [hasChildAccount].
  destruct (existsb _ _) eqn:E; [reflexivity|].
  apply (hasChildAccount_loop_found st (Some x) fuel _ c).
  - intros c' Hc'. apply (hasChildAccount_total st (Some x) n); [now apply Hch | lia].
  - exact Hc.
  - inversion Hd as [a0 | a0 c2 x0 Hc2 Hd2]; subst.
    + exfalso. apply not_true_iff_false in E. apply E. apply existsb_exists.
      exists x. split; [exact Hc|]. cbn [oref_eqb]. apply Nat.eqb_refl.
    + apply (IH c fuel c2); [now apply Hch | lia | exact Hc2 | exact Hd2].
Qed.

(** X9.  In a tree of accounts within the depth searched,
    [hasChildAccount] returns, and it returns [True] exactly for the
    children of the account and the accounts below them; for the account
    itself it returns [False]. *)
Theorem X9_hasChildAccount_below (st : Store) (fuel : nat) (a : ref) (child : option ref) :
  depth_within st fuel a ->
  exists b, hasChildAccount fuel st a child = Ok b /\
            (b = true <-> exists c x, child = Some x /\
                                      In c (a_childAccounts (accounts st a)) /\
                                      descends st c x) /\
            hasChildAccount fuel st a (Some a) = Ok false.
Proof.
  intros D. destruct (hasChildAccount_total st child fuel a fuel D (le_n _)) as [b Hb].
  exists b. split; [exact Hb|]. split; [|now apply (hasChildAccount_self st fuel)].
  split.
  - intros ->. now apply (hasChildAccount_descends st child fuel).
  - intros (c & x & -> & Hc & Hd).
    rewrite (hasChildAccount_complete st x fuel a fuel c D (le_n _) Hc Hd) in Hb. congruence.
Qed.

Lemma X9_hasChildAccount_below_witness :
  exists b, hasChildAccount 2 Sample.ledger 0%nat (Some 2%nat) = Ok b /\
            (b = true <-> exists c x, Some 2%nat = Some x /\
                                      In c (a_childAccounts (accounts Sample.ledger 0%nat)) /\
                                      descends Sample.ledger c x) /\
            hasChildAccount 2 Sample.ledger 0%nat (Some 0%nat) = Ok false.
Proof.
  apply (X9_hasChildAccount_below Sample.ledger 2 0%nat (Some 2%nat)).
  constructor. intros c [<- | [<- | []]]; constructor; intros c' [].
Defined.

Lemma getChildAccounts_below_spec st n :
  forall a fuel, depth_within st n a -> (n <= fuel)%nat ->
    exists l, getChildAccounts_below fuel st (a_childAccounts (accounts st a)) = Ok l /\
              forall x, In x l <-> exists c, In c (a_childAccounts (accounts st a)) /\
                                             descends st c x.
Proof.
  induction n as [|n IH]; intros a fuel D L; inversion D as [m a' Hch]; subst.
  destruct fuel as [|fuel]; [lia|]. cbn [getChildAccounts_below].
  assert (T : forall c, In c (a_childAccounts (accounts st a)) ->
                        exists l, getChildAccounts_below fuel st
                                    (a_childAccounts (accounts st c)) = Ok l /\
                                  forall x, In x l <->
                                            exists c', In c' (a_childAccounts (accounts st c)) /\
                                                       descends st c' x).
  { intros c Hc. apply IH; [now apply Hch | lia]. }
  clear Hch D IH. induction (a_childAccounts (accounts st a)) as [|c cs IHcs].
  - exists []. split; [reflexivity|]. intros x. split; [intros [] | intros (c & [] & _)].
  - destruct (T c (or_introl eq_refl)) as (sub & -> & Hsub). cbn [bind].
    destruct IHcs as (rest & -> & Hrest); [intros c' Hc'; apply T; now right|].
    cbn [bind]. eexists. split; [reflexivity|]. intros x. cbn [In]. rewrite in_app_iff.
    rewrite Hsub, Hrest. split.
    + intros [<- | [(c' & Hc' & Hd) | (c' & Hc' & Hd)]].
      * exists c. split; [now left | constructor].
      * exists c. split; [now left|]. now apply (descends_below st c c' x).
      * exists c'. split; [now right | exact Hd].
    + intros (c' & [<- | Hc'] & Hd).
      * inversion Hd as [a0 | a0 c2 x0 Hc2 Hd2]; subst; [now left|].
        right. left. now exists c2.
      * right. right. now exists c'.
Qed.

(** X10.  In a tree of accounts within the depth searched,
    [getChildAccounts(True)] returns the accounts for which
    [hasChildAccount] returns [True]: the children and the accounts below
    them, and not the account itself.  Without [recurse] it returns the
    children. *)
Theorem X10_getChildAccounts_recursive (st : Store) (fuel : nat) (a : ref) :
  depth_within st fuel a ->
  exists l, getChildAccounts fuel st a true = Ok l /\
            (forall x, In x l <-> hasChildAccount fuel st a (Some x) = Ok true) /\
            ~ In a l /\
            getChildAccounts fuel st a false = Ok (a_childAccounts (accounts st a)).
Proof.
  intros D. destruct (getChildAccounts_below_spec st fuel a fuel D (le_n _)) as (l & Hl & Hin).
  exists l. split; [exact Hl|].
  assert (E : forall x, In x l <-> hasChildAccount fuel st a (Some x) = Ok true).
  { intros x. rewrite Hin. split.
    - intros (c & Hc & Hd). now apply (hasChildAccount_complete st x fuel a fuel c).
    - intros H. apply hasChildAccount_descends in H as (c & x' & [= <-] & Hc & Hd).
      now exists c. }
  split; [exact E|]. split; [|reflexivity].
  intros H. apply E in H. rewrite (hasChildAccount_self st fuel fuel a D (le_n _)) in H.
  discriminate.
Qed.

Lemma X10_getChildAccounts_recursive_witness :
  exists l, getChildAccounts 2 Sample.ledger 0%nat true = Ok l /\
            (forall x, In x l <-> hasChildAccount 2 Sample.ledger 0%nat (Some x) = Ok true) /\
            ~ In 0%nat l /\
            getChildAccounts 2 Sample.ledger 0%nat false
            = Ok (a_childAccounts (accounts Sample.ledger 0%nat)).
Proof.
  apply (X10_getChildAccounts_recursive Sample.ledger 2 0%nat).
  constructor. intros c [<- | [<- | []]]; constructor; intros c' [].
Defined.

Lemma isChildAccount_total st parent n :
  forall c fuel, parents_within st n c -> (n <= fuel)%nat ->
                 exists b, isChildAccount fuel st c parent = Ok b.
Proof.
  induction n as [|n IH]; intros c fuel P L; inversion P as [m c' Hp | m c' q Hp Pq]; subst;
    (destruct fuel as [|fuel]; [lia|]); cbn [isChildAccount]; rewrite Hp.
  - destruct (oref_eqb None parent); eauto.
  - destruct (oref_eqb (Some q) parent); [eauto|]. apply IH; [exact Pq | lia].
Qed.

Lemma isChildAccount_above st p :
  tree_consistent st ->
  forall fuel c, isChildAccount fuel st c (Some p) = Ok true ->
                 exists c0, In c0 (a_childAccounts (accounts st p)) /\ descends st c0 c.
Proof.
  intros [T _]. induction fuel as [|fuel IH]; intros c H; [discriminate|].
  cbn [isChildAccount] in H.
  destruct (a_parentAccount (accounts st c)) as [q|] eqn:Hq; cbn [oref_eqb] in H.
  - destruct (Nat.eqb_spec q p) as [-> | Hne].
    + exists c. split; [now apply T | constructor].
    + apply IH in H as (c0 & Hc0 & Hd). exists c0. split; [exact Hc0|].
      apply (descends_snoc st c0 q c Hd). now apply T.
  - discriminate.
Qed.

Lemma descends_parent st a x :
  tree_consistent st -> descends st a x ->
  a = x \/ exists q, a_parentAccount (accounts st x) = Some q /\ descends st a q.
Proof.
  intros [T _]. induction 1 as [a | a c x Hc Hd IH]; [now left|]. right.
  destruct IH as [-> | (q & Hq & Hdq)].
  - exists a. split; [now apply T | constructor].
  - exists q. split; [exact Hq|]. now apply (descends_below st a c q).
Qed.

Lemma isChildAccount_complete st p n :
  tree_consistent st ->
  forall c fuel c0, parents_within st n c -> (n <= fuel)%nat ->
                    In c0 (a_childAccounts (accounts st p)) -> descends st c0 c ->
                    isChildAccount fuel st c (Some p) = Ok true.
Proof.
  intros T. induction n as [|n IH]; intros c fuel c0 P L Hc0 Hd;
    inversion P as [m c' Hp | m c' q Hp Pq]; subst;
    (destruct fuel as [|fuel]; [lia|]); cbn [isChildAccount]; rewrite Hp; cbn [oref_eqb].
  - exfalso. destruct (descends_parent st c0 c T Hd) as [-> | (q & Hq & _)].
    + apply (proj1 T) in Hc0. congruence.
    + congruence.
  - destruct (Nat.eqb_spec q p) as [-> | Hne]; [reflexivity|].
    destruct (descends_parent st c0 c T Hd) as [-> | (q' & Hq' & Hdq)].
    + apply (proj1 T) in Hc0. congruence.
    + assert (q' = q) by congruence. subst q'.
      apply (IH q fuel c0); [exact Pq | lia | exact Hc0 | exact Hdq].
Qed.

(** X11.  Where the parent and child links of the accounts agree, the tree
    below [p] and the chain of parents above [c] being within the depth
    searched, [c.isChildAccount(p)] and [p.hasChildAccount(c)] return the
    same answer.  An account without a parent is a child account of
    [None]. *)
Theorem X11_isChildAccount_hasChildAccount (st : Store) (fuel : nat) (c p : ref) :
  tree_consistent st -> depth_within st fuel p -> parents_within st fuel c ->
  (exists b, isChildAccount fuel st c (Some p) = Ok b /\
             hasChildAccount fuel st p (Some c) = Ok b) /\
  (a_parentAccount (accounts st c) = None -> isChildAccount fuel st c None = Ok true).
Proof.
  intros T D P. split.
  - destruct (isChildAccount_total st (Some p) fuel c fuel P (le_n _)) as [b Hb].
    destruct (hasChildAccount_total st (Some c) fuel p fuel D (le_n _)) as [b' Hb'].
    exists b. split; [exact Hb|]. rewrite Hb'. f_equal.
    destruct b, b'; try reflexivity.
    + apply isChildAccount_above in Hb as (c0 & Hc0 & Hd); [|exact T].
      rewrite (hasChildAccount_complete st c fuel p fuel c0 D (le_n _) Hc0 Hd) in Hb'.
      congruence.
    + apply hasChildAccount_descends in Hb' as (c0 & x & [= <-] & Hc0 & Hd).
      rewrite (isChildAccount_complete st p fuel T c fuel c0 P (le_n _) Hc0 Hd) in Hb.
      congruence.
  - intros Hp. inversion P as [m c' Hq | m c' q Hq Pq]; subst; cbn [isChildAccount];
      rewrite Hp; reflexivity.
Qed.

Lemma sample_tree_consistent : tree_consistent Sample.ledger.
Proof.
  split.
  - intros c p. destruct p as [|[|[|[|p]]]]; destruct c as [|[|[|[|c]]]]; simpl; split;
      intros H; try congruence; intuition (try congruence; try lia).
  - intros p. destruct p as [|[|[|[|p]]]]; simpl; repeat constructor; simpl; intuition lia.
Qed.

Lemma sample_depth_within_root : depth_within Sample.ledger 2 0%nat.
Proof. constructor. intros c [<- | [<- | []]]; constructor; intros c' []. Qed.

Lemma sample_parents_within_foo : parents_within Sample.ledger 2 1%nat.
Proof.
  apply (parents_within_S Sample.ledger 1 1%nat 0%nat); [reflexivity|].
  now apply parents_within_top.
Qed.

Lemma X11_isChildAccount_hasChildAccount_witness :
  (exists b, isChildAccount 2 Sample.ledger 1%nat (Some 0%nat) = Ok b /\
             hasChildAccount 2 Sample.ledger 0%nat (Some 1%nat) = Ok b) /\
  (a_parentAccount (accounts Sample.ledger 1%nat) = None ->
   isChildAccount 2 Sample.ledger 1%nat None = Ok true).
Proof.
  apply (X11_isChildAccount_hasChildAccount Sample.ledger 2 1%nat 0%nat).
  - exact sample_tree_consistent.
  - exact sample_depth_within_root.
  - exact sample_parents_within_foo.
Defined.

(** ** Looking accounts up by path *)

Lemma join_split (sep : ascii) (s : string) : join sep (split sep s) = s.
Proof.
  induction s as [|c s IH]; [reflexivity|]. cbn [split].
  destruct (Ascii.eqb_spec c sep) as [-> | Hne].
  - destruct (split sep s) as [|p ps] eqn:E; [cbn in IH; now subst|].
    change (join sep (EmptyString :: p :: ps))
      with (EmptyString ++ String sep (join sep (p :: ps))).
    now rewrite IH.
  - destruct (split sep s) as [|p ps] eqn:E; [cbn in IH; now subst|].
    destruct ps as [|p' ps].
    + change (join sep [p]) with p in IH. now subst.
    + change (join sep (String c p :: p' :: ps))
        with (String c p ++ String sep (join sep (p' :: ps))).
      change (join sep (p :: p' :: ps)) with (p ++ String sep (join sep (p' :: ps))) in IH.
      now rewrite <- IH.
Qed.

Lemma length_append_text (s t : string) :
  String.length (s ++ t) = (String.length s + String.length t)%nat.
Proof. induction s as [|c s IH]; simpl; [reflexivity | now f_equal]. Qed.

Lemma split_rest_shorter (sep : ascii) (key p0 r : string) (rest : list string) :
  split sep key = p0 :: r :: rest ->
  (String.length (join sep (r :: rest)) < String.length key)%nat.
Proof.
  intros H. rewrite <- (join_split sep key), H.
  change (join sep (p0 :: r :: rest)) with (p0 ++ String sep (join sep (r :: rest))).
  rewrite length_append_text. cbn [String.length]. lia.
Qed.

(** [key in ...] and [...\[key\]] run the same search. *)
Lemma children_contain_get st :
  forall fuel cs key,
    children_contain fuel st cs key =
    match children_get fuel st cs key with
    | Ok _ => Ok true
    | Raise (KeyError _) => Ok false
    | Raise e => Raise e
    end.
Proof.
  induction fuel as [|fuel IH]; intros cs key; [reflexivity|].
  cbn [children_contain children_get].
  destruct (split SEPARATOR key) as [|p0 rest]; [reflexivity|].
  induction cs as [|acc cs IHcs]; [reflexivity|].
  destruct (String.eqb p0 (a_name (accounts st acc))); [|exact IHcs].
  destruct rest; [reflexivity | apply IH].
Qed.

Lemma children_get_answers st :
  forall fuel cs key,
    (String.length key < fuel)%nat ->
    (exists a, children_get fuel st cs key = Ok a) \/
    children_get fuel st cs key = Raise (KeyError "").
Proof.
  induction fuel as [|fuel IH]; intros cs key L; [lia|].
  cbn [children_get].
  destruct (split SEPARATOR key) as [|p0 rest] eqn:E; [now right|].
  induction cs as [|acc cs IHcs]; [now right|].
  destruct (String.eqb p0 (a_name (accounts st acc))); [|exact IHcs].
  destruct rest as [|r rest]; [left; eauto|].
  apply IH. pose proof (split_rest_shorter SEPARATOR key p0 r rest E). lia.
Qed.

Lemma children_get_single st fuel cs key a :
  has_char SEPARATOR key = false ->
  children_get (S fuel) st cs key = Ok a -> In a cs /\ a_name (accounts st a) = key.
Proof.
  intros Hk. cbn [children_get]. rewrite (split_no_separator SEPARATOR key Hk).
  induction cs as [|acc cs IH]; [discriminate|].
  destruct (String.eqb_spec key (a_name (accounts st acc))) as [E|E].
  - intros [= <-]. split; [now left | now symmetry].
  - intros H. destruct (IH H) as [H1 H2]. split; [now right | exact H2].
Qed.

Lemma contain_get_answers st cs key :
  (children_contain (S (String.length key)) st cs key = Ok true <->
   exists a, children_get (S (String.length key)) st cs key = Ok a) /\
  (children_contain (S (String.length key)) st cs key = Ok false <->
   children_get (S (String.length key)) st cs key = Raise (KeyError "")) /\
  ((exists a, children_get (S (String.length key)) st cs key = Ok a) \/
   children_get (S (String.length key)) st cs key = Raise (KeyError "")).
Proof.
  rewrite children_contain_get.
  destruct (children_get_answers st (S (String.length key)) cs key (Nat.lt_succ_diag_r _))
    as [[a Ha] | Hn].
  - rewrite Ha. repeat split; try discriminate; eauto; try (intros [a' Ha']; discriminate).
  - rewrite Hn. repeat split; try discriminate; eauto; try (intros [a' Ha']; discriminate).
Qed.

(** X12.  For an account and for a database, [key in x] is [True] exactly
    when [x\[key\]] returns an account, and [False] exactly when it raises
    [KeyError]; one of the two happens for every key.  For a key without
    separator the account returned is a child of that name. *)
Theorem X12_contains_getitem (st : Store) (self : ref) (key : string) :
  ((Account_contains st self key = Ok true <-> exists a, Account_getitem st self key = Ok a) /\
   (Account_contains st self key = Ok false <->
    Account_getitem st self key = Raise (KeyError "")) /\
   ((exists a, Account_getitem st self key = Ok a) \/
    Account_getitem st self key = Raise (KeyError ""))) /\
  ((Database_contains st self key = Ok true <-> exists a, Database_getitem st self key = Ok a) /\
   (Database_contains st self key = Ok false <->
    Database_getitem st self key = Raise (KeyError "")) /\
   ((exists a, Database_getitem st self key = Ok a) \/
    Database_getitem st self key = Raise (KeyError ""))) /\
  (forall a, has_char SEPARATOR key = false -> Account_getitem st self key = Ok a ->
             In a (a_childAccounts (accounts st self)) /\ a_name (accounts st a) = key).
Proof.
  split; [apply contain_get_answers|]. split; [apply contain_get_answers|].
  intros a Hk H. now apply (children_get_single st (String.length key)).
Qed.

Lemma X12_contains_getitem_witness :
  In 1%nat (a_childAccounts (accounts Sample.ledger 0%nat)) /\
  a_name (accounts Sample.ledger 1%nat) = "Foo".
Proof.
  apply (proj2 (proj2 (X12_contains_getitem Sample.ledger 0%nat "Foo")) 1%nat); reflexivity.
Defined.

(** ** Parents and children *)

Lemma Account_iadd_Account_fields st p c :
  mem c (a_childAccounts (accounts st p)) = false ->
  forall x,
    a_childAccounts (accounts (Account_iadd_Account st p c) x)
    = (if Nat.eqb x p then (a_childAccounts (accounts st p) ++ [c])%list
       else a_childAccounts (accounts st x)) /\
    a_parentAccount (accounts (Account_iadd_Account st p c) x)
    = (if Nat.eqb x c then Some p else a_parentAccount (accounts st x)) /\
    a_name (accounts (Account_iadd_Account st p c) x) = a_name (accounts st x) /\
    a_type (accounts (Account_iadd_Account st p c) x) = a_type (accounts st x) /\
    a_db (accounts (Account_iadd_Account st p c) x) = a_db (accounts st x).
Proof.
  intros H x. unfold Account_iadd_Account. rewrite H. cbn [negb].
  unfold set_a_parentAccount, set_a_childAccounts, upd. cbn.
  destruct (Nat.eqb_spec x c) as [-> | Hc]; destruct (Nat.eqb_spec c p) as [-> | Hp]; cbn;
    try rewrite Nat.eqb_refl; cbn; try (repeat split; reflexivity).
  all: destruct (Nat.eqb_spec x p) as [-> | Hx]; cbn; repeat split; reflexivity.
Qed.

Lemma Account_isub_Account_fields st p c :
  mem c (a_childAccounts (accounts st p)) = true ->
  forall x,
    a_childAccounts (accounts (Account_isub_Account st p c) x)
    = (if Nat.eqb x p then Ledger.remove c (a_childAccounts (accounts st p))
       else a_childAccounts (accounts st x)) /\
    a_parentAccount (accounts (Account_isub_Account st p c) x)
    = (if Nat.eqb x c then None else a_parentAccount (accounts st x)) /\
    a_name (accounts (Account_isub_Account st p c) x) = a_name (accounts st x) /\
    a_type (accounts (Account_isub_Account st p c) x) = a_type (accounts st x) /\
    a_db (accounts (Account_isub_Account st p c) x) = a_db (accounts st x).
Proof.
  intros H x. unfold Account_isub_Account. rewrite H.
  unfold set_a_parentAccount, set_a_childAccounts, upd. cbn.
  destruct (Nat.eqb_spec x c) as [-> | Hc]; destruct (Nat.eqb_spec c p) as [-> | Hp]; cbn;
    try rewrite Nat.eqb_refl; cbn; try (repeat split; reflexivity).
  all: destruct (Nat.eqb_spec x p) as [-> | Hx]; cbn; repeat split; reflexivity.
Qed.

Lemma remove_snoc_notin x l : ~ In x l -> Ledger.remove x (l ++ [x]) = l.
Proof.
  induction l as [|y l IH]; intros H; cbn [app Ledger.remove].
  - now rewrite Nat.eqb_refl.
  - destruct (Nat.eqb_spec x y) as [-> | Hne]; [exfalso; apply H; now left|].
    rewrite IH; [reflexivity|]. intros K. apply H. now right.
Qed.

Lemma tree_consistent_iadd st p c :
  tree_consistent st -> a_parentAccount (accounts st c) = None ->
  tree_consistent (Account_iadd_Account st p c).
Proof.
  intros [T N] Hc.
  assert (Hn : forall q, ~ In c (a_childAccounts (accounts st q))).
  { intros q K. apply T in K. congruence. }
  assert (M : mem c (a_childAccounts (accounts st p)) = false) by (apply mem_false_In, Hn).
  pose proof (Account_iadd_Account_fields st p c M) as F. split.
  - intros x q. destruct (F q) as (-> & _). destruct (F x) as (_ & -> & _).
    destruct (Nat.eqb_spec q p) as [-> | Hq]; destruct (Nat.eqb_spec x c) as [-> | Hx].
    + split; [reflexivity|]. intros _. apply in_or_app. right. now left.
    + rewrite in_app_iff, T. cbn [In]. intuition congruence.
    + split; [intros K; destruct (Hn q K) | intros [= K]; congruence].
    + apply T.
  - intros q. destruct (F q) as (-> & _). destruct (Nat.eqb_spec q p) as [-> | Hq]; [|apply N].
    apply NoDup_snoc; [apply N | apply Hn].
Qed.

Lemma tree_consistent_isub st p c :
  tree_consistent st -> tree_consistent (Account_isub_Account st p c).
Proof.
  intros [T N].
  destruct (mem c (a_childAccounts (accounts st p))) eqn:M;
    [|unfold Account_isub_Account; rewrite M; now split].
  pose proof (Account_isub_Account_fields st p c M) as F.
  assert (Hp : a_parentAccount (accounts st c) = Some p) by (apply T; now apply mem_In).
  split.
  - intros x q. destruct (F q) as (-> & _). destruct (F x) as (_ & -> & _).
    destruct (Nat.eqb_spec q p) as [-> | Hq]; destruct (Nat.eqb_spec x c) as [-> | Hx].
    + rewrite (In_remove c c _ (N p)). split; [intros [_ K]; congruence | discriminate].
    + rewrite (In_remove c x _ (N p)), T. tauto.
    + rewrite T. split; [congruence | discriminate].
    + apply T.
  - intros q. destruct (F q) as (-> & _). destruct (Nat.eqb_spec q p) as [-> | Hq]; [|apply N].
    apply NoDup_remove_first, N.
Qed.

(** X13.  Where the parent and child links of the accounts agree,
    [parent += account] for an account without parent and
    [parent -= account] for any account leave them in agreement; the
    account added is a child of the parent, with the parent as its parent
    account, and removing it again restores every account: its children,
    its parent, its name, type and database. *)
Theorem X13_account_parent_links (st : Store) (p c : ref) :
  tree_consistent st ->
  tree_consistent (Account_isub_Account st p c) /\
  (a_parentAccount (accounts st c) = None ->
   tree_consistent (Account_iadd_Account st p c) /\
   In c (a_childAccounts (accounts (Account_iadd_Account st p c) p)) /\
   a_parentAccount (accounts (Account_iadd_Account st p c) c) = Some p /\
   forall x,
     let st'' := Account_isub_Account (Account_iadd_Account st p c) p c in
     a_childAccounts (accounts st'' x) = a_childAccounts (accounts st x) /\
     a_parentAccount (accounts st'' x) = a_parentAccount (accounts st x) /\
     a_name (accounts st'' x) = a_name (accounts st x) /\
     a_type (accounts st'' x) = a_type (accounts st x) /\
     a_db (accounts st'' x) = a_db (accounts st x)).
Proof.
  intros T. split; [now apply tree_consistent_isub|]. intros Hc.
  assert (Hn : ~ In c (a_childAccounts (accounts st p))).
  { intros K. apply (proj1 T) in K. congruence. }
  assert (M : mem c (a_childAccounts (accounts st p)) = false) by now apply mem_false_In.
  pose proof (Account_iadd_Account_fields st p c M) as F.
  assert (I : In c (a_childAccounts (accounts (Account_iadd_Account st p c) p))).
  { destruct (F p) as (-> & _). rewrite Nat.eqb_refl. apply in_or_app. right. now left. }
  split; [now apply tree_consistent_iadd|]. split; [exact I|]. split.
  { destruct (F c) as (_ & -> & _). now rewrite Nat.eqb_refl. }
  intros x st''. subst st''.
  pose proof (Account_isub_Account_fields (Account_iadd_Account st p c) p c
                (proj2 (mem_In _ _) I) x) as (E1 & E2 & E3 & E4 & E5).
  destruct (F x) as (G1 & G2 & G3 & G4 & G5). destruct (F p) as (P1 & _).
  rewrite Nat.eqb_refl in P1. rewrite E1, E2, E3, E4, E5. clear E1 E2 E3 E4 E5.
  split; [|split; [|split; [|split]]]; try assumption.
  - destruct (Nat.eqb_spec x p) as [E | Hx].
    + rewrite P1, E. now apply remove_snoc_notin.
    + exact G1.
  - rewrite G2. destruct (Nat.eqb_spec x c) as [-> | Hx]; [now symmetry | reflexivity].
Qed.

Lemma X13_account_parent_links_witness :
  tree_consistent (Account_isub_Account Sample.ledger 1%nat 3%nat) /\
  (a_parentAccount (accounts Sample.ledger 3%nat) = None ->
   tree_consistent (Account_iadd_Account Sample.ledger 1%nat 3%nat) /\
   In 3%nat (a_childAccounts (accounts (Account_iadd_Account Sample.ledger 1%nat 3%nat) 1%nat)) /\
   a_parentAccount (accounts (Account_iadd_Account Sample.ledger 1%nat 3%nat) 3%nat)
   = Some 1%nat /\
   forall x,
     let st'' := Account_isub_Account (Account_iadd_Account Sample.ledger 1%nat 3%nat)
                                      1%nat 3%nat in
     a_childAccounts (accounts st'' x) = a_childAccounts (accounts Sample.ledger x) /\
     a_parentAccount (accounts st'' x) = a_parentAccount (accounts Sample.ledger x) /\
     a_name (accounts st'' x) = a_name (accounts Sample.ledger x) /\
     a_type (accounts st'' x) = a_type (accounts Sample.ledger x) /\
     a_db (accounts st'' x) = a_db (accounts Sample.ledger x)).
Proof.
  apply (X13_account_parent_links Sample.ledger 1%nat 3%nat). exact sample_tree_consistent.
Defined.

(** X14.  Adding an account does not take it away from where it was: after
    [parent += account] an account that had another parent is listed under
    both, with the new one as its parent account, so that the parent and
    child links no longer agree; and after [database += account] an account
    of another database is still in the list of that database. *)
Theorem X14_account_not_detached (st : Store) (n : nat) (p q c db db2 : ref) :
  (tree_consistent st -> a_parentAccount (accounts st c) = Some q -> q <> p ->
   let st' := Account_iadd_Account st p c in
   In c (a_childAccounts (accounts st' q)) /\
   In c (a_childAccounts (accounts st' p)) /\
   a_parentAccount (accounts st' c) = Some p /\
   ~ tree_consistent st') /\
  (In c (db_childAccounts (databases st db2)) -> a_db (accounts st c) = Some db2 ->
   db2 <> db -> ~ In c (db_childAccounts (databases st db)) ->
   exists st',
     Database_iadd_Account (3 + n) st db c = Ok st' /\
     In c (db_childAccounts (databases st' db)) /\
     In c (db_childAccounts (databases st' db2)) /\
     a_db (accounts st' c) = Some db).
Proof.
  split.
  - intros T Hq Hne st'. subst st'.
    assert (Hn : ~ In c (a_childAccounts (accounts st p))).
    { intros K. apply (proj1 T) in K. congruence. }
    assert (M : mem c (a_childAccounts (accounts st p)) = false) by now apply mem_false_In.
    pose proof (Account_iadd_Account_fields st p c M) as F.
    assert (I1 : In c (a_childAccounts (accounts (Account_iadd_Account st p c) q))).
    { destruct (F q) as (-> & _). destruct (Nat.eqb_spec q p) as [E | _]; [contradiction|].
      now apply (proj1 T). }
    assert (I2 : a_parentAccount (accounts (Account_iadd_Account st p c) c) = Some p).
    { destruct (F c) as (_ & -> & _). now rewrite Nat.eqb_refl. }
    split; [exact I1|]. split; [|split; [exact I2|]].
    + destruct (F p) as (-> & _). rewrite Nat.eqb_refl. apply in_or_app. right. now left.
    + intros [T' _]. apply T' in I1. congruence.
  - intros H2 Hdb Hne Hn. apply mem_false_In in Hn.
    exists (set_a_db (set_db_childAccounts st db
                        (db_childAccounts (databases st db) ++ [c])%list) c (Some db)).
    split; [|split; [|split]].
    + cbn [Nat.add Database_iadd_Account]. rewrite Hn. cbn [negb Account_iadd_Database].
      cbn [set_db_childAccounts accounts]. rewrite Hdb. cbn [oref_eqb].
      apply Nat.eqb_neq in Hne. rewrite Nat.eqb_sym, Hne. cbn [negb].
      destruct n; cbn [Database_iadd_Account set_a_db set_db_childAccounts databases];
        rewrite upd_same; cbn [db_childAccounts]; now rewrite mem_snoc.
    + cbn [set_a_db set_db_childAccounts databases]. rewrite upd_same. cbn [db_childAccounts].
      apply in_or_app. right. now left.
    + cbn [set_a_db set_db_childAccounts databases]. now rewrite upd_other.
    + cbn [set_a_db accounts]. now rewrite upd_same.
Qed.

Lemma X14_account_not_detached_witness :
  (let st' := Account_iadd_Account Sample.ledger 2%nat 1%nat in
   In 1%nat (a_childAccounts (accounts st' 0%nat)) /\
   In 1%nat (a_childAccounts (accounts st' 2%nat)) /\
   a_parentAccount (accounts st' 1%nat) = Some 2%nat /\
   ~ tree_consistent st') /\
  (exists st',
     Database_iadd_Account 3 Sample.ledger 1%nat 0%nat = Ok st' /\
     In 0%nat (db_childAccounts (databases st' 1%nat)) /\
     In 0%nat (db_childAccounts (databases st' 0%nat)) /\
     a_db (accounts st' 0%nat) = Some 1%nat).
Proof.
  split.
  - apply (proj1 (X14_account_not_detached Sample.ledger 0 2%nat 0%nat 1%nat 0%nat 0%nat)).
    + exact sample_tree_consistent.
    + reflexivity.
    + discriminate.
  - apply (proj2 (X14_account_not_detached Sample.ledger 0 0%nat 0%nat 0%nat 1%nat 0%nat)).
    + simpl. now left.
    + reflexivity.
    + discriminate.
    + simpl. tauto.
Defined.

(** ** Accounts and their database *)

Lemma Account_eta (a : Account) :
  mkAccount (a_name a) (a_type a) (a_db a) (a_parentAccount a) (a_childAccounts a) = a.
Proof. now destruct a. Qed.

Lemma Database_eta (d : Database) :
  mkDatabase (db_childAccounts d) (db_transactions d) (db_parsing d) = d.
Proof. now destruct d. Qed.

(** X15.  For an account that is in no database, [database += account]
    and [account += database] return the same store: the account is added
    at the end of the accounts of the database and the database is the
    account's; [database -= account] then restores every account and
    every database, and so does [account -= database]. *)
Theorem X15_database_account_round_trip (st : Store) (n : nat) (db acc : ref) :
  ~ In acc (db_childAccounts (databases st db)) ->
  a_db (accounts st acc) = None ->
  exists st',
    Database_iadd_Account (3 + n) st db acc = Ok st' /\
    Account_iadd_Database (3 + n) st acc db = Ok st' /\
    db_childAccounts (databases st' db) = (db_childAccounts (databases st db) ++ [acc])%list /\
    a_db (accounts st' acc) = Some db /\
    exists st'',
      Database_isub_Account (3 + n) st' db acc = Ok st'' /\
      Account_isub_Database (3 + n) st' acc db = Ok st'' /\
      (forall a, accounts st'' a = accounts st a) /\
      (forall d, databases st'' d = databases st d) /\
      items st'' = items st /\ transactions st'' = transactions st.
Proof.
  intros Hn Hdb. pose proof (proj2 (mem_false_In _ _) Hn) as M.
  set (cs := db_childAccounts (databases st db)) in *.
  exists (set_a_db (set_db_childAccounts st db (cs ++ [acc])%list) acc (Some db)).
  split; [|split; [|split; [|split]]].
  - cbn [Nat.add Database_iadd_Account]. fold cs. rewrite M. cbn [negb Account_iadd_Database].
    cbn [set_db_childAccounts accounts]. rewrite Hdb. cbn [oref_eqb negb].
    destruct n; cbn [Database_iadd_Account set_a_db set_db_childAccounts databases];
      rewrite upd_same; cbn [db_childAccounts]; now rewrite mem_snoc.
  - cbn [Nat.add Account_iadd_Database]. rewrite Hdb. cbn [oref_eqb negb Database_iadd_Account].
    cbn [set_a_db databases]. fold cs. rewrite M. cbn [negb].
    destruct n; cbn [Account_iadd_Database set_a_db set_db_childAccounts accounts];
      rewrite upd_same; cbn [a_db oref_eqb]; now rewrite Nat.eqb_refl.
  - cbn [set_a_db set_db_childAccounts databases]. now rewrite upd_same.
  - cbn [set_a_db accounts]. now rewrite upd_same.
  - set (st' := set_a_db (set_db_childAccounts st db (cs ++ [acc])%list) acc (Some db)).
    assert (C' : db_childAccounts (databases st' db) = (cs ++ [acc])%list).
    { cbn [st' set_a_db set_db_childAccounts databases]. now rewrite upd_same. }
    assert (D' : a_db (accounts st' acc) = Some db).
    { cbn [st' set_a_db accounts]. now rewrite upd_same. }
    exists (set_a_db (set_db_childAccounts st' db cs) acc None).
    split; [|split; [|split; [|split; [|split]]]].
    + cbn [Nat.add Database_isub_Account]. rewrite C', mem_snoc, (remove_snoc_notin acc cs Hn).
      cbn [Account_isub_Database]. cbn [set_db_childAccounts accounts]. rewrite D'.
      cbn [oref_eqb]. rewrite Nat.eqb_refl.
      destruct n; cbn [Database_isub_Account set_a_db set_db_childAccounts databases];
        rewrite upd_same; cbn [db_childAccounts]; now rewrite M.
    + cbn [Nat.add Account_isub_Database]. rewrite D'. cbn [oref_eqb]. rewrite Nat.eqb_refl.
      cbn [Database_isub_Account]. cbn [set_a_db databases]. rewrite C', mem_snoc.
      rewrite (remove_snoc_notin acc cs Hn).
      destruct n; cbn [Account_isub_Database set_a_db set_db_childAccounts accounts];
        rewrite upd_same; cbn [a_db oref_eqb]; reflexivity.
    + intros a. cbn [st' set_a_db set_db_childAccounts accounts]. unfold upd.
      destruct (Nat.eqb_spec a acc) as [-> | Ha]; [|reflexivity].
      rewrite Nat.eqb_refl. cbn. rewrite <- Hdb. apply Account_eta.
    + intros d. cbn [st' set_a_db set_db_childAccounts databases]. unfold upd.
      destruct (Nat.eqb_spec d db) as [-> | Hd]; [|reflexivity].
      rewrite Nat.eqb_refl. cbn. apply Database_eta.
    + reflexivity.
    + reflexivity.
Qed.

Lemma X15_database_account_round_trip_witness :
  exists st',
    Database_iadd_Account 3 Sample.ledger 0%nat 1%nat = Ok st' /\
    Account_iadd_Database 3 Sample.ledger 1%nat 0%nat = Ok st' /\
    db_childAccounts (databases st' 0%nat)
    = (db_childAccounts (databases Sample.ledger 0%nat) ++ [1%nat])%list /\
    a_db (accounts st' 1%nat) = Some 0%nat /\
    exists st'',
      Database_isub_Account 3 st' 0%nat 1%nat = Ok st'' /\
      Account_isub_Database 3 st' 1%nat 0%nat = Ok st'' /\
      (forall a, accounts st'' a = accounts Sample.ledger a) /\
      (forall d, databases st'' d = databases Sample.ledger d) /\
      items st'' = items Sample.ledger /\ transactions st'' = transactions Sample.ledger.
Proof.
  apply (X15_database_account_round_trip Sample.ledger 0 0%nat 1%nat).
  - simpl. intros [H | []]. discriminate.
  - reflexivity.
Defined.

(** ** Adding a transaction to a database and removing it again *)

Lemma insert_by_date_head st x y l :
  trn_le st x y -> insert_by_date st x (y :: l) = x :: y :: l.
Proof.
  intros Hy. cbn [insert_by_date]. unfold trn_le in Hy. unfold date_key_ltb.
  destruct (t_date (transactions st x)) as [dx|], (t_date (transactions st y)) as [dy|];
    try reflexivity; try contradiction.
  now rewrite (date_leb_not_ltb dx dy Hy).
Qed.

(** Sorting a sorted list with one more transaction at its end puts the
    transaction somewhere in the list and moves nothing else. *)
Lemma sort_by_date_snoc st t l :
  StronglySorted (trn_le st) l ->
  exists l1 l2, l = (l1 ++ l2)%list /\ sort_by_date st (l ++ [t]) = (l1 ++ t :: l2)%list.
Proof.
  unfold sort_by_date. rewrite fold_right_app. cbn [fold_right insert_by_date].
  induction 1 as [|x l Hs IH Hx]; cbn [fold_right].
  - exists [], []. split; reflexivity.
  - destruct IH as (l1 & l2 & -> & ->). rewrite List.Forall_forall in Hx.
    destruct l1 as [|y l1].
    + cbn [app]. cbn [insert_by_date].
      destruct (date_key_ltb (t_date (transactions st t)) (t_date (transactions st x))).
      * exists [], (x :: l2). split; [reflexivity|]. cbn [app]. f_equal.
        destruct l2 as [|z l2]; [reflexivity|].
        apply insert_by_date_head. apply Hx. now left.
      * exists [x], l2. split; reflexivity.
    + cbn [app]. rewrite (insert_by_date_head st x y); [|apply Hx; now left].
      exists (x :: y :: l1), l2. split; reflexivity.
Qed.

Lemma remove_middle x l1 l2 : ~ In x l1 -> Ledger.remove x (l1 ++ x :: l2) = (l1 ++ l2)%list.
Proof.
  induction l1 as [|y l1 IH]; intros H; cbn [app Ledger.remove].
  - now rewrite Nat.eqb_refl.
  - destruct (Nat.eqb_spec x y) as [-> | Hne]; [exfalso; apply H; now left|].
    rewrite IH; [reflexivity|]. intros K. apply H. now right.
Qed.

Lemma remove_sort_by_date_snoc st t l :
  StronglySorted (trn_le st) l -> ~ In t l ->
  Ledger.remove t (sort_by_date st (l ++ [t])) = l.
Proof.
  intros S Hn. destruct (sort_by_date_snoc st t l S) as (l1 & l2 & -> & ->).
  apply remove_middle. intros K. apply Hn. apply in_or_app. now left.
Qed.

(** X16.  For a database that is not being loaded, whose transactions are
    dated and in the order of their dates, and a dated transaction that is
    not one of them: [database += transaction] returns with the transaction
    in the list, the list in the order of the dates and the database set on
    the transaction; [database -= transaction] then returns with the list
    as it was before and no database on the transaction. *)
Theorem X16_database_transaction_round_trip (st : Store) (n : nat) (db t : ref) :
  db_parsing (databases st db) = false ->
  ~ In t (db_transactions (databases st db)) ->
  List.Forall (dated st) (t :: db_transactions (databases st db)) ->
  sorted_by_date st db ->
  exists st' st'',
    Database_iadd_Transaction (6 + n) st db t = Ok st' /\
    In t (db_transactions (databases st' db)) /\
    sorted_by_date st' db /\
    t_db (transactions st' t) = Some db /\
    Database_isub_Transaction (3 + n) st' db t = Ok st'' /\
    db_transactions (databases st'' db) = db_transactions (databases st db) /\
    t_db (transactions st'' t) = None.
Proof.
  intros Hp Hn Hd Hs.
  destruct (Database_iadd_Transaction_new n st db t Hp (proj2 (mem_false_In _ _) Hn) Hd)
    as (st' & R & _ & Hdb & Hl & Hs' & _).
  assert (I : In t (db_transactions (databases st' db))).
  { rewrite Hl. apply (Permutation_in _ (Permutation_sym (sort_by_date_perm st _))).
    apply in_or_app. right. now left. }
  assert (Hr : Ledger.remove t (db_transactions (databases st' db))
               = db_transactions (databases st db)).
  { rewrite Hl. now apply remove_sort_by_date_snoc. }
  exists st'. eexists. split; [exact R|]. split; [exact I|]. split; [exact Hs'|].
  split; [exact Hdb|].
  cbn [Nat.add Database_isub_Transaction]. rewrite (proj2 (mem_In _ _) I), Hr.
  cbn [Transaction_isub_Database]. cbn [set_db_transactions transactions]. rewrite Hdb.
  cbn [oref_eqb]. rewrite Nat.eqb_refl.
  assert (F : Database_isub_Transaction (S n)
                (set_t_db (set_db_transactions st' db (db_transactions (databases st db))) t None)
                db t
              = Ok (set_t_db (set_db_transactions st' db (db_transactions (databases st db)))
                             t None)).
  { cbn [Database_isub_Transaction]. rewrite databases_set_t_db, db_transactions_set_same.
    now rewrite (proj2 (mem_false_In _ _) Hn). }
  rewrite F. split; [reflexivity|]. split.
  - now rewrite databases_set_t_db, db_transactions_set_same.
  - apply t_db_set_t_db.
Qed.

Lemma X16_database_transaction_round_trip_witness :
  exists st' st'',
    Database_iadd_Transaction 6 Sample.three_loose 0%nat 1%nat = Ok st' /\
    In 1%nat (db_transactions (databases st' 0%nat)) /\
    sorted_by_date st' 0%nat /\
    t_db (transactions st' 1%nat) = Some 0%nat /\
    Database_isub_Transaction 3 st' 0%nat 1%nat = Ok st'' /\
    db_transactions (databases st'' 0%nat) = db_transactions (databases Sample.three_loose 0%nat) /\
    t_db (transactions st'' 1%nat) = None.
Proof.
  apply (X16_database_transaction_round_trip Sample.three_loose 0 0%nat 1%nat).
  - reflexivity.
  - simpl. tauto.
  - repeat constructor. unfold dated. simpl. discriminate.
  - unfold sorted_by_date. simpl. constructor.
Defined.

(** ** The balance of a transaction *)

Lemma values_set_i_transaction st i x j :
  i_value (items (set_i_transaction st i x) j) = i_value (items st j).
Proof.
  cbn [set_i_transaction items]. unfold upd.
  destruct (Nat.eqb_spec j i) as [-> | H]; reflexivity.
Qed.

Lemma isub_Transaction_values fuel :
  forall st a b st',
    (Item_isub_Transaction fuel st a b = Ok st' ->
     forall j, i_value (items st' j) = i_value (items st j)) /\
    (Transaction_isub_Item fuel st a b = Ok st' ->
     forall j, i_value (items st' j) = i_value (items st j)).
Proof.
  induction fuel as [|fuel IH]; intros st a b st'; [split; discriminate|].
  split; intros H j.
  - cbn [Item_isub_Transaction] in H.
    destruct (oref_eqb (Some b) (i_transaction (items st a))); [|now injection H as <-].
    rewrite (proj2 (IH _ _ _ _) H j). apply values_set_i_transaction.
  - cbn [Transaction_isub_Item] in H.
    destruct (mem b (t_items (transactions st a))); [|now injection H as <-].
    rewrite (proj1 (IH _ _ _ _) H j). reflexivity.
Qed.

Lemma iadd_Transaction_values fuel :
  forall st a b st',
    (Item_iadd_Transaction fuel st a b = Ok st' ->
     forall j, i_value (items st' j) = i_value (items st j)) /\
    (Transaction_iadd_Item fuel st a b = Ok st' ->
     forall j, i_value (items st' j) = i_value (items st j)).
Proof.
  induction fuel as [|fuel IH]; intros st a b st'; [split; discriminate|].
  split; intros H j.
  - cbn [Item_iadd_Transaction] in H.
    destruct (negb (oref_eqb (Some b) (i_transaction (items st a)))); [|now injection H as <-].
    assert (E : exists st1,
               match i_transaction (items st a) with
               | Some old =>
                   if Transaction_bool st old
                   then let! st0 := Transaction_isub_Item fuel st old a in
                        Ok (set_i_transaction st0 a (Some old))
                   else Ok st
               | None => Ok st
               end = Ok st1 /\
               forall j, i_value (items st1 j) = i_value (items st j)).
    { destruct (i_transaction (items st a)) as [old|]; [|now exists st].
      destruct (Transaction_bool st old); [|now exists st].
      destruct (Transaction_isub_Item fuel st old a) as [st0|e] eqn:E0; [|discriminate].
      cbn [bind]. eexists. split; [reflexivity|]. intros k.
      rewrite values_set_i_transaction.
      exact (proj2 (isub_Transaction_values fuel _ _ _ _) E0 k). }
    destruct E as (st1 & E1 & V1). rewrite E1 in H. cbn [bind] in H.
    destruct (Transaction_iadd_Item fuel (set_i_transaction st1 a (Some b)) b a)
      as [st3|e] eqn:E3; [|discriminate].
    cbn [bind] in H. injection H as <-.
    rewrite values_set_i_transaction, (proj2 (IH _ _ _ _) E3 j), values_set_i_transaction.
    apply V1.
  - cbn [Transaction_iadd_Item] in H.
    destruct (negb (mem b (t_items (transactions st a)))); [|now injection H as <-].
    rewrite (proj1 (IH _ _ _ _) H j). reflexivity.
Qed.

Lemma values_of_pointwise st st' l :
  (forall j, i_value (items st' j) = i_value (items st j)) -> values_of st' l = values_of st l.
Proof. intros H. unfold values_of. apply map_ext. exact H. Qed.

Lemma values_of_snoc st l x :
  values_of st (l ++ [x]) = (values_of st l ++ [i_value (items st x)])%list.
Proof. unfold values_of. now rewrite map_app. Qed.

Lemma exact_sum_remove st (l : list ref) (x : ref) :
  In x l ->
  exact_sum (values_of st (Ledger.remove x l)) = exact_sum (values_of st l) - i_value (items st x).
Proof.
  unfold values_of. induction l as [|y l IH]; intros H; [destruct H|].
  cbn [Ledger.remove]. destruct (Nat.eqb_spec x y) as [E | Hne].
  - rewrite E. cbn [List.map exact_sum fold_right].
    fold (exact_sum (List.map (fun i => i_value (items st i)) l)). lia.
  - destruct H as [E | H]; [congruence|]. cbn [List.map exact_sum fold_right].
    fold (exact_sum (List.map (fun i => i_value (items st i)) l)).
    fold (exact_sum (List.map (fun i => i_value (items st i)) (Ledger.remove x l))).
    rewrite (IH H). lia.
Qed.

Lemma magnitude_remove st (l : list ref) (x : ref) :
  magnitude (values_of st (Ledger.remove x l)) <= magnitude (values_of st l).
Proof.
  unfold values_of. induction l as [|y l IH]; [reflexivity|].
  cbn [Ledger.remove]. destruct (Nat.eqb_spec x y) as [E | Hne];
    cbn [List.map magnitude fold_right];
    fold (magnitude (List.map (fun i => i_value (items st i)) l)).
  - lia.
  - fold (magnitude (List.map (fun i => i_value (items st i)) (Ledger.remove x l))). lia.
Qed.

(** X17.  Moving an item from its transaction to another one, with
    [item += transaction], where the absolute values of the items of the
    one transaction, and those of the other with the item, add up to less
    than [10 ^ 28] hundredths: the balance of the new transaction is its
    balance before plus the value of the item, as numbers, and the balance
    of the old one its balance before minus the value; the sum of the two
    balances stays.  The balance of every other transaction stays, whatever
    the values are. *)
Theorem X17_getBalance_item_moves (st : Store) (n : nat) (i t1 t2 : ref) :
  links_consistent st ->
  i_transaction (items st i) = Some t1 -> t1 <> t2 ->
  magnitude (values_of st (t_items (transactions st t1))) < precision_limit ->
  magnitude (values_of st (t_items (transactions st t2))) + Z.abs (i_value (items st i))
  < precision_limit ->
  exists st',
    Item_iadd_Transaction (4 + n) st i t2 = Ok st' /\
    getBalance st' t2 = getBalance st t2 + i_value (items st i) /\
    getBalance st' t1 = getBalance st t1 - i_value (items st i) /\
    (forall t, t <> t1 -> t <> t2 -> getBalance st' t = getBalance st t) /\
    getBalance st' t1 + getBalance st' t2 = getBalance st t1 + getBalance st t2.
Proof.
  intros HL H1 Hne B1 B2.
  destruct (Item_iadd_Transaction_moves n st i t2 HL) as (st' & R & _ & _ & _ & A2 & A1 & _);
    [congruence|].
  pose proof (proj1 (iadd_Transaction_values (4 + n) st i t2 st') R) as V.
  assert (B : forall t, getBalance st' t
                        = fold_left (fun s j => plus s (i_value (items st j)))
                                    (t_items (transactions st' t)) 0).
  { intros t. unfold getBalance. generalize 0.
    induction (t_items (transactions st' t)) as [|x l IH]; intros a; cbn [fold_left];
      [reflexivity|]. now rewrite V, IH. }
  pose proof (magnitude_nonneg (values_of st (t_items (transactions st t2)))) as N2.
  assert (E2 : getBalance st' t2 = getBalance st t2 + i_value (items st i)).
  { rewrite (getBalance_exact st t2) by lia.
    rewrite B, A2. fold (values_of st (t_items (transactions st t2))).
    rewrite (fold_plus_exact (fun j => i_value (items st j))).
    - fold (values_of st (t_items (transactions st t2) ++ [i])).
      rewrite values_of_snoc, exact_sum_app. cbn [exact_sum fold_right]. lia.
    - fold (values_of st (t_items (transactions st t2) ++ [i])).
      rewrite values_of_snoc, magnitude_app. cbn [magnitude fold_right Z.abs]. lia. }
  assert (E1 : getBalance st' t1 = getBalance st t1 - i_value (items st i)).
  { rewrite (getBalance_exact st t1) by exact B1.
    rewrite B, (A1 t1 Hne).
    pose proof (magnitude_remove st (t_items (transactions st t1)) i) as M.
    rewrite (fold_plus_exact (fun j => i_value (items st j))).
    - fold (values_of st (Ledger.remove i (t_items (transactions st t1)))).
      rewrite exact_sum_remove; [lia|]. now apply (proj1 HL).
    - fold (values_of st (Ledger.remove i (t_items (transactions st t1)))).
      cbn [Z.abs]. lia. }
  exists st'. split; [exact R|]. split; [exact E2|]. split; [exact E1|]. split; [|lia].
  intros t Ht1 Ht2. rewrite B, (A1 t Ht2), remove_notin; [reflexivity|].
  intros K. apply (proj1 HL) in K. congruence.
Qed.

Lemma X17_getBalance_item_moves_witness :
  exists st',
    Item_iadd_Transaction 4 Sample.ledger 0%nat 1%nat = Ok st' /\
    getBalance st' 1%nat = getBalance Sample.ledger 1%nat + i_value (items Sample.ledger 0%nat) /\
    getBalance st' 0%nat = getBalance Sample.ledger 0%nat - i_value (items Sample.ledger 0%nat) /\
    (forall t, t <> 0%nat -> t <> 1%nat -> getBalance st' t = getBalance Sample.ledger t) /\
    getBalance st' 0%nat + getBalance st' 1%nat
    = getBalance Sample.ledger 0%nat + getBalance Sample.ledger 1%nat.
Proof.
  apply (X17_getBalance_item_moves Sample.ledger 0 0%nat 0%nat 1%nat).
  - exact sample_links_consistent.
  - reflexivity.
  - discriminate.
  - vm_compute. reflexivity.
  - vm_compute. reflexivity.
Defined.

(** ** Ranges and steps of dates *)

(** X18.  For a date before December of the last year that dates have,
    [startofmonth] returns the first and [endofmonth] the last day of its
    month: days of the same month, the one not after and the other not
    before the given day; these are the two dates of the monthly range of
    the day, and [startofmonth] of the first returns the first again. *)
Theorem X18_start_and_end_of_month (d : date) :
  calendar_day d -> MINYEAR <= year d <= MAXYEAR -> before_last_month d ->
  exists a b,
    startofmonth d = Ok (Some a) /\ endofmonth d = Ok (Some b) /\
    day a = 1 /\ day b = days_in_month (year d) (month d) /\
    same_month a d = true /\ same_month b d = true /\
    date_leb a d = true /\ date_leb d b = true /\
    rangeDateFromTillByInterval d d INTERVAL_MONTHLY = Ok (Some a, Some b) /\
    startofmonth a = Ok (Some a) /\ endofmonth b = Ok (Some b).
Proof.
  intros [Hm Hd] Hy Hb. exists (first_of_month d), (last_of_month d).
  pose proof (startofmonth_first d Hm Hy) as S. pose proof (endofmonth_last d Hm Hy Hb) as E.
  split; [exact S|]. split; [exact E|]. split; [reflexivity|]. split; [reflexivity|].
  split; [unfold same_month; cbn [first_of_month year month]; now rewrite !Z.eqb_refl|].
  split; [unfold same_month; cbn [last_of_month year month]; now rewrite !Z.eqb_refl|].
  split; [unfold first_of_month; date_cases|].
  split; [unfold last_of_month; date_cases|].
  split; [cbn [rangeDateFromTillByInterval]; now rewrite S, E|].
  split.
  - apply (startofmonth_first (first_of_month d)); [exact Hm | exact Hy].
  - apply (endofmonth_last (last_of_month d)); [exact Hm | exact Hy | exact Hb].
Qed.

Lemma X18_start_and_end_of_month_witness :
  exists a b,
    startofmonth (mkDate 2020 2 14) = Ok (Some a) /\
    endofmonth (mkDate 2020 2 14) = Ok (Some b) /\
    day a = 1 /\ day b = days_in_month 2020 2 /\
    same_month a (mkDate 2020 2 14) = true /\ same_month b (mkDate 2020 2 14) = true /\
    date_leb a (mkDate 2020 2 14) = true /\ date_leb (mkDate 2020 2 14) b = true /\
    rangeDateFromTillByInterval (mkDate 2020 2 14) (mkDate 2020 2 14) INTERVAL_MONTHLY
    = Ok (Some a, Some b) /\
    startofmonth a = Ok (Some a) /\ endofmonth b = Ok (Some b).
Proof.
  apply (X18_start_and_end_of_month (mkDate 2020 2 14)).
  - unfold calendar_day. cbn [year month day]. change (days_in_month 2020 2) with 29. lia.
  - unfold MINYEAR, MAXYEAR. cbn [year]. lia.
  - left. unfold MAXYEAR. cbn [year]. lia.
Defined.

(** X28.  For a date of December of the last year that dates have,
    [startofmonth] returns the first day of the month and [endofmonth]
    raises [ValueError]: it goes through the last week of the month, which
    ends in a year that is out of range.  The monthly range of the date and
    the monthly steps of a range that ends with it raise the same. *)
Theorem X28_december_of_last_year (d fromDate : date) (fuel : nat) :
  year d = MAXYEAR -> month d = 12 ->
  1 <= month fromDate <= 12 -> MINYEAR <= year fromDate <= MAXYEAR ->
  startofmonth d = Ok (Some (first_of_month d)) /\
  endofmonth d = Raise ValueError /\
  rangeDateFromTillByInterval d d INTERVAL_MONTHLY = Raise ValueError /\
  getIntervalSteps fuel fromDate d INTERVAL_MONTHLY = Raise ValueError.
Proof.
  intros Hy Hm Hf Yf. destruct d as [y m dd]. cbn [year month] in Hy, Hm. subst y m.
  assert (S : startofmonth (mkDate MAXYEAR 12 dd) = Ok (Some (mkDate MAXYEAR 12 1)))
    by (vm_compute; reflexivity).
  assert (E : endofmonth (mkDate MAXYEAR 12 dd) = Raise ValueError)
    by (vm_compute; reflexivity).
  split; [exact S|]. split; [exact E|].
  split; [cbn [rangeDateFromTillByInterval]; now rewrite S, E|].
  unfold getIntervalSteps. cbn [rangeDateFromTillByInterval].
  now rewrite (startofmonth_first fromDate Hf Yf), E.
Qed.

Lemma X28_december_of_last_year_witness :
  startofmonth (mkDate 9999 12 24) = Ok (Some (first_of_month (mkDate 9999 12 24))) /\
  endofmonth (mkDate 9999 12 24) = Raise ValueError /\
  rangeDateFromTillByInterval (mkDate 9999 12 24) (mkDate 9999 12 24) INTERVAL_MONTHLY
  = Raise ValueError /\
  getIntervalSteps 3 (mkDate 9999 11 2) (mkDate 9999 12 24) INTERVAL_MONTHLY
  = Raise ValueError.
Proof.
  apply (X28_december_of_last_year (mkDate 9999 12 24) (mkDate 9999 11 2) 3).
  - reflexivity.
  - reflexivity.
  - cbn [month]. lia.
  - unfold MINYEAR, MAXYEAR. cbn [year]. lia.
Defined.

Lemma add_days_calendar k d : calendar_day d -> calendar_day (add_days k d).
Proof.
  intros H. induction k as [|k IH]; [exact H|]. rewrite add_days_S.
  now apply next_day_spec.
Qed.

Lemma add_days_increases k j d :
  calendar_day d -> date_ltb (add_days k d) (add_days (k + S j) d) = true.
Proof.
  intros H. induction j as [|j IH].
  - replace (k + 1)%nat with (S k) by lia. rewrite (add_days_S k).
    now apply next_day_spec, add_days_calendar.
  - replace (k + S (S j))%nat with (S (k + S j)) by lia. rewrite (add_days_S (k + S j)).
    apply (date_ltb_trans _ (add_days (k + S j) d)); [exact IH|].
    now apply next_day_spec, add_days_calendar.
Qed.

Lemma steps_loop_daily a m :
  calendar_day a ->
  forall k fuel, (m <= fuel)%nat ->
    steps_loop fuel INTERVAL_DAILY (add_days k a) (add_days (k + m) a)
    = Ok (List.map (fun j => add_days j a) (seq k m)).
Proof.
  intros H. induction m as [|m IH]; intros k fuel L.
  - replace (k + 0)%nat with k by lia.
    destruct fuel; cbn [steps_loop]; now rewrite date_ltb_irrefl.
  - destruct fuel as [|fuel]; [lia|]. cbn [steps_loop].
    rewrite (add_days_increases k m a H). cbn [inc bind].
    change (add_days 1 (add_days k a)) with (next_day (add_days k a)).
    rewrite <- (add_days_S k a).
    replace (k + S m)%nat with (S k + m)%nat by lia.
    rewrite (IH (S k) fuel) by lia. reflexivity.
Qed.

(** X19.  The daily steps from a calendar day to the day [n] days later
    are the [n] days from the first on, one after the other: the last day
    of the range is not a step, and a range of one day has no steps. *)
Theorem X19_daily_steps (a : date) (n fuel : nat) :
  calendar_day a -> (n <= fuel)%nat ->
  getIntervalSteps fuel a (add_days n a) INTERVAL_DAILY
  = Ok (List.map (fun j => add_days j a) (seq 0 n)) /\
  ~ In (add_days n a) (List.map (fun j => add_days j a) (seq 0 n)) /\
  getIntervalSteps fuel a a INTERVAL_DAILY = Ok [].
Proof.
  intros H L. split; [|split].
  - unfold getIntervalSteps. cbn [rangeDateFromTillByInterval bind].
    exact (steps_loop_daily a n H 0 fuel L).
  - intros K. apply in_map_iff in K as (j & E & Hj). apply in_seq in Hj.
    pose proof (add_days_increases j (n - j - 1) a H) as I.
    replace (j + S (n - j - 1))%nat with n in I by lia.
    rewrite E, date_ltb_irrefl in I. discriminate.
  - unfold getIntervalSteps. cbn [rangeDateFromTillByInterval bind].
    destruct fuel; cbn [steps_loop]; now rewrite date_ltb_irrefl.
Qed.

Lemma X19_daily_steps_witness :
  getIntervalSteps 3 (mkDate 2018 2 27) (add_days 3 (mkDate 2018 2 27)) INTERVAL_DAILY
  = Ok (List.map (fun j => add_days j (mkDate 2018 2 27)) (seq 0 3)) /\
  ~ In (add_days 3 (mkDate 2018 2 27))
       (List.map (fun j => add_days j (mkDate 2018 2 27)) (seq 0 3)) /\
  getIntervalSteps 3 (mkDate 2018 2 27) (mkDate 2018 2 27) INTERVAL_DAILY = Ok [].
Proof.
  apply (X19_daily_steps (mkDate 2018 2 27) 3 3); [|lia].
  unfold calendar_day. cbn [year month day]. change (days_in_month 2018 2) with 28. lia.
Defined.

Lemma first_of_next_spec d :
  1 <= month d <= 12 ->
  1 <= month (first_of_next d) <= 12 /\ day (first_of_next d) = 1 /\
  date_ltb d (first_of_next d) = true.
Proof.
  intros H. unfold first_of_next.
  destruct (Z.ltb_spec (month d) 12); cbn [year month day]; (split; [lia|]);
    (split; [reflexivity|]); date_cases.
Qed.

Lemma iter_first_of_next_spec j d :
  1 <= month d <= 12 ->
  1 <= month (Nat.iter j first_of_next d) <= 12 /\
  date_leb d (Nat.iter j first_of_next d) = true.
Proof.
  intros H. induction j as [|j [IH1 IH2]]; cbn [Nat.iter].
  - split; [exact H | apply date_leb_refl].
  - destruct (first_of_next_spec _ IH1) as (A & _ & B). split; [exact A|].
    apply (date_leb_trans _ _ _ IH2). now apply date_ltb_leb.
Qed.

Lemma date_leb_ltb_trans a b c :
  date_leb a b = true -> date_ltb b c = true -> date_ltb a c = true.
Proof. intros H1 H2. date_cases. Qed.

Lemma map_iter_shift {A : Type} (f : A -> A) (d : A) (n : nat) :
  List.map (fun j => Nat.iter j f (f d)) (seq 0 n) = List.map (fun j => Nat.iter j f d) (seq 1 n).
Proof.
  rewrite <- seq_shift, map_map. apply map_ext. intros j. now rewrite Nat.iter_succ_r.
Qed.

Lemma before_first_range d till :
  date_leb d (first_of_month till) = true -> year till <= MAXYEAR -> before_last_month till ->
  year d <= MAXYEAR /\ before_last_month d.
Proof.
  unfold first_of_month, before_last_month, MAXYEAR. intros H Hy Hb.
  assert (K : year d < year till \/ (year d = year till /\ month d <= month till))
    by date_cases.
  lia.
Qed.

Lemma steps_loop_monthly till k :
  year till <= MAXYEAR -> before_last_month till ->
  forall d fuel,
    1 <= month d <= 12 -> day d = 1 ->
    Nat.iter k first_of_next d = first_of_month till ->
    (S k <= fuel)%nat ->
    steps_loop fuel INTERVAL_MONTHLY d (last_of_month till)
    = Ok (List.map (fun j => Nat.iter j first_of_next d) (seq 0 (S k))).
Proof.
  intros Hy Hb.
  induction k as [|k IH]; intros d fuel Hm Hd E L; (destruct fuel as [|fuel]; [lia|]).
  - change (d = first_of_month till) in E. subst d. cbn [steps_loop]. rewrite first_before_own_last.
    rewrite (inc_monthly_first _ Hd Hy Hb). cbn [bind].
    assert (F : steps_loop fuel INTERVAL_MONTHLY (first_of_next (first_of_month till))
                  (last_of_month till) = Ok []).
    { destruct fuel; cbn [steps_loop]; now rewrite next_first_after_last. }
    rewrite F. reflexivity.
  - cbn [steps_loop].
    assert (Le : date_leb d (first_of_month till) = true).
    { rewrite <- E. now apply iter_first_of_next_spec. }
    assert (Lt : date_ltb d (last_of_month till) = true).
    { apply (date_leb_ltb_trans _ (first_of_month till)); [exact Le|].
      apply first_before_own_last. }
    destruct (before_first_range d till Le Hy Hb) as [Yd Bd].
    rewrite Lt, (inc_monthly_first _ Hd Yd Bd). cbn [bind].
    destruct (first_of_next_spec d Hm) as (A & B & _).
    rewrite (IH (first_of_next d) fuel A B); [|now rewrite <- Nat.iter_succ_r|lia].
    rewrite map_iter_shift. reflexivity.
Qed.

(** X20.  The monthly steps of a range of dates whose last day is in the
    [k]-th month after the month of its first day, and before December of
    the last year that dates have, are the first days of the [k + 1] months
    from the month of the first day to the month of the last day, in order,
    whatever the days of the month of the two dates are. *)
Theorem X20_monthly_steps (fromDate tillDate : date) (k fuel : nat) :
  1 <= month fromDate <= 12 -> 1 <= month tillDate <= 12 ->
  MINYEAR <= year fromDate -> year tillDate <= MAXYEAR -> before_last_month tillDate ->
  Nat.iter k first_of_next (first_of_month fromDate) = first_of_month tillDate ->
  (S k <= fuel)%nat ->
  getIntervalSteps fuel fromDate tillDate INTERVAL_MONTHLY
  = Ok (List.map (fun j => Nat.iter j first_of_next (first_of_month fromDate)) (seq 0 (S k))).
Proof.
  intros Hf Ht Yf Yt Bt E L.
  assert (Le : date_leb (first_of_month fromDate) (first_of_month tillDate) = true).
  { rewrite <- E. now apply iter_first_of_next_spec. }
  assert (Yf' : MINYEAR <= year fromDate <= MAXYEAR).
  { split; [exact Yf|]. exact (proj1 (before_first_range _ _ Le Yt Bt)). }
  assert (Yt' : MINYEAR <= year tillDate <= MAXYEAR).
  { split; [|exact Yt]. unfold first_of_month in Le. unfold MINYEAR in *.
    assert (year fromDate <= year tillDate) by date_cases. lia. }
  unfold getIntervalSteps. cbn [rangeDateFromTillByInterval].
  rewrite (startofmonth_first fromDate Hf Yf'), (endofmonth_last tillDate Ht Yt' Bt).
  cbn [bind]. now apply steps_loop_monthly.
Qed.

Lemma X20_monthly_steps_witness :
  getIntervalSteps 4 (mkDate 2018 11 20) (mkDate 2019 2 3) INTERVAL_MONTHLY
  = Ok (List.map (fun j => Nat.iter j first_of_next (first_of_month (mkDate 2018 11 20)))
                 (seq 0 4)).
Proof.
  apply (X20_monthly_steps (mkDate 2018 11 20) (mkDate 2019 2 3) 3 4).
  - cbn [month]. lia.
  - cbn [month]. lia.
  - vm_compute. discriminate.
  - vm_compute. discriminate.
  - left. vm_compute. reflexivity.
  - reflexivity.
  - lia.
Defined.

(** ** The memo of a report and the values of a group *)

(** X21.  What [Report.items] and [Report.datasetMonthly] have returned
    once they return again, whatever the database has become and also after
    an account is added to the report with [+=]: adding an account does not
    clear the memo.  [setRange] clears both. *)
Theorem X21_report_memo (fuel : nat) (st : Store) (r : Report) :
  (forall its r1,
      Report_items fuel st r = Ok (its, r1) ->
      forall fuel' st' a,
        Report_items fuel' st' (Report_iadd r1 a) = Ok (its, Report_iadd r1 a)) /\
  (forall ds r1,
      datasetMonthly fuel st r = Ok (ds, r1) ->
      forall fuel' st' a,
        datasetMonthly fuel' st' (Report_iadd r1 a) = Ok (ds, Report_iadd r1 a)) /\
  (forall f t, r_items (setRange r f t) = None /\
               r_datasets (setRange r f t) !! "monthly" = None).
Proof.
  assert (K : forall r1 a, r_items (Report_iadd r1 a) = r_items r1 /\
                           r_datasets (Report_iadd r1 a) = r_datasets r1).
  { intros r1 a. unfold Report_iadd. now destruct (negb (mem a (r_accounts r1))). }
  split; [|split].
  - intros its r1 H fuel' st' a.
    assert (M : r_items r1 = Some its).
    { unfold Report_items in H. destruct (r_items r) as [l|] eqn:E.
      - now injection H as <- <-.
      - apply bind_Ok in H as (l & _ & H). now injection H as <- <-. }
    unfold Report_items. now rewrite (proj1 (K r1 a)), M.
  - intros ds r1 H fuel' st' a.
    assert (M : r_datasets r1 !! "monthly" = Some ds).
    { unfold datasetMonthly in H. destruct (r_datasets r !! "monthly") as [d|] eqn:E.
      - now injection H as <- <-.
      - apply bind_Ok in H as (grp & _ & H). apply bind_Ok in H as ([its self1] & _ & H).
        apply bind_Ok in H as (grp' & _ & H). apply bind_Ok in H as (labels & _ & H).
        apply bind_Ok in H as (dataset & _ & H). injection H as <- <-.
        cbn [set_r_dataset r_datasets]. apply lookup_insert_eq. }
    unfold datasetMonthly. now rewrite (proj2 (K r1 a)), M.
  - intros f t. split; [reflexivity | apply lookup_empty].
Qed.

Lemma X21_report_memo_witness :
  exists its r1,
    Report_items 2 Sample.ledger Sample.report = Ok (its, r1) /\
    Report_items 0 Sample.two_in_march (Report_iadd r1 2%nat) = Ok (its, Report_iadd r1 2%nat).
Proof.
  eexists. eexists. split; [reflexivity|].
  apply (proj1 (X21_report_memo 2 Sample.ledger Sample.report) _ _ eq_refl).
Defined.

Lemma exact_sum_nonzero l :
  exact_sum (List.map v_value (List.filter (fun v => negb (v_value v =? 0)) l))
  = exact_sum (List.map v_value l).
Proof.
  assert (C : forall x l', exact_sum (x :: l') = x + exact_sum l') by reflexivity.
  induction l as [|x l IH]; [reflexivity|]. cbn [List.filter List.map].
  destruct (Z.eqb_spec (v_value x) 0) as [E|E]; cbn [negb List.map]; rewrite !C, IH; lia.
Qed.

Lemma group_sum_exact g :
  magnitude (List.map v_value (grp_values g)) < precision_limit ->
  group_sum g = exact_sum (List.map v_value (grp_values g)).
Proof.
  intros H. unfold group_sum. rewrite fold_plus_exact by (cbn [Z.abs]; lia). lia.
Qed.

(** X22.  Without a cap, or with a cap that is not smaller than the number
    of values that are not zero, [sorted] returns those values, each once,
    in descending order.  Where the absolute values of the group add up to
    less than [10 ^ 28] hundredths, the amounts returned add up to the [sum]
    of the group, which is the sum of its values as numbers. *)
Theorem X22_sorted_uncapped (g : ReportDatasetGroup) (m : nat) :
  m = 0%nat \/ (List.length (nonzero_values g) <= m)%nat ->
  magnitude (List.map v_value (grp_values g)) < precision_limit ->
  Permutation (sorted g m) (nonzero_values g) /\
  StronglySorted value_ge (sorted g m) /\
  sum_values (sorted g m) = group_sum g /\
  group_sum g = exact_sum (List.map v_value (grp_values g)).
Proof.
  intros H B.
  assert (E : sorted g m = sort_desc (nonzero_values g)).
  { unfold sorted. fold (nonzero_values g). rewrite sort_desc_length.
    destruct H as [-> | H]; [reflexivity|].
    destruct (Nat.ltb_spec m (List.length (nonzero_values g))); [lia|].
    now rewrite andb_false_r. }
  rewrite E. split; [apply sort_desc_perm|]. split; [apply sort_desc_sorted|].
  split; [|now apply group_sum_exact].
  rewrite (group_sum_exact g B).
  pose proof (Permutation_map v_value (sort_desc_perm (nonzero_values g))) as P.
  rewrite sum_values_exact.
  - rewrite (exact_sum_perm _ _ P). unfold nonzero_values. apply exact_sum_nonzero.
  - rewrite (magnitude_perm _ _ P).
    pose proof (magnitude_filter v_value (fun v => negb (v_value v =? 0)) (grp_values g)).
    unfold nonzero_values. lia.
Qed.

Lemma X22_sorted_uncapped_witness :
  Permutation (sorted Sample.five_values 5) (nonzero_values Sample.five_values) /\
  StronglySorted value_ge (sorted Sample.five_values 5) /\
  sum_values (sorted Sample.five_values 5) = group_sum Sample.five_values /\
  group_sum Sample.five_values = exact_sum (List.map v_value (grp_values Sample.five_values)).
Proof.
  apply (X22_sorted_uncapped Sample.five_values 5).
  - right. simpl. lia.
  - vm_compute. reflexivity.
Defined.

(** ** The datasets by type and by expanded account *)





Lemma fold_add_new_head subs :
  forall x l, exists rest, fold_left add_new subs (x :: l) = x :: rest.
Proof.
  induction subs as [|s subs IH]; intros x l; cbn [fold_left]; [now exists l|].
  unfold add_new at 2. destruct (mem s (x :: l)); [apply IH|]. cbn [app]. apply IH.
Qed.

Lemma FilterAccounts_one_rejected st acc i :
  rejected (FilterAccounts [acc]) st (EItem i) = Ok (negb (on_account st acc i)).
Proof.
  rewrite rejected_accepted. cbn [accepted FilterAccounts item_filter Leaf rmap bind].
  unfold on_account. destruct (i_account (items st i)) as [a|]; [|reflexivity].
  unfold mem. cbn [existsb oref_eqb]. now rewrite orb_false_r.
Qed.

(** X24.  For a report over a range of dates from one month into the next,
    the second not December of the last year that dates have, with one
    selected account, where two or more of its items are on the account
    itself and dated in the first month: [datasetMonthlyExpanded] raises
    [TypeError], since it sorts the items of every account and month
    without a key and items cannot be compared. *)
Theorem X24_datasetMonthlyExpanded_two_items (st : Store) (fuel : nat) (acc db : ref)
        (fromDate tillDate : date) (its : list ref) (r1 : Report) :
  links_consistent st ->
  depth_within st fuel acc ->
  (2 <= fuel)%nat ->
  List.NoDup (db_transactions (databases st db)) ->
  (forall t, In t (db_transactions (databases st db)) ->
             exists d, t_date (transactions st t) = Some d /\ calendar_day d) ->
  calendar_day fromDate -> calendar_day tillDate -> next_month fromDate tillDate ->
  MINYEAR <= year fromDate -> year tillDate <= MAXYEAR -> before_last_month tillDate ->
  Report_items fuel st (Report_iadd (Report_init db fromDate tillDate) acc) = Ok (its, r1) ->
  (2 <= List.length (List.filter (on_account st acc)
                                 (List.filter (in_month st fromDate) its)))%nat ->
  datasetMonthlyExpanded fuel st (Report_iadd (Report_init db fromDate tillDate) acc)
  = Raise TypeError.
Proof.
  intros links tree L once dates from_day till_day two from_year till_year till_before
         Hits Hlen.
  destruct (Report_items_one st fuel acc db fromDate tillDate links tree once dates)
    as (its0 & Hits0 & N & Hall & _).
  rewrite Hits0 in Hits. injection Hits as <- <-.
  unfold datasetMonthlyExpanded.
  assert (E : r_datasets (Report_iadd (Report_init db fromDate tillDate) acc)
              !! "monthlyExpanded" = None) by apply lookup_empty.
  rewrite E.
  assert (F : r_fromDate (Report_iadd (Report_init db fromDate tillDate) acc) = fromDate)
    by reflexivity.
  assert (T : r_tillDate (Report_iadd (Report_init db fromDate tillDate) acc) = tillDate)
    by reflexivity.
  rewrite F, T.
  rewrite (ItemGroupingByDateRange_two st fromDate tillDate from_day till_day two
             from_year till_year till_before fuel L).
  cbn [bind]. rewrite Hits0. cbn [bind].
  rewrite (ItemGrouping_iadd_items_two st fromDate tillDate from_day till_day two
             from_year till_year till_before fuel acc its0 []); [|exact N|exact Hall].
  cbn [bind app].
  change (r_accounts (set_r_items (Report_iadd (Report_init db fromDate tillDate) acc)
                                  (Some its0))) with [acc].
  cbn [expand_accounts mem existsb].
  destruct (getChildAccounts_below_spec st fuel acc fuel tree (le_n _)) as (subs & Hsubs & _).
  unfold getChildAccounts. rewrite Hsubs. cbn [bind app].
  destruct (fold_add_new_head subs acc []) as (rest & ->).
  rewrite (groups_two st fromDate tillDate two). cbn [bind for_each].
  assert (V : expanded_value fuel st
                (mkItemGrouping
                   [(month_key fromDate, List.filter (in_month st fromDate) its0);
                    (month_key tillDate, List.filter (in_month st tillDate) its0)]
                   its0 INTERVAL_MONTHLY)
                (month_key fromDate) acc = Raise TypeError).
  { unfold expanded_value, groupItems. cbn [g_groups dict_get].
    rewrite key_eqb_month_key.
    rewrite (filterfalse_filter _ (on_account st acc))
      by (intros i _; apply FilterAccounts_one_rejected).
    cbn [bind]. unfold sort_items.
    destruct (Nat.leb_spec 2 (List.length (List.filter (on_account st acc)
                                             (List.filter (in_month st fromDate) its0))));
      [reflexivity | lia]. }
  rewrite V. reflexivity.
Qed.

Lemma two_in_march_links_consistent : links_consistent Sample.two_in_march.
Proof.
  split.
  - intros i t.
    destruct t as [|[|t]]; destruct i as [|[|[|i]]]; simpl; split; intros H;
      try congruence; intuition (try congruence; try lia).
  - intros t. destruct t as [|[|t]]; simpl; repeat constructor; simpl; intuition lia.
Qed.

Lemma X24_datasetMonthlyExpanded_two_items_witness :
  datasetMonthlyExpanded 2 Sample.two_in_march
    (Report_iadd (Report_init 0%nat (mkDate 2018 3 8) (mkDate 2018 4 1)) 0%nat)
  = Raise TypeError.
Proof.
  eapply (X24_datasetMonthlyExpanded_two_items Sample.two_in_march 2 0%nat 0%nat
            (mkDate 2018 3 8) (mkDate 2018 4 1) [0; 1]%nat).
  - exact two_in_march_links_consistent.
  - constructor. intros c [].
  - lia.
  - repeat constructor. simpl. tauto.
  - intros t [<- | []]. eexists. split; [reflexivity|].
    unfold calendar_day. cbn [year month day]. change (days_in_month 2018 3) with 31. lia.
  - unfold calendar_day. cbn [year month day]. change (days_in_month 2018 3) with 31. lia.
  - unfold calendar_day. cbn [year month day]. change (days_in_month 2018 4) with 30. lia.
  - left. cbn [year month day]. lia.
  - vm_compute. discriminate.
  - vm_compute. discriminate.
  - left. vm_compute. reflexivity.
  - vm_compute. reflexivity.
  - vm_compute. lia.
Defined.

(** ** Texts that [eval_decimal] does not take apart *)

Local Abbreviation chars_of s := (list_ascii_of_string s).

Lemma lstrip_blank s :
  (forall c, In c (chars_of s) -> is_space c = true) -> lstrip s = EmptyString.
Proof.
  induction s as [|c s IH]; intros H; [reflexivity|]. cbn [lstrip].
  rewrite (H c (or_introl eq_refl)). apply IH. intros c' Hc'. apply H. now right.
Qed.

(** X25.  A text that is empty or has white space only evaluates to
    [Decimal(0)], for every precision: the zero is returned as it is,
    written ["0"], and not brought to the digits of the precision. *)
Theorem X25_eval_decimal_blank (fuel : nat) (txt : string) (prec : Z) :
  (forall c, In c (chars_of txt) -> is_space c = true) ->
  eval_decimal (S fuel) txt prec = Ok Decimal_0 /\
  rmap Decimal_str (eval_decimal (S fuel) txt prec) = Ok "0".
Proof.
  intros H. assert (E : eval_decimal (S fuel) txt prec = Ok Decimal_0).
  { cbn [eval_decimal]. unfold strip. rewrite (lstrip_blank txt H). reflexivity. }
  split; [exact E|]. rewrite E. reflexivity.
Qed.

Lemma X25_eval_decimal_blank_witness :
  eval_decimal 1 "   " 2 = Ok Decimal_0 /\
  rmap Decimal_str (eval_decimal 1 "   " 2) = Ok "0".
Proof.
  apply (X25_eval_decimal_blank 0 "   " 2).
  intros c [<- | [<- | [<- | []]]]; reflexivity.
Defined.

Lemma match_char_within p s g rest :
  In (g, rest) (match_char p s) -> forall c, In c (chars_of rest) -> In c (chars_of s).
Proof.
  destruct s as [|c0 s]; [intros []|]. cbn [match_char].
  destruct (p c0); [|intros []]. intros [[= <- <-] | []] c Hc. now right.
Qed.

(** What a pattern leaves over is the end of the text it was matched at. *)
Lemma rmatch_within r :
  forall s g rest, In (g, rest) (rmatch r s) ->
                   forall c, In c (chars_of rest) -> In c (chars_of s).
Proof.
  induction r as [c0| | |cs|r1 IH1 r2 IH2|r IH|r IH|r IH|name r IH]; intros s g rest H;
    try (exact (match_char_within _ s g rest H)).
  - cbn [rmatch] in H. apply in_flat_map in H as ([g1 s1] & H1 & H).
    apply in_map_iff in H as ([g2 s2] & [= <- <-] & H2).
    intros c Hc. apply (IH1 s g1 s1 H1). now apply (IH2 s1 g2 s2 H2).
  - cbn [rmatch] in H. apply in_app_or in H as [H | [[= <- <-] | []]]; [|tauto].
    exact (IH s g rest H).
  - cbn [rmatch] in H.
    match type of H with
    | In _ (?f (nlen s) s) =>
        assert (S : forall n s' g' rest',
                   In (g', rest') (f n s') ->
                   forall c, In c (chars_of rest') -> In c (chars_of s'))
    end.
    { clear s g rest H. induction n as [|n IHn]; intros s g rest H.
      - destruct H as [[= <- <-] | []]. tauto.
      - apply in_app_or in H as [H | [[= <- <-] | []]]; [|tauto].
        apply in_flat_map in H as ([g1 s1] & H1 & H).
        destruct (nlen s1 <? nlen s)%nat; [|destruct H].
        apply in_map_iff in H as ([g2 s2] & [= <- <-] & H2).
        intros c Hc. apply (IH s g1 s1 H1). now apply (IHn s1 g2 s2 H2). }
    exact (S _ _ _ _ H).
  - cbn [rmatch] in H. apply in_flat_map in H as ([g1 s1] & H1 & H).
    apply in_map_iff in H as ([g2 s2] & [= <- <-] & H2).
    match type of H2 with
    | In _ (?f (nlen s1) s1) =>
        assert (S : forall n s' g' rest',
                   In (g', rest') (f n s') ->
                   forall c, In c (chars_of rest') -> In c (chars_of s'))
    end.
    { clear s g1 s1 g2 s2 H1 H2. induction n as [|n IHn]; intros s g rest H.
      - destruct H as [[= <- <-] | []]. tauto.
      - apply in_app_or in H as [H | [[= <- <-] | []]]; [|tauto].
        apply in_flat_map in H as ([g1 s1] & H1 & H).
        destruct (nlen s1 <? nlen s)%nat; [|destruct H].
        apply in_map_iff in H as ([g2 s2] & [= <- <-] & H2).
        intros c Hc. apply (IH s g1 s1 H1). now apply (IHn s1 g2 s2 H2). }
    intros c Hc. apply (IH s g1 s1 H1). exact (S _ _ _ _ H2 c Hc).
  - cbn [rmatch] in H. apply in_map_iff in H as ([g' s'] & [= <- <-] & H).
    exact (IH s g' s' H).
Qed.

Lemma flat_map_nil {A B : Type} (f : A -> list B) (l : list A) :
  (forall x, In x l -> f x = []) -> flat_map f l = [].
Proof.
  induction l as [|x l IH]; intros H; [reflexivity|]. cbn [flat_map].
  rewrite (H x (or_introl eq_refl)), IH; [reflexivity|]. intros y Hy. apply H. now right.
Qed.

Lemma match_char_eqb_none c s : ~ In c (chars_of s) -> match_char (Ascii.eqb c) s = [].
Proof.
  destruct s as [|c' s]; intros H; [reflexivity|]. cbn [match_char].
  destruct (Ascii.eqb_spec c c') as [-> | Hne]; [|reflexivity].
  exfalso. apply H. now left.
Qed.

(** A pattern with a sign between its two operands does not match a text
    without the sign. *)
Lemma rmatch_sign_none r1 c r2 s :
  ~ In c (chars_of s) -> rmatch (Seq r1 (Seq (Lit c) r2)) s = [].
Proof.
  intros H. cbn [rmatch]. apply flat_map_nil. intros [g1 s1] H1.
  rewrite (match_char_eqb_none c s1); [reflexivity|].
  intros K. apply H. exact (rmatch_within r1 s g1 s1 H1 c K).
Qed.

Lemma search_from_none r s :
  (forall s', (forall c, In c (chars_of s') -> In c (chars_of s)) -> rmatch r s' = []) ->
  forall b, search_from r b s = None.
Proof.
  induction s as [|c s IH]; intros H b; cbn [search_from]; rewrite (H _ (fun _ K => K)).
  - reflexivity.
  - apply IH. intros s' Hs'. apply H. intros c' Hc'. right. now apply Hs'.
Qed.

Lemma search_sign_none r1 c r2 s :
  ~ In c (chars_of s) -> search (Seq r1 (Seq (Lit c) r2)) s = None.
Proof.
  intros H. apply search_from_none. intros s' Hs'. apply rmatch_sign_none.
  intros K. apply H. now apply Hs'.
Qed.

Lemma search_PAR_none s : ~ In (ch "(") (chars_of s) -> search PAR_RE s = None.
Proof.
  intros H. apply search_from_none. intros s' Hs'. unfold PAR_RE. cbn [rmatch].
  rewrite match_char_eqb_none; [reflexivity|].
  intros K. apply H. now apply Hs'.
Qed.

Lemma string_rev_append_twice s :
  forall a b, string_rev_append (string_rev_append s a) b = string_rev_append a (s ++ b).
Proof.
  induction s as [|c s IH]; intros a b; [reflexivity|].
  cbn [string_rev_append]. rewrite IH. reflexivity.
Qed.

Lemma append_empty_r (s : string) : s ++ EmptyString = s.
Proof.
  induction s as [|c s IH]; [reflexivity|].
  change (String c s ++ EmptyString) with (String c (s ++ EmptyString)). now rewrite IH.
Qed.

Lemma string_rev_involutive s : string_rev (string_rev s) = s.
Proof.
  unfold string_rev. rewrite string_rev_append_twice. cbn [string_rev_append].
  apply append_empty_r.
Qed.

Lemma chars_of_rev_append s :
  forall a c, In c (chars_of (string_rev_append s a)) <-> In c (chars_of s) \/ In c (chars_of a).
Proof.
  induction s as [|c0 s IH]; intros a c; cbn [string_rev_append list_ascii_of_string].
  - cbn [In]. tauto.
  - rewrite IH. cbn [list_ascii_of_string In]. tauto.
Qed.

Lemma lstrip_unchanged s :
  (forall c, In c (chars_of s) -> is_space c = false) -> lstrip s = s.
Proof.
  destruct s as [|c s]; intros H; [reflexivity|]. cbn [lstrip].
  now rewrite (H c (or_introl eq_refl)).
Qed.

Lemma strip_unchanged s :
  (forall c, In c (chars_of s) -> is_space c = false) -> strip s = s.
Proof.
  intros H. unfold strip. rewrite (lstrip_unchanged s H), lstrip_unchanged.
  - apply string_rev_involutive.
  - intros c Hc. apply H. unfold string_rev in Hc. apply chars_of_rev_append in Hc.
    cbn [list_ascii_of_string In] in Hc. tauto.
Qed.

Lemma replace_char_unchanged a b s : ~ In a (chars_of s) -> replace_char a b s = s.
Proof.
  induction s as [|c s IH]; intros H; [reflexivity|]. cbn [replace_char].
  destruct (Ascii.eqb_spec c a) as [-> | Hne]; [exfalso; apply H; now left|].
  rewrite IH; [reflexivity|]. intros K. apply H. now right.
Qed.

(** The characters of a number without sign: digits, the dot and the
    comma. *)
Lemma number_char_facts c :
  is_digit c || Ascii.eqb c (ch ".") || Ascii.eqb c (ch ",") = true ->
  is_space c = false /\ c <> ch " " /\ c <> ch "(" /\ c <> ch "*" /\ c <> ch "/" /\
  c <> ch "+" /\ c <> ch "-".
Proof.
  intros H.
  assert (D : is_digit c = true \/ c = ch "." \/ c = ch ",").
  { apply orb_true_iff in H as [H | H]; [apply orb_true_iff in H as [H | H]|].
    - now left.
    - right. left. now apply Ascii.eqb_eq.
    - right. right. now apply Ascii.eqb_eq. }
  destruct D as [D | [-> | ->]].
  - unfold is_digit in D. apply andb_true_iff in D as [D1 D2].
    apply Nat.leb_le in D1, D2.
    split.
    + unfold is_space.
      destruct (Nat.leb_spec 9 (nat_of_ascii c)), (Nat.leb_spec (nat_of_ascii c) 13),
        (Nat.eqb_spec (nat_of_ascii c) 32), (Nat.leb_spec 28 (nat_of_ascii c)),
        (Nat.leb_spec (nat_of_ascii c) 31); cbn [andb orb]; try reflexivity; lia.
    + repeat split; intros ->; vm_compute in D1, D2; lia.
  - split; [reflexivity|]. repeat split; discriminate.
  - split; [reflexivity|]. repeat split; discriminate.
Qed.

(** X26.  A text that is not empty and has digits, dots and commas only is
    not taken apart: in one turn of the loop [eval_decimal] converts the
    whole text, commas read as dots, to a [Decimal] (an exception of the
    conversion is raised as it is) and brings it to the digits of a
    precision from 0 to 4; with another precision the value is returned as
    converted. *)
Theorem X26_eval_decimal_plain_number (fuel : nat) (txt : string) (prec : Z) :
  txt <> EmptyString ->
  (forall c, In c (chars_of txt) ->
             is_digit c || Ascii.eqb c (ch ".") || Ascii.eqb c (ch ",") = true) ->
  eval_decimal (S fuel) txt prec =
  bind (Decimal_of_string (norm txt))
       (fun d => match (if 0 <=? prec then nth_error PRECISION_SAMPLES (Z.to_nat prec)
                        else None) with
                 | Some q => quantize d q
                 | None => Ok d
                 end).
Proof.
  intros Hne H.
  assert (N : forall c, In c (chars_of txt) ->
                        is_space c = false /\ c <> ch " " /\ c <> ch "(" /\ c <> ch "*" /\
                        c <> ch "/" /\ c <> ch "+" /\ c <> ch "-").
  { intros c Hc. apply number_char_facts. now apply H. }
  assert (A : forall x, (forall c, In c (chars_of txt) -> c <> x) -> ~ In x (chars_of txt)).
  { intros x Hx K. exact (Hx x K eq_refl). }
  cbn [eval_decimal].
  rewrite (strip_unchanged txt) by (intros c Hc; apply (N c Hc)).
  rewrite (replace_char_unchanged (ch " ") EmptyString txt)
    by (apply A; intros c Hc; apply (N c Hc)).
  destruct txt as [|c0 txt]; [contradiction|].
  change (nlen (String c0 txt) =? 0)%nat with false. cbv iota.
  rewrite search_PAR_none by (apply A; intros c Hc; apply (N c Hc)).
  unfold MUL_RE, DIV_RE, ADD_RE, SUB_RE.
  rewrite !search_sign_none by (apply A; intros c Hc; apply (N c Hc)).
  reflexivity.
Qed.

Lemma X26_eval_decimal_plain_number_witness :
  eval_decimal 1 "1,5" 2 =
  bind (Decimal_of_string (norm "1,5"))
       (fun d => match (if 0 <=? 2 then nth_error PRECISION_SAMPLES (Z.to_nat 2)
                        else None) with
                 | Some q => quantize d q
                 | None => Ok d
                 end).
Proof.
  apply (X26_eval_decimal_plain_number 0 "1,5" 2); [discriminate|].
  intros c [<- | [<- | [<- | []]]]; reflexivity.
Defined.

(** ** Adding an item to a grouping and removing it *)

Lemma key_eqb_refl k : key_eqb k k = true.
Proof.
  unfold key_eqb, odate_eqb. apply andb_true_iff.
  split; [destruct (k_fromDate k) | destruct (k_tillDate k)]; try reflexivity;
    now apply date_eqb_eq.
Qed.

Lemma dict_get_set_same d k v : dict_get (dict_set d k v) k = Some v.
Proof.
  induction d as [|[k' v'] d IH]; cbn [dict_set dict_get].
  - now rewrite key_eqb_refl.
  - destruct (key_eqb k' k) eqn:E; cbn [dict_get]; rewrite E; [reflexivity | exact IH].
Qed.

(** X27.  For an item that is not in a grouping and has a group key there:
    [grouping += item] puts the item at the end of the items and of the
    list of its key, which is made if the grouping has none; the item is
    then in the grouping and adding it again changes nothing;
    [grouping -= item] takes it out of both lists, so that the items are
    as before, and the list of the key stays, empty if it was made for the
    item. *)
Theorem X27_ItemGrouping_add_remove (st : Store) (g : ItemGrouping) (i : ref)
        (k : DateRangeKey) :
  ~ In i (g_items g) ->
  getGroupKey st (g_interval g) i = Ok k ->
  (forall l, dict_get (g_groups g) k = Some l -> ~ In i l) ->
  let old := match dict_get (g_groups g) k with Some l => l | None => [] end in
  exists g' g'',
    ItemGrouping_iadd_Item st g i = Ok g' /\
    ItemGrouping_contains g' i = true /\
    g_items g' = (g_items g ++ [i])%list /\
    dict_get (g_groups g') k = Some (old ++ [i])%list /\
    ItemGrouping_iadd_Item st g' i = Ok g' /\
    ItemGrouping_isub_Item st g' i = Ok g'' /\
    g_items g'' = g_items g /\
    dict_get (g_groups g'') k = Some old /\
    ItemGrouping_contains g'' i = false.
Proof.
  intros Hn Hk Hl old.
  pose proof (proj2 (mem_false_In _ _) Hn) as M.
  assert (Ho : ~ In i old).
  { unfold old. destruct (dict_get (g_groups g) k) as [l|] eqn:E; [now apply Hl | intros []]. }
  assert (E1 : exists groups2,
             ItemGrouping_iadd_Item st g i
             = Ok (mkItemGrouping groups2 (g_items g ++ [i]) (g_interval g)) /\
             dict_get groups2 k = Some (old ++ [i])%list).
  { unfold ItemGrouping_iadd_Item. rewrite M, Hk. cbn [bind]. unfold dict_has, old.
    destruct (dict_get (g_groups g) k) as [l|] eqn:E.
    - rewrite E. eexists. split; [reflexivity | apply dict_get_set_same].
    - rewrite dict_get_set_same. eexists. split; [reflexivity | apply dict_get_set_same]. }
  destruct E1 as (groups2 & R & G).
  exists (mkItemGrouping groups2 (g_items g ++ [i]) (g_interval g)).
  exists (mkItemGrouping (dict_set groups2 k old) (g_items g) (g_interval g)).
  split; [exact R|]. split; [apply mem_snoc|]. split; [reflexivity|]. split; [exact G|].
  split; [|split; [|split; [reflexivity|split; [apply dict_get_set_same | exact M]]]].
  - unfold ItemGrouping_iadd_Item. cbn [g_items]. now rewrite mem_snoc.
  - unfold ItemGrouping_isub_Item, ItemGrouping_contains. cbn [g_items g_interval g_groups].
    rewrite mem_snoc, Hk. cbn [bind]. rewrite G, mem_snoc.
    now rewrite (remove_snoc_notin i old Ho), (remove_snoc_notin i (g_items g) Hn).
Qed.

Lemma X27_ItemGrouping_add_remove_witness :
  let g := mkItemGrouping [] [] INTERVAL_MONTHLY in
  let k := month_key (mkDate 2018 3 8) in
  let old := match dict_get (g_groups g) k with Some l => l | None => [] end in
  exists g' g'',
    ItemGrouping_iadd_Item Sample.ledger g 0%nat = Ok g' /\
    ItemGrouping_contains g' 0%nat = true /\
    g_items g' = (g_items g ++ [0%nat])%list /\
    dict_get (g_groups g') k = Some (old ++ [0%nat])%list /\
    ItemGrouping_iadd_Item Sample.ledger g' 0%nat = Ok g' /\
    ItemGrouping_isub_Item Sample.ledger g' 0%nat = Ok g'' /\
    g_items g'' = g_items g /\
    dict_get (g_groups g'') k = Some old /\
    ItemGrouping_contains g'' 0%nat = false.
Proof.
  intros g k.
  apply (X27_ItemGrouping_add_remove Sample.ledger g 0%nat k).
  - intros [].
  - vm_compute. reflexivity.
  - intros l H. discriminate.
Defined.
